(** * HOOMD-blue GPU dispatch layer: launch tuning, composite-body
      parameter blocks and system dimensionality

    A shallow embedding of
    - [hoomd/md/PotentialPairDPDThermoGPU.h]  (module [DPD]),
    - [PatchEnergyJITUnionGPU]                (module [JITUnion]),
    - [SystemDefinition]: [setNDimensions], the constructors and the
      snapshots                               (module [SysDefLife]),
    - [libhoomd/analyzers/MOL2DumpWriter.cc]  (module [MOL2]),
    together with the autotuner they drive (module [Autotuner]).

    C++ [unsigned int] values are integers in [Z] with the 32-bit
    wrap-around written out; member functions are computations in a
    state-and-exception monad that also records the calls made on the
    collaborators (neighbour list, tuner, device). *)

From Stdlib Require Import ZArith QArith Lia SpecFloat.
From stdpp Require Import base tactics option list strings.

Open Scope string_scope.
Open Scope list_scope.
Open Scope Z_scope.

(** ** Machine integers *)

Definition UINT_MOD : Z := 2 ^ 32.

(** Result of an [unsigned int] operation whose exact value is [z]. *)
Definition wrap32 (z : Z) : Z := z mod UINT_MOD.

(** ** Exceptions, observable calls, and the monad of member functions *)

Inductive exn : Type :=
| runtime_error (what : string)   (* [throw std::runtime_error(what)] *)
| ConfigurationError              (* autotuner built over no candidates *)
| ProgrammingError                (* unpaired autotuner [begin]/[end] *)
| DeviceExecutionError.           (* raised by [CHECK_CUDA_ERROR] *)

Inductive Event : Type :=
| EvMsgError (text : string)
| EvNlistCompute (timestep : Z)
| EvTunerBegin
| EvTunerGetParam
| EvTunerEnd
| EvKernelLaunch (block_size threads_per_particle : Z)
| EvCheckCudaError
| EvBuildOBBTree (type_id : nat)
| EvSetMemoryHint (type_id : nat).

Global Instance Event_eq_dec : EqDecision Event.
Proof. solve_decision. Defined.

Record Outcome (S A : Type) : Type := mkOutcome {
  result : exn + A;       (* [inl e]: left by exception [e] *)
  final : S;              (* object state when the call ended *)
  events : list Event     (* calls issued, oldest first *)
}.
Arguments mkOutcome {S A}.
Arguments result {S A}.
Arguments final {S A}.
Arguments events {S A}.

Definition M (S A : Type) : Type := S -> Outcome S A.

Definition ret {S A} (a : A) : M S A := fun s => mkOutcome (inr a) s [].

Definition bind {S A B} (m : M S A) (k : A -> M S B) : M S B :=
  fun s =>
    match m s with
    | mkOutcome (inl e) s' evs => mkOutcome (inl e) s' evs
    | mkOutcome (inr a) s' evs =>
        match k a s' with
        | mkOutcome r s'' evs' => mkOutcome r s'' (evs ++ evs')
        end
    end.

Definition throw {S A} (e : exn) : M S A := fun s => mkOutcome (inl e) s [].
Definition emit {S} (ev : Event) : M S unit := fun s => mkOutcome (inr tt) s [ev].
Definition get {S} : M S S := fun s => mkOutcome (inr s) s [].
Definition put {S} (s : S) : M S unit := fun _ => mkOutcome (inr tt) s [].
Definition when {S} (b : bool) (m : M S unit) : M S unit := if b then m else ret tt.

Global Instance M_ret {S} : MRet (M S) := fun A => @ret S A.
Global Instance M_bind {S} : MBind (M S) := fun A B k m => @bind S A B m k.

Definition modify {S} (f : S -> S) : M S unit := fun s => mkOutcome (inr tt) (f s) [].

(** Number of occurrences of an event in a trace. *)
Definition occurrences (ev : Event) (tr : list Event) : nat :=
  length (filter (fun e => e = ev) tr).

(** ** C-style loops

    [for (x = init; cond x; x = step x) body], threading the value the
    body updates.  [None] stands for a loop without a result: its body
    has undefined behaviour, or it never leaves (each use passes as fuel
    a number of iterations within which its counter either fails the
    condition or comes back to a value it had before). *)
Fixpoint for_loop {A} (fuel : nat) (cond : Z -> bool) (step : Z -> Z)
    (body : Z -> A -> option A) (x : Z) (acc : A) : option A :=
  if cond x then
    match fuel with
    | O => None
    | S fuel' =>
        match body x acc with
        | Some acc' => for_loop fuel' cond step body (step x) acc'
        | None => None
        end
    end
  else Some acc.

(** Range-based [for (auto y : l) body]. *)
Fixpoint for_each {A B} (body : B -> A -> option A) (l : list B) (acc : A) : option A :=
  match l with
  | [] => Some acc
  | y :: l' =>
      match body y acc with
      | Some acc' => for_each body l' acc'
      | None => None
      end
  end.

(** [visits cond step x xs]: a loop counter started at [x] takes the values
    [xs], in this order, and then fails the loop condition. *)
Inductive visits (cond : Z -> bool) (step : Z -> Z) : Z -> list Z -> Prop :=
| visits_stop x : cond x = false -> visits cond step x []
| visits_step x xs :
    cond x = true -> visits cond step (step x) xs -> visits cond step x (x :: xs).

Definition is_pow2 (n : Z) : Prop := exists e : nat, n = 2 ^ Z.of_nat e.

(** How many powers of two do not exceed [limit]. *)
Definition pow2_count (limit : Z) : nat :=
  if limit <? 1 then 0%nat else S (Z.to_nat (Z.log2 limit)).

(** The powers of two up to [limit], ascending. *)
Definition pow2_upto (limit : Z) : list Z :=
  (fun i => 2 ^ Z.of_nat i) <$> seq 0 (pow2_count limit).

(** The positive multiples of [stride] up to [limit], ascending. *)
Definition multiples_upto (stride limit : Z) : list Z :=
  (fun i => Z.of_nat i * stride) <$> seq 1 (Z.to_nat (limit / stride)).

(** [ExecutionConfiguration], as far as the classes below read it. *)
Record ExecutionConfiguration : Type := {
  isCUDAEnabled : bool;
  isCUDAErrorCheckingEnabled : bool;
  warpSize : Z                       (* [dev_prop.warpSize] *)
}.

(** ** KernelLaunchAutotuner

    Modelled from the spec: [hoomd/Autotuner.h] is not under src/, so the
    tuner follows section 4.1 of the specification: candidates are probed
    in list order, [samples_per_candidate] timed launches each; when the
    last candidate is sampled the tuner locks onto the candidate of
    minimum mean duration (ties: the smaller key); [rescan_period]
    locked steps later all samples are cleared and the scan restarts.
    The duration of a bracket is handed to [end_] by the timer.  The
    optional warm-up discard is off, and the collective reduction of a
    synchronised lock is the identity on a single process. *)
Module Autotuner.

Inductive State : Type := Scanning | Locked.

Record t : Type := mk {
  name : string;
  candidates : list Z;
  samples_per_candidate : nat;
  rescan_period : Z;
  enabled : bool;
  sync : bool;
  state : State;
  probe : nat;                    (* index of the candidate being probed *)
  samples : list (list Z);        (* durations recorded per candidate *)
  locked_param : Z;
  steps_since_lock : Z;
  in_bracket : bool               (* [begin] seen, [end] pending *)
}.

Definition total (l : list Z) : Z := foldr Z.add 0 l.

Definition mean (l : list Z) : Q :=
  (inject_Z (total l) / inject_Z (Z.of_nat (length l)))%Q.

(** [better a b]: candidate [a] is preferred to [b] when locking. *)
Definition better (a b : Z * Q) : bool :=
  negb (Qle_bool (snd b) (snd a))
  || (Qeq_bool (snd a) (snd b) && (fst a <? fst b)).

Definition arg_min (first : Z * Q) (rest : list (Z * Q)) : Z * Q :=
  foldl (fun best x => if better x best then x else best) first rest.

Definition construct (cands : list Z) (nsamples : nat) (period : Z)
    (nm : string) : exn + t :=
  match cands with
  | [] => inl ConfigurationError
  | c :: _ =>
      inr {| name := nm; candidates := cands;
             samples_per_candidate := nsamples; rescan_period := period;
             enabled := true; sync := false;
             state := Scanning; probe := 0%nat;
             samples := replicate (length cands) [];
             locked_param := c; steps_since_lock := 0;
             in_bracket := false |}
  end.

Definition setEnabled (b : bool) (a : t) : t :=
  mk (name a) (candidates a) (samples_per_candidate a) (rescan_period a)
     b (sync a) (state a) (probe a) (samples a) (locked_param a)
     (steps_since_lock a) (in_bracket a).

Definition setPeriod (period : Z) (a : t) : t :=
  mk (name a) (candidates a) (samples_per_candidate a) period
     (enabled a) (sync a) (state a) (probe a) (samples a) (locked_param a)
     (steps_since_lock a) (in_bracket a).

Definition setSync (b : bool) (a : t) : t :=
  mk (name a) (candidates a) (samples_per_candidate a) (rescan_period a)
     (enabled a) b (state a) (probe a) (samples a) (locked_param a)
     (steps_since_lock a) (in_bracket a).

Definition set_bracket (b : bool) (a : t) : t :=
  mk (name a) (candidates a) (samples_per_candidate a) (rescan_period a)
     (enabled a) (sync a) (state a) (probe a) (samples a) (locked_param a)
     (steps_since_lock a) b.

(** Progress of the search: state, probe index, samples, choice, steps. *)
Definition set_search (st : State) (p : nat) (smp : list (list Z))
    (chosen steps : Z) (a : t) : t :=
  mk (name a) (candidates a) (samples_per_candidate a) (rescan_period a)
     (enabled a) (sync a) st p smp chosen steps (in_bracket a).

Definition getParam (a : t) : Z :=
  match state a with
  | Scanning => nth (probe a) (candidates a) 0
  | Locked => locked_param a
  end.

Definition begin (a : t) : exn + t :=
  if in_bracket a then inl ProgrammingError else inr (set_bracket true a).

(** Scanning -> Locked over the samples [smp]. *)
Definition lock (smp : list (list Z)) (a : t) : t :=
  match zip (candidates a) (mean <$> smp) with
  | [] => a
  | first :: rest =>
      set_search Locked (probe a) smp (fst (arg_min first rest)) 0 a
  end.

(** Locked -> Scanning, all samples cleared. *)
Definition rescan (a : t) : t :=
  set_search Scanning 0%nat (replicate (length (candidates a)) [])
             (locked_param a) 0 a.

Definition record_sample (elapsed : Z) (a : t) : t :=
  let smp := alter (fun l => l ++ [elapsed]) (probe a) (samples a) in
  let taken := length (default [] (smp !! probe a)) in
  if bool_decide (samples_per_candidate a <= taken)%nat then
    if bool_decide (S (probe a) < length (candidates a))%nat then
      set_search Scanning (S (probe a)) smp (locked_param a) (steps_since_lock a) a
    else lock smp a
  else set_search Scanning (probe a) smp (locked_param a) (steps_since_lock a) a.

Definition count_step (a : t) : t :=
  let n := steps_since_lock a + 1 in
  if rescan_period a <=? n then rescan a
  else set_search Locked (probe a) (samples a) (locked_param a) n a.

Definition end_ (elapsed : Z) (a : t) : exn + t :=
  if in_bracket a then
    let a' := set_bracket false a in
    if enabled a' then
      match state a' with
      | Scanning => inr (record_sample elapsed a')
      | Locked => inr (count_step a')
      end
    else inr a'
  else inl ProgrammingError.

(** One timed launch: [begin(); ...; end()] with the measured duration. *)
Definition bracket (elapsed : Z) (a : t) : exn + t :=
  match begin a with
  | inl e => inl e
  | inr a' => end_ elapsed a'
  end.

(** Consecutive timed launches; also returns what [getParam] answered
    inside each bracket. *)
Fixpoint run (durations : list Z) (a : t) : exn + (list Z * t) :=
  match durations with
  | [] => inr ([], a)
  | d :: ds =>
      match bracket d a with
      | inl e => inl e
      | inr a' =>
          match run ds a' with
          | inl e => inl e
          | inr (probed, a'') => inr (getParam a :: probed, a'')
          end
      end
  end.

(** [no_worse a b]: [a] has the smaller mean, or the same mean and a key
    that is not larger. *)
Definition no_worse (a b : Z * Q) : Prop :=
  (snd a < snd b)%Q \/ ((snd a == snd b)%Q /\ fst a <= fst b).

(** A tuner in mid-scan: the candidates of [done] are sampled in full,
    the next one holds [acc], and [k] more are untouched. *)
Definition scanning (base : t) (done : list (list Z)) (acc : list Z) (k : nat) : t :=
  set_search Scanning (length done) (done ++ acc :: replicate k [])
             (locked_param base) (steps_since_lock base) base.

(** The durations recorded for candidate number [j] in one scan. *)
Definition chunk (nsamples : nat) (durations : list Z) (j : nat) : list Z :=
  take nsamples (drop (j * nsamples) durations).

End Autotuner.

(** ** PotentialPairDPDThermoGPU *)
Module DPD.

(** [NeighborList::storageMode]. *)
Inductive storageMode : Type := half | full.

Global Instance storageMode_eq_dec : EqDecision storageMode.
Proof. solve_decision. Defined.

Record NeighborList : Type := {
  getStorageMode : storageMode
}.

(** What the device does with one launch: whether an error is pending
    after it, and how long the tuner's timer ran. *)
Record Device : Type := {
  launch_fails : bool;
  elapsed : Z
}.

(** The members that [PotentialPairDPDThermoGPU.h] itself reads or
    assigns.  The arrays of the base class that [computeForces] hands to
    the kernel ([m_force] and [m_virial], which the kernel overwrites, the
    particle data, the potential parameters) are not part of this state:
    what is said of the object after a call is said of these four
    members. *)
Record PotentialPairDPDThermoGPU : Type := mk {
  m_exec_conf : ExecutionConfiguration;
  m_nlist : NeighborList;
  m_tuner : Autotuner.t;
  m_param : Z
}.

Definition set_tuner (tn : Autotuner.t) (self : PotentialPairDPDThermoGPU) :=
  mk (m_exec_conf self) (m_nlist self) tn (m_param self).

(** Modelled from the spec: [Autotuner::getTppListPow2] is declared in
    [hoomd/Autotuner.h], not under src/.  It lists the threads-per-particle
    values, the powers of two that do not exceed the warp size. *)
Definition getTppListPow2 (warp_size : Z) : list Z :=
  filter (fun s => s <= warp_size) ((fun k => 2 ^ Z.of_nat k) <$> seq 0 32).

(** The key pushed by the constructor. *)
Definition encode (block_size s : Z) : Z :=
  wrap32 (wrap32 (block_size * 10000) + s).

(** The split done by [computeForces]. *)
Definition decode (param : Z) : Z * Z := (param / 10000, param mod 10000).

(** The loops of the constructor that fill [valid_params]. *)
Definition valid_params (warp_size : Z) : option (list Z) :=
  for_loop 1024 (fun block_size => block_size <=? 1024)
    (fun block_size => wrap32 (block_size + warp_size))
    (fun block_size acc =>
       for_each (fun s acc => Some (acc ++ [encode block_size s]))
                (getTppListPow2 warp_size) acc)
    warp_size [].

(** Constructor (a build without MPI, so without the [setSync] call).
    [None]: the constructor does not return. *)
Definition construct (exec_conf : ExecutionConfiguration) (nlist : NeighborList)
    (evaluator_name : string) : option (exn + PotentialPairDPDThermoGPU) :=
  if negb (isCUDAEnabled exec_conf) then
    Some (inl (runtime_error "Error initializing PotentialPairDPDThermoGPU"))
  else
    match valid_params (warpSize exec_conf) with
    | None => None
    | Some params =>
        match Autotuner.construct params 5 100000 ("pair_" +:+ evaluator_name) with
        | inl e => Some (inl e)
        | inr tn => Some (inr (mk exec_conf nlist tn 0))
        end
    end.

Definition setTuningParam (param : Z) (self : PotentialPairDPDThermoGPU) :=
  mk (m_exec_conf self) (m_nlist self) (m_tuner self) param.

(** Calls on [m_tuner]. *)
Definition tuner_begin : M PotentialPairDPDThermoGPU unit :=
  emit EvTunerBegin;;
  self ← get;
  match Autotuner.begin (m_tuner self) with
  | inl e => throw e
  | inr tn => put (set_tuner tn self)
  end.

Definition tuner_getParam : M PotentialPairDPDThermoGPU Z :=
  emit EvTunerGetParam;;
  self ← get;
  mret (Autotuner.getParam (m_tuner self)).

Definition tuner_end (dev : Device) : M PotentialPairDPDThermoGPU unit :=
  emit EvTunerEnd;;
  self ← get;
  match Autotuner.end_ (elapsed dev) (m_tuner self) with
  | inl e => throw e
  | inr tn => put (set_tuner tn self)
  end.

(** Modelled from the spec: the macro [CHECK_CUDA_ERROR] is not under
    src/; the post-launch check raises [DeviceExecutionError] when the
    device reports an error. *)
Definition CHECK_CUDA_ERROR (dev : Device) : M PotentialPairDPDThermoGPU unit :=
  emit EvCheckCudaError;;
  when (launch_fails dev) (throw DeviceExecutionError).

(** [computeForces(timestep)]. *)
Definition computeForces (timestep : Z) (dev : Device)
    : M PotentialPairDPDThermoGPU unit :=
  emit (EvNlistCompute timestep);;
  self ← get;
  let third_law := bool_decide (getStorageMode (m_nlist self) = half) in
  when third_law
    (emit (EvMsgError "PotentialPairDPDThermoGPU cannot handle a half neighborlist");;
     throw (runtime_error "Error computing forces in PotentialPairDPDThermoGPU"));;
  when (m_param self =? 0) tuner_begin;;
  param ← (if m_param self =? 0 then tuner_getParam else mret (m_param self));
  let '(block_size, threads_per_particle) := decode param in
  emit (EvKernelLaunch block_size threads_per_particle);;
  when (isCUDAErrorCheckingEnabled (m_exec_conf self)) (CHECK_CUDA_ERROR dev);;
  when (m_param self =? 0) (tuner_end dev).

Definition is_launch (ev : Event) : bool :=
  match ev with EvKernelLaunch _ _ => true | _ => false end.

(** The events of the post-launch step of [computeForces]. *)
Definition post_launch_check (self : PotentialPairDPDThermoGPU) : list Event :=
  if isCUDAErrorCheckingEnabled (m_exec_conf self) then [EvCheckCudaError] else [].

(** The post-launch step of [computeForces]: [before] are the events so
    far, [k] is the rest of the call. *)
Definition after_launch (dev : Device) (self : PotentialPairDPDThermoGPU)
    (before : list Event) (k : list Event -> Outcome PotentialPairDPDThermoGPU unit)
    : Outcome PotentialPairDPDThermoGPU unit :=
  if isCUDAErrorCheckingEnabled (m_exec_conf self) then
    if launch_fails dev
    then mkOutcome (inl DeviceExecutionError) self (before ++ [EvCheckCudaError])
    else k (before ++ [EvCheckCudaError])
  else k before.

End DPD.

(** ** PatchEnergyJITUnionGPU *)
Module JITUnion.

(** Single-precision values are carried, never computed with. *)
Definition float : Type := spec_float.

Record vec3 : Type := mk_vec3 { x : float; y : float; z : float }.
Record quat : Type := mk_quat { s : float; v : vec3 }.

Definition vec3_0 : vec3 := mk_vec3 (S754_zero false) (S754_zero false) (S754_zero false).
Definition quat_0 : quat := mk_quat (S754_zero false) vec3_0.

(** [ManagedArray<T>]: content, whether it lives in managed memory, and
    whether the read-mostly advice has been given for it. *)
Record ManagedArray (A : Type) : Type := mk_array {
  data : list A;
  managed : bool;
  read_mostly : bool
}.
Arguments mk_array {A}.
Arguments data {A}.
Arguments managed {A}.
Arguments read_mostly {A}.

(** [ManagedArray<T> a(N, managed)]: [N] default elements, no advice yet. *)
Definition new_array {A} (N : nat) (d : A) (mng : bool) : ManagedArray A :=
  mk_array (replicate N d) mng false.

(** [a[i] = x]. *)
Definition array_set {A} (i : nat) (x : A) (a : ManagedArray A) : ManagedArray A :=
  mk_array (<[i:=x]> (data a)) (managed a) (read_mostly a).

Definition array_hint {A} (a : ManagedArray A) : ManagedArray A :=
  mk_array (data a) (managed a) true.

(** The constituent records stored on the host for one particle type. *)
Record Constituents : Type := mk_constituents {
  c_type : list Z;
  c_position : list vec3;
  c_orientation : list quat;
  c_diameter : list float;
  c_charge : list float
}.

(** Modelled from the spec: [GPUTree] and [PatchEnergyJITUnion::buildOBBTree]
    are not under src/.  The bounding-volume tree is derived from the
    constituent records of its type by a full build, so a tree is
    represented by the records it was built over. *)
Record GPUTree : Type := mk_tree {
  built_over : Constituents;
  tree_read_mostly : bool
}.

Definition no_constituents : Constituents := mk_constituents [] [] [] [] [].
Definition empty_tree : GPUTree := mk_tree no_constituents false.

(** [jit::union_params_t]. *)
Record union_params_t : Type := mk_params {
  mtype : ManagedArray Z;
  mpos : ManagedArray vec3;
  morientation : ManagedArray quat;
  mdiameter : ManagedArray float;
  mcharge : ManagedArray float;
  tree : GPUTree
}.

Definition default_params : union_params_t :=
  mk_params (new_array 0 0 true) (new_array 0 vec3_0 true) (new_array 0 quat_0 true)
            (new_array 0 (S754_zero false) true) (new_array 0 (S754_zero false) true)
            empty_tree.

Definition set_mtype a (p : union_params_t) :=
  mk_params a (mpos p) (morientation p) (mdiameter p) (mcharge p) (tree p).
Definition set_mpos a (p : union_params_t) :=
  mk_params (mtype p) a (morientation p) (mdiameter p) (mcharge p) (tree p).
Definition set_morientation a (p : union_params_t) :=
  mk_params (mtype p) (mpos p) a (mdiameter p) (mcharge p) (tree p).
Definition set_mdiameter a (p : union_params_t) :=
  mk_params (mtype p) (mpos p) (morientation p) a (mcharge p) (tree p).
Definition set_mcharge a (p : union_params_t) :=
  mk_params (mtype p) (mpos p) (morientation p) (mdiameter p) a (tree p).
Definition set_tree t (p : union_params_t) :=
  mk_params (mtype p) (mpos p) (morientation p) (mdiameter p) (mcharge p) t.

(** Modelled from the spec: [union_params_t::set_memory_hint] is not under
    src/; it marks the content of the block read-mostly. *)
Definition hint_block (p : union_params_t) : union_params_t :=
  mk_params (array_hint (mtype p)) (array_hint (mpos p))
            (array_hint (morientation p)) (array_hint (mdiameter p))
            (array_hint (mcharge p))
            (mk_tree (built_over (tree p)) true).

Record PatchEnergyJITUnionGPU : Type := mk {
  type_names : list string;            (* the type registry of [m_sysdef] *)
  m_type : list (list Z);
  m_position : list (list vec3);
  m_orientation : list (list quat);
  m_diameter : list (list float);
  m_charge : list (list float);
  m_tree : list GPUTree;
  m_d_union_params : list union_params_t;
  m_tuner_narrow_patch : Autotuner.t;
  m_managed_memory : bool
}.

Definition set_m_type h (o : PatchEnergyJITUnionGPU) :=
  mk (type_names o) h (m_position o) (m_orientation o) (m_diameter o) (m_charge o)
     (m_tree o) (m_d_union_params o) (m_tuner_narrow_patch o) (m_managed_memory o).
Definition set_m_position h (o : PatchEnergyJITUnionGPU) :=
  mk (type_names o) (m_type o) h (m_orientation o) (m_diameter o) (m_charge o)
     (m_tree o) (m_d_union_params o) (m_tuner_narrow_patch o) (m_managed_memory o).
Definition set_m_orientation h (o : PatchEnergyJITUnionGPU) :=
  mk (type_names o) (m_type o) (m_position o) h (m_diameter o) (m_charge o)
     (m_tree o) (m_d_union_params o) (m_tuner_narrow_patch o) (m_managed_memory o).
Definition set_m_diameter h (o : PatchEnergyJITUnionGPU) :=
  mk (type_names o) (m_type o) (m_position o) (m_orientation o) h (m_charge o)
     (m_tree o) (m_d_union_params o) (m_tuner_narrow_patch o) (m_managed_memory o).
Definition set_m_charge h (o : PatchEnergyJITUnionGPU) :=
  mk (type_names o) (m_type o) (m_position o) (m_orientation o) (m_diameter o) h
     (m_tree o) (m_d_union_params o) (m_tuner_narrow_patch o) (m_managed_memory o).
Definition set_m_tree h (o : PatchEnergyJITUnionGPU) :=
  mk (type_names o) (m_type o) (m_position o) (m_orientation o) (m_diameter o)
     (m_charge o) h (m_d_union_params o) (m_tuner_narrow_patch o) (m_managed_memory o).
Definition set_m_d_union_params h (o : PatchEnergyJITUnionGPU) :=
  mk (type_names o) (m_type o) (m_position o) (m_orientation o) (m_diameter o)
     (m_charge o) (m_tree o) h (m_tuner_narrow_patch o) (m_managed_memory o).
Definition set_m_tuner_narrow_patch h (o : PatchEnergyJITUnionGPU) :=
  mk (type_names o) (m_type o) (m_position o) (m_orientation o) (m_diameter o)
     (m_charge o) (m_tree o) (m_d_union_params o) h (m_managed_memory o).

(** [v[type_id]] for the per-type vectors. *)
Definition at_type {A} (d : A) (type_id : nat) (v : list A) : A :=
  default d (v !! type_id).

(** The records currently stored for a type. *)
Definition constituents (type_id : nat) (o : PatchEnergyJITUnionGPU) : Constituents :=
  mk_constituents (at_type [] type_id (m_type o)) (at_type [] type_id (m_position o))
                  (at_type [] type_id (m_orientation o)) (at_type [] type_id (m_diameter o))
                  (at_type [] type_id (m_charge o)).

(** Every per-type vector has one entry per particle type. *)
Definition well_formed (o : PatchEnergyJITUnionGPU) : Prop :=
  let n := length (type_names o) in
  length (m_type o) = n /\ length (m_position o) = n /\ length (m_orientation o) = n /\
  length (m_diameter o) = n /\ length (m_charge o) = n /\ length (m_tree o) = n /\
  length (m_d_union_params o) = n.

Fixpoint index_of (nm : string) (names : list string) : option nat :=
  match names with
  | [] => None
  | n :: rest => if String.eqb nm n then Some 0%nat else S <$> index_of nm rest
  end.

(** Modelled from the spec: [ParticleData::getTypeByName] is not under src/;
    the registry maps a type name to its numeric id and an unknown name
    is a [ConfigurationError]. *)
Definition getTypeByName (type : string) : M PatchEnergyJITUnionGPU nat :=
  self ← get;
  match index_of type (type_names self) with
  | Some type_id => mret type_id
  | None => throw ConfigurationError
  end.

(** The body of the setters' loop: for [i = 0 .. N-1], element [i] of the
    input goes to the host vector and to the new managed array. *)
Fixpoint copy_in {A} (i : nat) (input : list A) (host : list A) (fresh : ManagedArray A)
    : list A * ManagedArray A :=
  match input with
  | [] => (host, fresh)
  | e :: rest => copy_in (S i) rest (<[i:=e]> host) (array_set i e fresh)
  end.

Definition update_params (type_id : nat) (f : union_params_t -> union_params_t)
    : M PatchEnergyJITUnionGPU unit :=
  modify (fun self => set_m_d_union_params (alter f type_id (m_d_union_params self)) self).

Definition set_memory_hint (type_id : nat) : M PatchEnergyJITUnionGPU unit :=
  emit (EvSetMemoryHint type_id);;
  update_params type_id hint_block.

(** [PatchEnergyJITUnion::buildOBBTree] of the base class (see [GPUTree]). *)
Definition base_buildOBBTree (type_id : nat) : M PatchEnergyJITUnionGPU unit :=
  emit (EvBuildOBBTree type_id);;
  modify (fun self =>
    set_m_tree (<[type_id := mk_tree (constituents type_id self) false]> (m_tree self)) self).

Definition buildOBBTree (type_id : nat) : M PatchEnergyJITUnionGPU unit :=
  base_buildOBBTree type_id;;
  self ← get;
  update_params type_id (set_tree (at_type empty_tree type_id (m_tree self))).

(** The five setters, on the values that the elements of the Python
    list convert to.  The casts themselves, and what a cast that throws
    in the middle of the loop leaves behind, are in [UnionPy]. *)
Definition setTypeids (type : string) (typeids : list Z) : M PatchEnergyJITUnionGPU unit :=
  type_id ← getTypeByName type;
  self ← get;
  let N := length typeids in
  let resized := resize N 0 (at_type [] type_id (m_type self)) in
  let '(host, new_type_ids) := copy_in 0 typeids resized (new_array N 0 true) in
  put (set_m_type (<[type_id := host]> (m_type self)) self);;
  update_params type_id (set_mtype new_type_ids);;
  set_memory_hint type_id.

Definition setPositions (type : string) (position : list vec3)
    : M PatchEnergyJITUnionGPU unit :=
  type_id ← getTypeByName type;
  self ← get;
  let N := length position in
  let resized := resize N vec3_0 (at_type [] type_id (m_position self)) in
  let '(host, new_positions) := copy_in 0 position resized (new_array N vec3_0 true) in
  put (set_m_position (<[type_id := host]> (m_position self)) self);;
  update_params type_id (set_mpos new_positions);;
  set_memory_hint type_id;;
  buildOBBTree type_id.

Definition setOrientations (type : string) (orientation : list quat)
    : M PatchEnergyJITUnionGPU unit :=
  type_id ← getTypeByName type;
  self ← get;
  let N := length orientation in
  let resized := resize N quat_0 (at_type [] type_id (m_orientation self)) in
  let '(host, new_orientations) := copy_in 0 orientation resized (new_array N quat_0 true) in
  put (set_m_orientation (<[type_id := host]> (m_orientation self)) self);;
  update_params type_id (set_morientation new_orientations);;
  set_memory_hint type_id.

Definition setDiameters (type : string) (diameter : list float)
    : M PatchEnergyJITUnionGPU unit :=
  type_id ← getTypeByName type;
  self ← get;
  let N := length diameter in
  let resized := resize N (S754_zero false) (at_type [] type_id (m_diameter self)) in
  let '(host, new_diameters) :=
    copy_in 0 diameter resized (new_array N (S754_zero false) true) in
  put (set_m_diameter (<[type_id := host]> (m_diameter self)) self);;
  update_params type_id (set_mdiameter new_diameters);;
  set_memory_hint type_id.

Definition setCharges (type : string) (charge : list float)
    : M PatchEnergyJITUnionGPU unit :=
  type_id ← getTypeByName type;
  self ← get;
  let N := length charge in
  let resized := resize N (S754_zero false) (at_type [] type_id (m_charge self)) in
  let '(host, new_charges) :=
    copy_in 0 charge resized (new_array N (S754_zero false) true) in
  put (set_m_charge (<[type_id := host]> (m_charge self)) self);;
  update_params type_id (set_mcharge new_charges);;
  set_memory_hint type_id.

Definition setAutotunerParams (enable : bool) (period : Z)
    : M PatchEnergyJITUnionGPU unit :=
  modify (fun self =>
    set_m_tuner_narrow_patch
      (Autotuner.setEnabled enable (Autotuner.setPeriod period (m_tuner_narrow_patch self)))
      self).

(** The key pushed by the constructor. *)
Definition encode (cur_launch_bounds group_size eval_threads : Z) : Z :=
  wrap32 (wrap32 (wrap32 (cur_launch_bounds * 1000000) + wrap32 (group_size * 100))
          + eval_threads).

(** The loops of the constructor that fill [valid_params_patch];
    [launch_bounds] is what [m_gpu_factory.getLaunchBounds()] reports. *)
Definition valid_params_patch (warp_size : Z) (launch_bounds : list Z) : option (list Z) :=
  let narrow_phase_max_threads_per_eval := warp_size in
  for_each (fun cur_launch_bounds acc =>
    for_loop 32 (fun group_size => group_size <=? cur_launch_bounds)
      (fun group_size => wrap32 (group_size * 2))
      (fun group_size acc =>
        for_loop 32 (fun eval_threads => eval_threads <=? narrow_phase_max_threads_per_eval)
          (fun eval_threads => wrap32 (eval_threads * 2))
          (fun eval_threads acc =>
            let divisor := wrap32 (group_size * eval_threads) in
            if divisor =? 0 then None
            else if cur_launch_bounds mod divisor =? 0
                 then Some (acc ++ [encode cur_launch_bounds group_size eval_threads])
                 else Some acc)
          1 acc)
      1 acc)
    launch_bounds [].

(** Constructor, from the tuning parameters on.  [None]: it does not return. *)
Definition construct (names : list string) (exec_conf : ExecutionConfiguration)
    (launch_bounds : list Z) : option (exn + PatchEnergyJITUnionGPU) :=
  match valid_params_patch (warpSize exec_conf) launch_bounds with
  | None => None
  | Some params =>
      match Autotuner.construct params 5 100000 "hpmc_narrow_patch" with
      | inl e => Some (inl e)
      | inr tn =>
          let n := length names in
          Some (inr (mk names (replicate n []) (replicate n []) (replicate n [])
                        (replicate n []) (replicate n []) (replicate n empty_tree)
                        (replicate n default_params) tn true))
      end
  end.

(** What a setter call leaves behind: the call returned, it gave the
    residency hint once, and both the host vector and the field of the
    type's parameter block hold the input, the latter in a managed array
    that carries the read-mostly advice. *)
Definition stored_and_hinted {A}
    (host : PatchEnergyJITUnionGPU -> list (list A))
    (field : union_params_t -> ManagedArray A)
    (type_id : nat) (input : list A)
    (o : Outcome PatchEnergyJITUnionGPU unit) : Prop :=
  result o = inr tt /\
  occurrences (EvSetMemoryHint type_id) (events o) = 1%nat /\
  host (final o) !! type_id = Some input /\
  exists blk,
    m_d_union_params (final o) !! type_id = Some blk /\
    field blk = mk_array input true true.




End JITUnion.

(** ** Sample configurations *)
Module Samples.

(** A device with 32-wide warps, error checking off or on. *)
Definition exec_conf : ExecutionConfiguration :=
  {| isCUDAEnabled := true; isCUDAErrorCheckingEnabled := false; warpSize := 32 |}.
Definition exec_conf_checked : ExecutionConfiguration :=
  {| isCUDAEnabled := true; isCUDAErrorCheckingEnabled := true; warpSize := 32 |}.

Definition nlist_full : DPD.NeighborList := {| DPD.getStorageMode := DPD.full |}.
Definition nlist_half : DPD.NeighborList := {| DPD.getStorageMode := DPD.half |}.

Definition device_ok : DPD.Device := {| DPD.launch_fails := false; DPD.elapsed := 7 |}.
Definition device_faulty : DPD.Device := {| DPD.launch_fails := true; DPD.elapsed := 7 |}.

Definition small_tuner : Autotuner.t :=
  Autotuner.mk "pair_dpd" [320001; 320004; 640001] 5 100000 true false
               Autotuner.Scanning 0 [[]; []; []] 320001 0 false.

Definition dpd_full : DPD.PotentialPairDPDThermoGPU :=
  DPD.mk exec_conf nlist_full small_tuner 0.
Definition dpd_checked : DPD.PotentialPairDPDThermoGPU :=
  DPD.mk exec_conf_checked nlist_full small_tuner 0.
Definition dpd_half : DPD.PotentialPairDPDThermoGPU :=
  DPD.mk exec_conf_checked nlist_half small_tuner 0.
(** [dpd_full] after [setTuningParam(320004)]. *)
Definition dpd_manual : DPD.PotentialPairDPDThermoGPU :=
  DPD.setTuningParam 320004 dpd_full.

Definition one : JITUnion.float := S754_finite false 1 0.
Definition two : JITUnion.float := S754_finite false 1 1.

(** Two particle types, nothing set yet. *)
Definition union_fresh : JITUnion.PatchEnergyJITUnionGPU :=
  JITUnion.mk ["A"; "B"] [[]; []] [[]; []] [[]; []] [[]; []] [[]; []]
    [JITUnion.empty_tree; JITUnion.empty_tree]
    [JITUnion.default_params; JITUnion.default_params]
    (Autotuner.mk "hpmc_narrow_patch" [32000101] 5 100000 true false
                  Autotuner.Scanning 0 [[]] 32000101 0 false)
    true.

Definition two_positions : list JITUnion.vec3 :=
  [JITUnion.mk_vec3 one (S754_zero false) (S754_zero false);
   JITUnion.mk_vec3 (S754_zero false) two (S754_zero false)].

(** Type "B" with two constituents placed. *)
Definition union_placed : JITUnion.PatchEnergyJITUnionGPU :=
  final (JITUnion.setPositions "B" two_positions union_fresh).

Definition two_orientations : list JITUnion.quat :=
  [JITUnion.mk_quat one JITUnion.vec3_0;
   JITUnion.mk_quat (S754_zero false) (JITUnion.mk_vec3 one (S754_zero false) (S754_zero false))].

End Samples.

(** ** Sequences of setter calls on a PatchEnergyJITUnionGPU *)
Module UnionCalls.

Inductive Call : Type :=
| CallTypeids (type : string) (typeids : list Z)
| CallPositions (type : string) (position : list JITUnion.vec3)
| CallOrientations (type : string) (orientation : list JITUnion.quat)
| CallDiameters (type : string) (diameter : list JITUnion.float)
| CallCharges (type : string) (charge : list JITUnion.float).

Definition perform (c : Call) : M JITUnion.PatchEnergyJITUnionGPU unit :=
  match c with
  | CallTypeids type typeids => JITUnion.setTypeids type typeids
  | CallPositions type position => JITUnion.setPositions type position
  | CallOrientations type orientation => JITUnion.setOrientations type orientation
  | CallDiameters type diameter => JITUnion.setDiameters type diameter
  | CallCharges type charge => JITUnion.setCharges type charge
  end.

Definition type_of (c : Call) : string :=
  match c with
  | CallTypeids type _ | CallPositions type _ | CallOrientations type _
  | CallDiameters type _ | CallCharges type _ => type
  end.

(** Which setter a call is. *)
Inductive Field : Type := Typeids | Positions | Orientations | Diameters | Charges.

Definition field_of (c : Call) : Field :=
  match c with
  | CallTypeids _ _ => Typeids
  | CallPositions _ _ => Positions
  | CallOrientations _ _ => Orientations
  | CallDiameters _ _ => Diameters
  | CallCharges _ _ => Charges
  end.

(** The constituent records held in a parameter block. *)
Definition block_records (p : JITUnion.union_params_t) : JITUnion.Constituents :=
  JITUnion.mk_constituents
    (JITUnion.data (JITUnion.mtype p)) (JITUnion.data (JITUnion.mpos p))
    (JITUnion.data (JITUnion.morientation p)) (JITUnion.data (JITUnion.mdiameter p))
    (JITUnion.data (JITUnion.mcharge p)).

(** The parameter block of a type mirrors the host side: same constituent
    records, and a tree built over the same records as the host tree. *)
Definition mirrored (type_id : nat) (o : JITUnion.PatchEnergyJITUnionGPU) : Prop :=
  exists blk t,
    JITUnion.m_d_union_params o !! type_id = Some blk /\
    JITUnion.m_tree o !! type_id = Some t /\
    block_records blk = JITUnion.constituents type_id o /\
    JITUnion.built_over (JITUnion.tree blk) = JITUnion.built_over t.

(** Everything the object holds for one particle type. *)
Definition per_type (type_id : nat) (o : JITUnion.PatchEnergyJITUnionGPU)
    : JITUnion.Constituents * option JITUnion.GPUTree * option JITUnion.union_params_t :=
  (JITUnion.constituents type_id o,
   JITUnion.m_tree o !! type_id,
   JITUnion.m_d_union_params o !! type_id).

End UnionCalls.

(** ** The setters as Python calls them

    The setters of [JITUnion] again, this time starting from the
    [pybind11::list] argument, whose elements are cast one by one inside
    the loop.  On a list whose elements all convert a setter here is the
    setter of [JITUnion] on the converted values. *)
Module UnionPy.

(** What a setter finds in its [pybind11::list]: an element either
    converts to the element type, with value [v] ([inr v]), or makes the
    cast throw [pybind11::cast_error], a [std::runtime_error] with
    message [what] ([inl what]). *)
Definition PyList (A : Type) : Type := list (string + A).

(** The setters' loop: element [i] is cast, then written to the host
    vector and to the new managed array; a cast that throws ends the
    loop, with its message. *)
Fixpoint cast_in {A} (i : nat) (input : PyList A) (host : list A)
    (fresh : JITUnion.ManagedArray A)
    : list A * JITUnion.ManagedArray A * option string :=
  match input with
  | [] => (host, fresh, None)
  | inl what :: _ => (host, fresh, Some what)
  | inr e :: rest => cast_in (S i) rest (<[i:=e]> host) (JITUnion.array_set i e fresh)
  end.

Definition setTypeids (type : string) (typeids : PyList Z)
    : M JITUnion.PatchEnergyJITUnionGPU unit :=
  type_id ← JITUnion.getTypeByName type;
  self ← get;
  let N := length typeids in
  let resized := resize N 0 (JITUnion.at_type [] type_id (JITUnion.m_type self)) in
  let '(host, new_type_ids, thrown) :=
    cast_in 0 typeids resized (JITUnion.new_array N 0 true) in
  put (JITUnion.set_m_type (<[type_id := host]> (JITUnion.m_type self)) self);;
  match thrown with
  | Some what => throw (runtime_error what)
  | None =>
      JITUnion.update_params type_id (JITUnion.set_mtype new_type_ids);;
      JITUnion.set_memory_hint type_id
  end.

Definition setPositions (type : string) (position : PyList JITUnion.vec3)
    : M JITUnion.PatchEnergyJITUnionGPU unit :=
  type_id ← JITUnion.getTypeByName type;
  self ← get;
  let N := length position in
  let resized :=
    resize N JITUnion.vec3_0 (JITUnion.at_type [] type_id (JITUnion.m_position self)) in
  let '(host, new_positions, thrown) :=
    cast_in 0 position resized (JITUnion.new_array N JITUnion.vec3_0 true) in
  put (JITUnion.set_m_position (<[type_id := host]> (JITUnion.m_position self)) self);;
  match thrown with
  | Some what => throw (runtime_error what)
  | None =>
      JITUnion.update_params type_id (JITUnion.set_mpos new_positions);;
      JITUnion.set_memory_hint type_id;;
      JITUnion.buildOBBTree type_id
  end.

Definition setOrientations (type : string) (orientation : PyList JITUnion.quat)
    : M JITUnion.PatchEnergyJITUnionGPU unit :=
  type_id ← JITUnion.getTypeByName type;
  self ← get;
  let N := length orientation in
  let resized :=
    resize N JITUnion.quat_0 (JITUnion.at_type [] type_id (JITUnion.m_orientation self)) in
  let '(host, new_orientations, thrown) :=
    cast_in 0 orientation resized (JITUnion.new_array N JITUnion.quat_0 true) in
  put (JITUnion.set_m_orientation (<[type_id := host]> (JITUnion.m_orientation self)) self);;
  match thrown with
  | Some what => throw (runtime_error what)
  | None =>
      JITUnion.update_params type_id (JITUnion.set_morientation new_orientations);;
      JITUnion.set_memory_hint type_id
  end.

Definition setDiameters (type : string) (diameter : PyList JITUnion.float)
    : M JITUnion.PatchEnergyJITUnionGPU unit :=
  type_id ← JITUnion.getTypeByName type;
  self ← get;
  let N := length diameter in
  let resized :=
    resize N (S754_zero false) (JITUnion.at_type [] type_id (JITUnion.m_diameter self)) in
  let '(host, new_diameters, thrown) :=
    cast_in 0 diameter resized (JITUnion.new_array N (S754_zero false) true) in
  put (JITUnion.set_m_diameter (<[type_id := host]> (JITUnion.m_diameter self)) self);;
  match thrown with
  | Some what => throw (runtime_error what)
  | None =>
      JITUnion.update_params type_id (JITUnion.set_mdiameter new_diameters);;
      JITUnion.set_memory_hint type_id
  end.

Definition setCharges (type : string) (charge : PyList JITUnion.float)
    : M JITUnion.PatchEnergyJITUnionGPU unit :=
  type_id ← JITUnion.getTypeByName type;
  self ← get;
  let N := length charge in
  let resized :=
    resize N (S754_zero false) (JITUnion.at_type [] type_id (JITUnion.m_charge self)) in
  let '(host, new_charges, thrown) :=
    cast_in 0 charge resized (JITUnion.new_array N (S754_zero false) true) in
  put (JITUnion.set_m_charge (<[type_id := host]> (JITUnion.m_charge self)) self);;
  match thrown with
  | Some what => throw (runtime_error what)
  | None =>
      JITUnion.update_params type_id (JITUnion.set_mcharge new_charges);;
      JITUnion.set_memory_hint type_id
  end.

Inductive Call : Type :=
| CallTypeids (type : string) (typeids : PyList Z)
| CallPositions (type : string) (position : PyList JITUnion.vec3)
| CallOrientations (type : string) (orientation : PyList JITUnion.quat)
| CallDiameters (type : string) (diameter : PyList JITUnion.float)
| CallCharges (type : string) (charge : PyList JITUnion.float).

Definition perform (c : Call) : M JITUnion.PatchEnergyJITUnionGPU unit :=
  match c with
  | CallTypeids type typeids => setTypeids type typeids
  | CallPositions type position => setPositions type position
  | CallOrientations type orientation => setOrientations type orientation
  | CallDiameters type diameter => setDiameters type diameter
  | CallCharges type charge => setCharges type charge
  end.

Definition type_of (c : Call) : string :=
  match c with
  | CallTypeids type _ | CallPositions type _ | CallOrientations type _
  | CallDiameters type _ | CallCharges type _ => type
  end.

(** The values of a list whose elements all convert. *)
Fixpoint values {A} (input : PyList A) : option (list A) :=
  match input with
  | [] => Some []
  | inl _ :: _ => None
  | inr v :: rest => cons v <$> values rest
  end.

(** The call on converted values that a call whose elements all convert
    amounts to. *)
Definition converted (c : Call) : option UnionCalls.Call :=
  match c with
  | CallTypeids type typeids => UnionCalls.CallTypeids type <$> values typeids
  | CallPositions type position => UnionCalls.CallPositions type <$> values position
  | CallOrientations type orientation =>
      UnionCalls.CallOrientations type <$> values orientation
  | CallDiameters type diameter => UnionCalls.CallDiameters type <$> values diameter
  | CallCharges type charge => UnionCalls.CallCharges type <$> values charge
  end.

(** [N], the length of the list that a call hands over. *)
Definition input_length (c : Call) : nat :=
  match c with
  | CallTypeids _ typeids => length typeids
  | CallPositions _ position => length position
  | CallOrientations _ orientation => length orientation
  | CallDiameters _ diameter => length diameter
  | CallCharges _ charge => length charge
  end.

(** The size of the host vector that a call writes, for one type. *)
Definition host_length (c : Call) (type_id : nat) (o : JITUnion.PatchEnergyJITUnionGPU)
    : nat :=
  match c with
  | CallTypeids _ _ => length (JITUnion.at_type [] type_id (JITUnion.m_type o))
  | CallPositions _ _ => length (JITUnion.at_type [] type_id (JITUnion.m_position o))
  | CallOrientations _ _ => length (JITUnion.at_type [] type_id (JITUnion.m_orientation o))
  | CallDiameters _ _ => length (JITUnion.at_type [] type_id (JITUnion.m_diameter o))
  | CallCharges _ _ => length (JITUnion.at_type [] type_id (JITUnion.m_charge o))
  end.

(** The calls of a script, one after the other; a call that throws leaves
    the object as it was when the exception left the setter, and the
    script goes on. *)
Fixpoint perform_all (cs : list Call) (self : JITUnion.PatchEnergyJITUnionGPU)
    : JITUnion.PatchEnergyJITUnionGPU :=
  match cs with
  | [] => self
  | c :: cs' => perform_all cs' (final (perform c self))
  end.

End UnionPy.

(** ** Runs of computeForces *)
Module DPDRun.

(** Successive calls [computeForces(timestep)], each with what the device
    does at this step.  An exception goes to the caller, who makes the next
    call on the object as it then is.  Returns the events of all calls. *)
Fixpoint run_steps (steps : list (Z * DPD.Device)) (self : DPD.PotentialPairDPDThermoGPU)
    : list Event * DPD.PotentialPairDPDThermoGPU :=
  match steps with
  | [] => ([], self)
  | (timestep, dev) :: rest =>
      let o := DPD.computeForces timestep dev self in
      let '(evs, self') := run_steps rest (final o) in
      (events o ++ evs, self')
  end.

(** What the launches rely on: the probe index points into the candidate
    list and the locked choice is a candidate. *)
Definition tuner_sound (a : Autotuner.t) : Prop :=
  (Autotuner.probe a < length (Autotuner.candidates a))%nat /\
  In (Autotuner.locked_param a) (Autotuner.candidates a).

End DPDRun.

(** ** SystemDefinition: construction and snapshots *)
Module SysDefLife.

(** [ParticleData], as far as [SystemDefinition.cc] reads it. *)
Record ParticleData : Type := {
  getExecConf : ExecutionConfiguration
}.

(** [m_particle_data] is a shared pointer, [None] the null pointer.  The
    other [*Data] members are assigned together with it and are left out,
    as are their contents; the build is one without MPI. *)
Record SystemDefinition : Type := mk {
  m_n_dimensions : Z;
  m_particle_data : option ParticleData
}.

(** [SnapshotSystemData], the field that [SystemDefinition] keeps itself. *)
Record SnapshotSystemData : Type := {
  dimensions : Z
}.

(** [SystemDefinition::setNDimensions] with the pointer it dereferences on
    its error path.  [None]: undefined behaviour, a null [m_particle_data]
    is dereferenced to reach the messenger. *)
Definition setNDimensions (n_dimensions : Z) (self : SystemDefinition)
    : option (Outcome SystemDefinition unit) :=
  if negb ((n_dimensions =? 2) || (n_dimensions =? 3)) then
    match m_particle_data self with
    | None => None
    | Some _ =>
        Some (mkOutcome (inl (runtime_error "Error setting dimensions")) self
                        [EvMsgError "hoomd supports only 2D or 3D simulations"])
    end
  else Some (mkOutcome (inr tt) (mk n_dimensions (m_particle_data self)) []).

(** [SystemDefinition()]: the body is empty, so the pointers are null and
    [m_n_dimensions] holds whatever was in memory, [indeterminate]. *)
Definition construct_default (indeterminate : Z) : SystemDefinition :=
  mk indeterminate None.

(** [SystemDefinition(N, box, n_types, ...)]; the constructors of the
    [*Data] classes are taken to return. *)
Definition construct_N (exec_conf : ExecutionConfiguration) : SystemDefinition :=
  mk 3 (Some {| getExecConf := exec_conf |}).

(** [SystemDefinition(snapshot, exec_conf, decomposition)]: it calls
    [setNDimensions] first, on the object as the default member
    initialisation left it, and assigns [m_particle_data] after that. *)
Definition construct_snapshot (indeterminate : Z) (snapshot : SnapshotSystemData)
    (exec_conf : ExecutionConfiguration) : option (exn + SystemDefinition) :=
  match setNDimensions (dimensions snapshot) (mk indeterminate None) with
  | None => None
  | Some o =>
      match result o with
      | inl e => Some (inl e)
      | inr _ => Some (inr (mk (m_n_dimensions (final o))
                               (Some {| getExecConf := exec_conf |})))
      end
  end.

(** [takeSnapshot]: reads [m_n_dimensions], then goes through
    [m_particle_data]. *)
Definition takeSnapshot (self : SystemDefinition) : option SnapshotSystemData :=
  match m_particle_data self with
  | None => None
  | Some _ => Some {| dimensions := m_n_dimensions self |}
  end.

(** [initializeFromSnapshot]: goes through [m_particle_data], then assigns
    [m_n_dimensions]. *)
Definition initializeFromSnapshot (snapshot : SnapshotSystemData) (self : SystemDefinition)
    : option SystemDefinition :=
  match m_particle_data self with
  | None => None
  | Some pd => Some (mk (dimensions snapshot) (Some pd))
  end.

(** Successive calls [setNDimensions(n)]; an exception goes to the caller,
    who makes the next call. *)
Fixpoint setNDimensions_all (ns : list Z) (self : SystemDefinition)
    : option SystemDefinition :=
  match ns with
  | [] => Some self
  | n :: ns' =>
      match setNDimensions n self with
      | None => None
      | Some o => setNDimensions_all ns' (final o)
      end
  end.

(** The dimensionalities that [setNDimensions] accepts. *)
Definition supported (n : Z) : bool := (n =? 2) || (n =? 3).

End SysDefLife.

(** ** MOL2DumpWriter *)
Module MOL2.

Import Stdlib.Strings.Ascii.

Definition Scalar : Type := spec_float.

(** *** Text output of numbers *)

Definition digit (d : Z) : ascii := ascii_of_nat (48 + Z.to_nat d).

(** The decimal digits of [n] put before [acc]; [fuel] bounds their number. *)
Fixpoint digits (fuel : nat) (n : Z) (acc : string) : string :=
  match fuel with
  | O => acc
  | S fuel' =>
      let acc' := String (digit (n mod 10)) acc in
      if n <? 10 then acc' else digits fuel' (n / 10) acc'
  end.

(** [os << n] for an [unsigned int], which has at most 10 digits. *)
Definition show_unsigned (n : Z) : string := digits 10 n "".

(** [os << n] for an [int]. *)
Definition show_int (n : Z) : string :=
  if n <? 0 then String "-"%char (show_unsigned (- n)) else show_unsigned n.

(** Conversion of an [unsigned int] to [int]. *)
Definition to_int (n : Z) : Z := if n <? 2 ^ 31 then n else n - 2 ^ 32.

Fixpoint fill (k : nat) (c : ascii) : string :=
  match k with
  | O => ""
  | S k' => String c (fill k' c)
  end.

(** [os << setfill(c) << setw(w) << s]: padded on the left, never cut. *)
Definition setw_fill (w : nat) (c : ascii) (s : string) : string :=
  fill (w - String.length s) c +:+ s.

(** The number that a string of decimal digits denotes, after [v]. *)
Fixpoint value_from (v : Z) (s : string) : Z :=
  match s with
  | "" => v
  | String c s' => value_from (10 * v + (Z.of_nat (nat_of_ascii c) - 48)) s'
  end.

Definition is_digit (c : ascii) : bool :=
  (48 <=? Z.of_nat (nat_of_ascii c)) && (Z.of_nat (nat_of_ascii c) <=? 57).

Fixpoint all_digits (s : string) : bool :=
  match s with
  | "" => true
  | String c s' => is_digit c && all_digits s'
  end.

(** *** The data the writer reads *)

(** [ParticleDataArraysConst], the arrays that [writeFile] indexes. *)
Record ParticleDataArraysConst : Type := {
  nparticles : Z;
  rtag : list Z;
  x : list Scalar;
  y : list Scalar;
  z : list Scalar;
  type : list Z
}.

(** [ParticleData]: [arrays] is what [acquireReadOnly] hands out;
    [getNameByType] is taken to return for every type id. *)
Record ParticleData : Type := {
  getN : Z;
  arrays : ParticleDataArraysConst;
  getNameByType : Z -> string
}.

Record Bond : Type := { a : Z; b : Z }.

(** [m_base_fname], [m_pdata] and [m_sysdef->getBondData()], a shared
    pointer that may be null ([None]); no profiler is attached. *)
Record MOL2DumpWriter : Type := {
  m_base_fname : string;
  m_pdata : ParticleData;
  getBondData : option (list Bond)
}.

Definition getNumBonds (bonds : list Bond) : Z := Z.of_nat (length bonds).

(** *** The output stream *)

(** An [ofstream]: whether it is good, the lines that reached the file,
    and how many more lines the medium takes before a write fails. *)
Record ofstream : Type := mkStream {
  good : bool;
  content : list string;
  room : nat
}.

(** [f << ... << endl]; a stream that is not good ignores output. *)
Definition put_line (line : string) (f : ofstream) : ofstream :=
  if good f then
    match room f with
    | O => mkStream false (content f) O
    | S r => mkStream true (content f ++ [line]) r
    end
  else f.

(** What [writeFile] acts on: the stream as opening the file leaves it,
    and the number of [acquireReadOnly] calls not yet released. *)
Record World : Type := mkWorld {
  file : ofstream;
  held : nat
}.

(** Element [i] of a C array of the length of [l]; [None] out of range. *)
Definition at_index {A} (l : list A) (i : Z) : option A :=
  if i <? 0 then None else l !! Z.to_nat i.

(** The body of the atom loop up to the output: [None] is an access out
    of range, [inl] the type name that is too long, [inr] the line. *)
Definition atom (show_scalar : Scalar -> string) (pdata : ParticleData) (j : Z)
    : option (string + string) :=
  tag ← at_index (rtag (arrays pdata)) j;
  let i := to_int tag in
  xi ← at_index (x (arrays pdata)) i;
  yi ← at_index (y (arrays pdata)) i;
  zi ← at_index (z (arrays pdata)) i;
  type_id ← at_index (type (arrays pdata)) i;
  let type_name := getNameByType pdata type_id in
  if (15 <? Z.of_nat (String.length type_name)) then Some (inl type_name)
  else Some (inr (show_unsigned (wrap32 (j + 1)) +:+ " " +:+ type_name +:+ " "
                  +:+ show_scalar xi +:+ " " +:+ show_scalar yi +:+ " "
                  +:+ show_scalar zi +:+ " " +:+ type_name)).

(** The atom loop over the counter values [js]: [inl] when it throws,
    with the message on [cerr]. *)
Fixpoint atoms (show_scalar : Scalar -> string) (pdata : ParticleData)
    (js : list Z) (f : ofstream) : option (string * ofstream + ofstream) :=
  match js with
  | [] => Some (inr f)
  | j :: js' =>
      match atom show_scalar pdata j with
      | None => None
      | Some (inl type_name) =>
          Some (inl ("Error! Type name <" +:+ type_name
                     +:+ "> too long: please limit to 15 characters", f))
      | Some (inr line) =>
          let f' := put_line line f in
          if negb (good f')
          then Some (inl ("***Error! Unexpected error writing MOL2 dump file", f'))
          else atoms show_scalar pdata js' f'
      end
  end.

(** The values of [for (unsigned int j = 0; j < n; j++)]. *)
Definition counter (n : Z) : list Z := Z.of_nat <$> seq 0 (Z.to_nat n).

Definition bond_line (i : Z) (bond : Bond) : string :=
  show_unsigned (wrap32 (i + 1)) +:+ " " +:+ show_unsigned (wrap32 (a bond + 1))
  +:+ " " +:+ show_unsigned (wrap32 (b bond + 1)) +:+ " 1".

(** The lines after ["@<TRIPOS>BOND"]. *)
Definition bond_lines (bond_data : option (list Bond)) : list string :=
  match bond_data with
  | Some bonds =>
      if 0 <? getNumBonds bonds
      then (fun ib => bond_line (Z.of_nat (fst ib)) (snd ib)) <$> zip (seq 0 (length bonds)) bonds
      else ["1 1 2 1"]
  | None => ["1 1 2 1"]
  end.

(** [int num_bonds] of the header. *)
Definition num_bonds (bond_data : option (list Bond)) : Z :=
  match bond_data with
  | Some bonds => if 0 <? getNumBonds bonds then to_int (getNumBonds bonds) else 1
  | None => 1
  end.

Definition header (self : MOL2DumpWriter) : list string :=
  ["@<TRIPOS>MOLECULE"; "Generated by HOOMD";
   show_unsigned (getN (m_pdata self)) +:+ " " +:+ show_int (num_bonds (getBondData self));
   "NO_CHARGES"; "@<TRIPOS>ATOM"].

Definition put_lines (lines : list string) (f : ofstream) : ofstream :=
  foldl (fun f line => put_line line f) f lines.

Definition what : string := "Error writting mol2 dump file".

(** [MOL2DumpWriter::writeFile(fname)].  [None]: an array is read out of
    range. *)
Definition writeFile (show_scalar : Scalar -> string) (self : MOL2DumpWriter)
    (fname : string) (w : World) : option (Outcome World unit) :=
  let f := file w in
  if negb (good f) then
    Some (mkOutcome (inl (runtime_error what)) w
            [EvMsgError ("***Error! Unable to open dump file for writing: " +:+ fname)])
  else
    let acquired := S (held w) in
    let f := put_lines (header self) f in
    match atoms show_scalar (m_pdata self)
                (counter (nparticles (arrays (m_pdata self)))) f with
    | None => None
    | Some (inl (message, f)) =>
        Some (mkOutcome (inl (runtime_error what)) (mkWorld f acquired) [EvMsgError message])
    | Some (inr f) =>
        let f := put_line "@<TRIPOS>BOND" f in
        let f := put_lines (bond_lines (getBondData self)) f in
        if negb (good f) then
          Some (mkOutcome (inl (runtime_error what)) (mkWorld f acquired)
                  [EvMsgError "***Error! Unexpected error writing HOOMD dump file"])
        else Some (mkOutcome (inr tt) (mkWorld f (acquired - 1)) [])
    end.

(** The file name built by [analyze]. *)
Definition full_fname (base : string) (timestep : Z) : string :=
  base +:+ "." +:+ setw_fill 10 "0"%char (show_unsigned timestep) +:+ ".mol2".

(** [MOL2DumpWriter::analyze(timestep)]. *)
Definition analyze (show_scalar : Scalar -> string) (self : MOL2DumpWriter)
    (timestep : Z) (w : World) : option (Outcome World unit) :=
  writeFile show_scalar self (full_fname (m_base_fname self) timestep) w.

End MOL2.

Module MOL2Samples.

(** A stand-in for the stream's formatting of a [Scalar]. *)
Definition show_scalar (v : MOL2.Scalar) : string :=
  match v with
  | S754_zero _ => "0"
  | _ => "1"
  end.

(** Two particles, stored in the opposite order of their tags. *)
Definition two_particles (name_of_type_1 : string) : MOL2.ParticleData :=
  {| MOL2.getN := 2;
     MOL2.arrays :=
       {| MOL2.nparticles := 2; MOL2.rtag := [1; 0];
          MOL2.x := [S754_zero false; Samples.one];
          MOL2.y := [S754_zero false; S754_zero false];
          MOL2.z := [Samples.one; S754_zero false];
          MOL2.type := [0; 1] |};
     MOL2.getNameByType := fun type_id => if type_id =? 0 then "A" else name_of_type_1 |}.

Definition writer : MOL2.MOL2DumpWriter :=
  {| MOL2.m_base_fname := "dump"; MOL2.m_pdata := two_particles "B";
     MOL2.getBondData := Some [] |}.

Definition writer_long_name : MOL2.MOL2DumpWriter :=
  {| MOL2.m_base_fname := "dump"; MOL2.m_pdata := two_particles "a_very_long_type_name";
     MOL2.getBondData := Some [{| MOL2.a := 0; MOL2.b := 1 |}] |}.

(** A file just opened, on a medium that takes [room] lines. *)
Definition opened (room : nat) : MOL2.World :=
  MOL2.mkWorld (MOL2.mkStream true [] room) 0.

(** A file that could not be opened. *)
Definition not_opened : MOL2.World :=
  MOL2.mkWorld (MOL2.mkStream false [] 0) 0.

End MOL2Samples.

(** * Properties *)

(** ** SystemDefinition *)

(** C10 — [setNDimensions] reaches the messenger of its error path
    through [m_particle_data].  Called with 4 on an object whose
    [m_particle_data] is still null (a default-constructed
    [SystemDefinition], or the object under construction in the snapshot
    constructor, which calls [setNDimensions] first) it dereferences the
    null pointer and has no defined result, where the claim has it throw
    a runtime error; on an object with particle data the same call throws
    [runtime_error] and leaves the object as it was. *)
Theorem setNDimensions_null_particle_data_has_no_result
    (indeterminate : Z) (exec_conf : ExecutionConfiguration) :
  SysDefLife.setNDimensions 4 (SysDefLife.construct_default indeterminate) = None /\
  SysDefLife.construct_snapshot indeterminate {| SysDefLife.dimensions := 4 |} exec_conf
  = None /\
  SysDefLife.setNDimensions 4 (SysDefLife.construct_N exec_conf)
  = Some (mkOutcome (inl (runtime_error "Error setting dimensions"))
            (SysDefLife.construct_N exec_conf)
            [EvMsgError "hoomd supports only 2D or 3D simulations"]).
Proof.
  split; [| split].
  - reflexivity.
  - reflexivity.
  - reflexivity.
Qed.

(** ** computeForces *)

Ltac unfold_call :=
  unfold DPD.computeForces, DPD.tuner_begin, DPD.tuner_getParam, DPD.tuner_end,
         DPD.CHECK_CUDA_ERROR, DPD.decode, when, mbind, M_bind, mret, M_ret,
         bind, ret, throw, emit, get, put, modify.

Lemma begin_idle (a : Autotuner.t) :
  Autotuner.in_bracket a = false ->
  Autotuner.begin a = inr (Autotuner.set_bracket true a).
Proof. intros H. unfold Autotuner.begin. now rewrite H. Qed.

Lemma end_in_bracket (d : Z) (a : Autotuner.t) :
  Autotuner.in_bracket a = true ->
  exists a', Autotuner.end_ d a = inr a'.
Proof.
  intros H. unfold Autotuner.end_. rewrite H.
  destruct (Autotuner.enabled _); [destruct (Autotuner.state _) |]; eauto.
Qed.

Lemma in_bracket_record_sample d a :
  Autotuner.in_bracket (Autotuner.record_sample d a) = Autotuner.in_bracket a.
Proof.
  unfold Autotuner.record_sample, Autotuner.lock.
  repeat case_bool_decide; try reflexivity.
  destruct (zip _ _); reflexivity.
Qed.

Lemma in_bracket_count_step a :
  Autotuner.in_bracket (Autotuner.count_step a) = Autotuner.in_bracket a.
Proof.
  unfold Autotuner.count_step, Autotuner.rescan.
  destruct (_ <=? _); reflexivity.
Qed.

Lemma end_closes_bracket d a a' :
  Autotuner.end_ d a = inr a' -> Autotuner.in_bracket a' = false.
Proof.
  unfold Autotuner.end_.
  destruct (Autotuner.in_bracket a); [| discriminate].
  destruct (Autotuner.enabled _); [destruct (Autotuner.state _) |];
    intros [= <-];
    rewrite ?in_bracket_record_sample, ?in_bracket_count_step; reflexivity.
Qed.

(** [computeForces] as a decision tree over the neighbour-list mode, the
    manual parameter, the error-checking flag and the device. *)
Lemma computeForces_half timestep dev self :
  DPD.getStorageMode (DPD.m_nlist self) = DPD.half ->
  DPD.computeForces timestep dev self
  = mkOutcome (inl (runtime_error "Error computing forces in PotentialPairDPDThermoGPU")) self
      [EvNlistCompute timestep;
       EvMsgError "PotentialPairDPDThermoGPU cannot handle a half neighborlist"].
Proof.
  intros H. unfold_call. cbn. rewrite H. reflexivity.
Qed.

Lemma computeForces_manual timestep dev self :
  DPD.getStorageMode (DPD.m_nlist self) <> DPD.half ->
  DPD.m_param self <> 0 ->
  DPD.computeForces timestep dev self
  = DPD.after_launch dev self
      [EvNlistCompute timestep;
       EvKernelLaunch (DPD.m_param self / 10000) (DPD.m_param self mod 10000)]
      (mkOutcome (inr tt) self).
Proof.
  intros Hmode Hp%Z.eqb_neq. unfold_call. unfold DPD.after_launch.
  cbn -[Z.div Z.modulo]. rewrite (bool_decide_eq_false_2 _ Hmode), Hp.
  cbn -[Z.div Z.modulo].
  destruct (isCUDAErrorCheckingEnabled _), (DPD.launch_fails dev); reflexivity.
Qed.

Lemma computeForces_auto timestep dev self :
  DPD.getStorageMode (DPD.m_nlist self) <> DPD.half ->
  DPD.m_param self = 0 ->
  DPD.computeForces timestep dev self
  = match Autotuner.begin (DPD.m_tuner self) with
    | inl e => mkOutcome (inl e) self [EvNlistCompute timestep; EvTunerBegin]
    | inr tn =>
        DPD.after_launch dev (DPD.set_tuner tn self)
          [EvNlistCompute timestep; EvTunerBegin; EvTunerGetParam;
           EvKernelLaunch (Autotuner.getParam tn / 10000) (Autotuner.getParam tn mod 10000)]
          (fun evs =>
             match Autotuner.end_ (DPD.elapsed dev) tn with
             | inl e => mkOutcome (inl e) (DPD.set_tuner tn self) (evs ++ [EvTunerEnd])
             | inr tn' => mkOutcome (inr tt) (DPD.set_tuner tn' self) (evs ++ [EvTunerEnd])
             end)
    end.
Proof.
  intros Hmode Hp. unfold_call. unfold DPD.after_launch.
  cbn -[Z.div Z.modulo Autotuner.begin Autotuner.end_].
  rewrite (bool_decide_eq_false_2 _ Hmode), Hp.
  cbn -[Z.div Z.modulo Autotuner.begin Autotuner.end_].
  destruct (Autotuner.begin _) as [e | tn]; [reflexivity |].
  cbn -[Z.div Z.modulo Autotuner.begin Autotuner.end_].
  destruct (isCUDAErrorCheckingEnabled _), (DPD.launch_fails dev);
    cbn -[Z.div Z.modulo Autotuner.begin Autotuner.end_];
    try reflexivity;
    destruct (Autotuner.end_ _ _); reflexivity.
Qed.

(** C1 — with a half neighbour list [computeForces] throws before the
    tuner's [begin] is called and before any kernel is launched; the
    object is left as it was. *)
Theorem computeForces_half_nlist_fails_first
    (timestep : Z) (dev : DPD.Device) (self : DPD.PotentialPairDPDThermoGPU) :
  DPD.getStorageMode (DPD.m_nlist self) = DPD.half ->
  result (DPD.computeForces timestep dev self)
    = inl (runtime_error "Error computing forces in PotentialPairDPDThermoGPU") /\
  occurrences EvTunerBegin (events (DPD.computeForces timestep dev self)) = 0%nat /\
  (forall ev, In ev (events (DPD.computeForces timestep dev self)) -> DPD.is_launch ev = false) /\
  final (DPD.computeForces timestep dev self) = self.
Proof.
  intros Hhalf. rewrite (computeForces_half _ _ _ Hhalf). cbn.
  repeat split.
  intros ev [<- | [<- | []]]; reflexivity.
Qed.

Lemma computeForces_half_nlist_fails_first_witness :
  result (DPD.computeForces 0 Samples.device_ok Samples.dpd_half)
    = inl (runtime_error "Error computing forces in PotentialPairDPDThermoGPU") /\
  occurrences EvTunerBegin (events (DPD.computeForces 0 Samples.device_ok Samples.dpd_half)) = 0%nat /\
  (forall ev, In ev (events (DPD.computeForces 0 Samples.device_ok Samples.dpd_half)) ->
     DPD.is_launch ev = false) /\
  final (DPD.computeForces 0 Samples.device_ok Samples.dpd_half) = Samples.dpd_half.
Proof.
  apply (computeForces_half_nlist_fails_first 0 Samples.device_ok Samples.dpd_half).
  reflexivity.
Defined.

(** C3 (amended) — a call that passes the neighbour-list check, whose
    post-launch check, if any, finds no device error and which, when no
    manual tuning parameter is set ([m_param = 0]), finds the tuner
    outside a bracket, launches exactly one kernel.  With [m_param = 0]
    it calls [begin], then [getParam], launches with the decoded answer,
    and calls [end]: one closed bracket around the launch, and the tuner
    is outside a bracket again.  With a manual parameter set the tuner is
    not called at all and the launch uses [m_param]. *)
Theorem computeForces_brackets_one_launch
    (timestep : Z) (dev : DPD.Device) (self : DPD.PotentialPairDPDThermoGPU) :
  DPD.getStorageMode (DPD.m_nlist self) <> DPD.half ->
  isCUDAErrorCheckingEnabled (DPD.m_exec_conf self) && DPD.launch_fails dev = false ->
  (DPD.m_param self = 0 -> Autotuner.in_bracket (DPD.m_tuner self) = false ->
     result (DPD.computeForces timestep dev self) = inr tt /\
     events (DPD.computeForces timestep dev self)
       = [EvNlistCompute timestep; EvTunerBegin; EvTunerGetParam;
          EvKernelLaunch (Autotuner.getParam (DPD.m_tuner self) / 10000)
                         (Autotuner.getParam (DPD.m_tuner self) mod 10000)]
         ++ DPD.post_launch_check self ++ [EvTunerEnd] /\
     Autotuner.in_bracket (DPD.m_tuner (final (DPD.computeForces timestep dev self))) = false) /\
  (DPD.m_param self <> 0 ->
     result (DPD.computeForces timestep dev self) = inr tt /\
     events (DPD.computeForces timestep dev self)
       = [EvNlistCompute timestep;
          EvKernelLaunch (DPD.m_param self / 10000) (DPD.m_param self mod 10000)]
         ++ DPD.post_launch_check self /\
     DPD.m_tuner (final (DPD.computeForces timestep dev self)) = DPD.m_tuner self).
Proof.
  intros Hmode Hok. split.
  - intros Hp Hidle.
    rewrite (computeForces_auto _ _ _ Hmode Hp), (begin_idle _ Hidle).
    destruct (end_in_bracket (DPD.elapsed dev) (Autotuner.set_bracket true (DPD.m_tuner self))
                eq_refl) as [tn' Hend].
    pose proof (end_closes_bracket _ _ _ Hend) as Hclosed.
    unfold DPD.after_launch, DPD.post_launch_check. cbn [DPD.m_exec_conf DPD.set_tuner].
    destruct (isCUDAErrorCheckingEnabled _); cbn [andb] in Hok;
      rewrite ?Hok, Hend; cbn; auto.
  - intros Hp.
    rewrite (computeForces_manual _ _ _ Hmode Hp).
    unfold DPD.after_launch, DPD.post_launch_check.
    destruct (isCUDAErrorCheckingEnabled _); cbn [andb] in Hok;
      rewrite ?Hok; cbn -[Z.div Z.modulo]; auto.
Qed.

Lemma computeForces_brackets_one_launch_witness :
  events (DPD.computeForces 3 Samples.device_ok Samples.dpd_checked)
    = [EvNlistCompute 3; EvTunerBegin; EvTunerGetParam; EvKernelLaunch 32 1;
       EvCheckCudaError; EvTunerEnd] /\
  events (DPD.computeForces 3 Samples.device_ok Samples.dpd_manual)
    = [EvNlistCompute 3; EvKernelLaunch 32 4].
Proof.
  split.
  - apply (computeForces_brackets_one_launch 3 Samples.device_ok Samples.dpd_checked);
      [discriminate | reflexivity | reflexivity | reflexivity].
  - apply (computeForces_brackets_one_launch 3 Samples.device_ok Samples.dpd_manual);
      [discriminate | reflexivity | discriminate].
Defined.

(** C3 as stated fails: after [setTuningParam(320004)] a call with a full
    neighbour list passes the mode check and launches the kernel, yet it
    never calls [getParam], [begin] or [end]. *)
Lemma computeForces_manual_param_bypasses_tuner :
  DPD.getStorageMode (DPD.m_nlist Samples.dpd_manual) <> DPD.half /\
  result (DPD.computeForces 3 Samples.device_ok Samples.dpd_manual) = inr tt /\
  events (DPD.computeForces 3 Samples.device_ok Samples.dpd_manual)
    = [EvNlistCompute 3; EvKernelLaunch 32 4] /\
  ~ In EvTunerGetParam (events (DPD.computeForces 3 Samples.device_ok Samples.dpd_manual)) /\
  occurrences EvTunerBegin (events (DPD.computeForces 3 Samples.device_ok Samples.dpd_manual))
    = 0%nat /\
  occurrences EvTunerEnd (events (DPD.computeForces 3 Samples.device_ok Samples.dpd_manual))
    = 0%nat.
Proof.
  split; [discriminate |].
  split; [reflexivity |].
  split; [reflexivity |].
  split; [| split; reflexivity].
  intros [H | [H | []]]; discriminate H.
Qed.

(** C7 — in every call that launches the kernel, the post-launch device
    check is made exactly when error checking is enabled in the execution
    configuration; with the flag off no check is made and no call ends in
    a device execution error. *)
Theorem computeForces_error_check_gated
    (timestep : Z) (dev : DPD.Device) (self : DPD.PotentialPairDPDThermoGPU) :
  ((exists ev, In ev (events (DPD.computeForces timestep dev self)) /\ DPD.is_launch ev = true) ->
     (In EvCheckCudaError (events (DPD.computeForces timestep dev self))
      <-> isCUDAErrorCheckingEnabled (DPD.m_exec_conf self) = true)) /\
  (isCUDAErrorCheckingEnabled (DPD.m_exec_conf self) = false ->
     ~ In EvCheckCudaError (events (DPD.computeForces timestep dev self)) /\
     result (DPD.computeForces timestep dev self) <> inl DeviceExecutionError).
Proof.
  destruct (decide (DPD.getStorageMode (DPD.m_nlist self) = DPD.half)) as [Hhalf | Hmode].
  { rewrite (computeForces_half _ _ _ Hhalf). cbn. split.
    - intros (ev & Hin & Hev). exfalso.
      destruct Hin as [<- | [<- | []]]; discriminate Hev.
    - intros _. split; [intros [H | [H | []]]; discriminate H | discriminate]. }
  destruct (decide (DPD.m_param self = 0)) as [Hp | Hp].
  - rewrite (computeForces_auto _ _ _ Hmode Hp).
    unfold Autotuner.begin.
    destruct (Autotuner.in_bracket (DPD.m_tuner self)) eqn:Hb.
    { cbn. split.
      - intros (ev & Hin & Hev). exfalso.
        destruct Hin as [<- | [<- | []]]; discriminate Hev.
      - intros _. split; [intros [H | [H | []]]; discriminate H | discriminate]. }
    destruct (end_in_bracket (DPD.elapsed dev) (Autotuner.set_bracket true (DPD.m_tuner self))
                eq_refl) as [tn' Hend].
    unfold DPD.after_launch. cbn [DPD.m_exec_conf DPD.set_tuner]. rewrite Hend.
    destruct (isCUDAErrorCheckingEnabled _), (DPD.launch_fails dev);
      cbn -[Z.div Z.modulo]; (split; [intros _ | intros Hc; try discriminate Hc]);
      intuition (try discriminate; auto).
  - rewrite (computeForces_manual _ _ _ Hmode Hp).
    unfold DPD.after_launch.
    destruct (isCUDAErrorCheckingEnabled _), (DPD.launch_fails dev);
      cbn -[Z.div Z.modulo]; (split; [intros _ | intros Hc; try discriminate Hc]);
      intuition (try discriminate; auto).
Qed.

Lemma computeForces_error_check_gated_witness :
  In EvCheckCudaError (events (DPD.computeForces 3 Samples.device_ok Samples.dpd_checked)) /\
  result (DPD.computeForces 3 Samples.device_faulty Samples.dpd_full)
    <> inl DeviceExecutionError.
Proof.
  split.
  - apply (computeForces_error_check_gated 3 Samples.device_ok Samples.dpd_checked).
    + exists (EvKernelLaunch 32 1). split; [vm_compute; auto 10 | reflexivity].
    + reflexivity.
  - apply (computeForces_error_check_gated 3 Samples.device_faulty Samples.dpd_full).
    reflexivity.
Defined.

(** ** Construction of the tuners *)

Lemma construct_fields cands nsamples period nm a :
  Autotuner.construct cands nsamples period nm = inr a ->
  Autotuner.candidates a = cands /\
  Autotuner.samples_per_candidate a = nsamples /\
  Autotuner.rescan_period a = period /\
  Autotuner.enabled a = true /\
  Autotuner.state a = Autotuner.Scanning /\
  Autotuner.probe a = 0%nat /\
  Autotuner.samples a = replicate (length cands) [] /\
  Autotuner.in_bracket a = false.
Proof.
  unfold Autotuner.construct. destruct cands; [discriminate |].
  intros [= <-]. cbn. repeat split.
Qed.

Lemma DPD_construct_inv ec nl nm obj :
  DPD.construct ec nl nm = Some (inr obj) ->
  exists params,
    DPD.valid_params (warpSize ec) = Some params /\
    Autotuner.construct params 5 100000 ("pair_" +:+ nm) = inr (DPD.m_tuner obj) /\
    DPD.m_param obj = 0.
Proof.
  unfold DPD.construct.
  destruct (negb _); [discriminate |].
  destruct (DPD.valid_params _) as [params |]; [| discriminate].
  destruct (Autotuner.construct _ _ _ _) as [e | tn] eqn:E; [discriminate |].
  intros [= <-]. exists params. cbn. auto.
Qed.

Lemma JITUnion_construct_inv names ec bounds obj :
  JITUnion.construct names ec bounds = Some (inr obj) ->
  exists params,
    JITUnion.valid_params_patch (warpSize ec) bounds = Some params /\
    Autotuner.construct params 5 100000 "hpmc_narrow_patch"
      = inr (JITUnion.m_tuner_narrow_patch obj).
Proof.
  unfold JITUnion.construct.
  destruct (JITUnion.valid_params_patch _ _) as [params |]; [| discriminate].
  destruct (Autotuner.construct _ _ _ _) as [e | tn] eqn:E; [discriminate |].
  intros [= <-]. exists params. cbn. auto.
Qed.

(** C6 — the tuner of a constructed [PotentialPairDPDThermoGPU] and the
    narrow-phase tuner of a constructed [PatchEnergyJITUnionGPU] are both
    created with 5 samples per candidate and a rescan period of 100000. *)
Theorem tuners_take_5_samples_period_100000 :
  (forall ec nl nm obj,
     DPD.construct ec nl nm = Some (inr obj) ->
     Autotuner.samples_per_candidate (DPD.m_tuner obj) = 5%nat /\
     Autotuner.rescan_period (DPD.m_tuner obj) = 100000) /\
  (forall names ec bounds obj,
     JITUnion.construct names ec bounds = Some (inr obj) ->
     Autotuner.samples_per_candidate (JITUnion.m_tuner_narrow_patch obj) = 5%nat /\
     Autotuner.rescan_period (JITUnion.m_tuner_narrow_patch obj) = 100000).
Proof.
  split.
  - intros ec nl nm obj (params & _ & Htn & _)%DPD_construct_inv.
    apply construct_fields in Htn. tauto.
  - intros names ec bounds obj (params & _ & Htn)%JITUnion_construct_inv.
    apply construct_fields in Htn. tauto.
Qed.

Lemma tuners_take_5_samples_period_100000_witness :
  (exists obj,
     DPD.construct Samples.exec_conf Samples.nlist_full "DPD" = Some (inr obj) /\
     Autotuner.samples_per_candidate (DPD.m_tuner obj) = 5%nat /\
     Autotuner.rescan_period (DPD.m_tuner obj) = 100000) /\
  (exists obj,
     JITUnion.construct ["A"; "B"] Samples.exec_conf [256; 512] = Some (inr obj) /\
     Autotuner.samples_per_candidate (JITUnion.m_tuner_narrow_patch obj) = 5%nat /\
     Autotuner.rescan_period (JITUnion.m_tuner_narrow_patch obj) = 100000).
Proof.
  split.
  - destruct (DPD.construct Samples.exec_conf Samples.nlist_full "DPD")
      as [[e | obj] |] eqn:E; [vm_compute in E; discriminate E | | vm_compute in E; discriminate E].
    exists obj. split; [reflexivity |].
    exact (proj1 tuners_take_5_samples_period_100000 _ _ _ _ E).
  - destruct (JITUnion.construct ["A"; "B"] Samples.exec_conf [256; 512])
      as [[e | obj] |] eqn:E; [vm_compute in E; discriminate E | | vm_compute in E; discriminate E].
    exists obj. split; [reflexivity |].
    exact (proj2 tuners_take_5_samples_period_100000 _ _ _ _ E).
Defined.

(** ** The autotuner's scan *)

Lemma no_worse_refl a : Autotuner.no_worse a a.
Proof. right. split; [reflexivity | lia]. Qed.

Lemma no_worse_trans a b c : Autotuner.no_worse a b -> Autotuner.no_worse b c -> Autotuner.no_worse a c.
Proof.
  intros [Hab | [Hab Kab]] [Hbc | [Hbc Kbc]].
  - left. eapply Qlt_trans; eauto.
  - left. rewrite <- Hbc. exact Hab.
  - left. rewrite Hab. exact Hbc.
  - right. split; [rewrite Hab; exact Hbc | lia].
Qed.

Lemma better_true a b : Autotuner.better a b = true -> Autotuner.no_worse a b.
Proof.
  unfold Autotuner.better. intros [H | H]%orb_true_iff.
  - left. apply negb_true_iff in H.
    destruct (Qlt_le_dec (snd a) (snd b)) as [Hlt | Hle]; [exact Hlt |].
    apply Qle_bool_iff in Hle. congruence.
  - apply andb_true_iff in H as [He Hk].
    right. split; [now apply Qeq_bool_iff | lia].
Qed.

Lemma better_false a b : Autotuner.better a b = false -> Autotuner.no_worse b a.
Proof.
  unfold Autotuner.better. intros [H1 H2]%orb_false_iff.
  apply negb_false_iff, Qle_bool_iff in H1.
  destruct (Qlt_le_dec (snd b) (snd a)) as [Hlt | Hle]; [now left |].
  assert (He : (snd a == snd b)%Q) by (apply Qle_antisym; assumption).
  right. split; [symmetry; exact He |].
  apply Qeq_bool_iff in He. rewrite He in H2. cbn in H2. lia.
Qed.

Lemma arg_min_spec rest : forall first,
  In (Autotuner.arg_min first rest) (first :: rest) /\
  forall x, In x (first :: rest) -> Autotuner.no_worse (Autotuner.arg_min first rest) x.
Proof.
  induction rest as [| y rest IH]; intros first.
  - cbn. split; [auto |]. intros x [<- | []]. apply no_worse_refl.
  - change (Autotuner.arg_min first (y :: rest))
      with (Autotuner.arg_min (if Autotuner.better y first then y else first) rest).
    destruct (IH (if Autotuner.better y first then y else first)) as [Hin Hmin].
    split.
    + destruct Hin as [Hin | Hin]; [| right; right; exact Hin].
      rewrite <- Hin. destruct (Autotuner.better y first); cbn; auto.
    + intros x Hx.
      assert (Hstep : Autotuner.no_worse (if Autotuner.better y first then y else first) first /\
                      Autotuner.no_worse (if Autotuner.better y first then y else first) y).
      { destruct (Autotuner.better y first) eqn:E.
        - split; [now apply better_true | apply no_worse_refl].
        - split; [apply no_worse_refl | now apply better_false]. }
      destruct Hx as [<- | [<- | Hx]].
      * eapply no_worse_trans; [apply Hmin; left; reflexivity | apply Hstep].
      * eapply no_worse_trans; [apply Hmin; left; reflexivity | apply Hstep].
      * apply Hmin. right. exact Hx.
Qed.


Lemma alter_middle {A} (f : A -> A) (l : list A) (x : A) (r : list A) :
  alter f (length l) (l ++ x :: r) = l ++ f x :: r.
Proof. induction l as [| y l IH]; cbn; [reflexivity | now rewrite IH]. Qed.

Section Scan.

Variable base : Autotuner.t.
Hypothesis base_enabled : Autotuner.enabled base = true.
Hypothesis base_idle : Autotuner.in_bracket base = false.

Let spc := Autotuner.samples_per_candidate base.

Lemma run_app ds1 : forall ds2 a pr1 a1 pr2 a2,
  Autotuner.run ds1 a = inr (pr1, a1) ->
  Autotuner.run ds2 a1 = inr (pr2, a2) ->
  Autotuner.run (ds1 ++ ds2) a = inr (pr1 ++ pr2, a2).
Proof.
  induction ds1 as [| d ds1 IH]; intros ds2 a pr1 a1 pr2 a2 H1 H2.
  - cbn in H1. injection H1 as <- <-. exact H2.
  - cbn in H1 |- *.
    destruct (Autotuner.bracket d a) as [e | a']; [discriminate |].
    destruct (Autotuner.run ds1 a') as [e | [pr a1']] eqn:E; [discriminate |].
    injection H1 as <- <-.
    now rewrite (IH _ _ _ _ _ _ E H2).
Qed.

Lemma bracket_scanning done acc k d :
  Autotuner.bracket d (Autotuner.scanning base done acc k)
  = inr (Autotuner.record_sample d (Autotuner.scanning base done acc k)).
Proof.
  unfold Autotuner.bracket, Autotuner.begin, Autotuner.end_, Autotuner.scanning.
  destruct base; cbn in *. subst. reflexivity.
Qed.

Lemma lock_scanning_acc smp done acc k :
  Autotuner.candidates base <> [] -> smp <> [] ->
  Autotuner.lock smp (Autotuner.scanning base done acc k)
  = Autotuner.lock smp (Autotuner.scanning base done [] 0).
Proof.
  intros Hc Hs. unfold Autotuner.lock, Autotuner.scanning.
  cbn [Autotuner.candidates Autotuner.set_search].
  destruct (Autotuner.candidates base), smp; try congruence. reflexivity.
Qed.

Lemma record_sample_scanning done acc k d :
  length (Autotuner.candidates base) = (length done + 1 + k)%nat ->
  Autotuner.record_sample d (Autotuner.scanning base done acc k)
  = if bool_decide (spc <= length acc + 1)%nat then
      match k with
      | S k' => Autotuner.scanning base (done ++ [acc ++ [d]]) [] k'
      | O => Autotuner.lock (done ++ [acc ++ [d]])
                             (Autotuner.scanning base done [] 0)
      end
    else Autotuner.scanning base done (acc ++ [d]) k.
Proof.
  intros Hlen.
  unfold Autotuner.record_sample, Autotuner.scanning.
  cbn [Autotuner.probe Autotuner.samples Autotuner.set_search
       Autotuner.samples_per_candidate Autotuner.candidates
       Autotuner.locked_param Autotuner.steps_since_lock].
  rewrite alter_middle, list_lookup_middle by reflexivity.
  cbn [default]. unfold id, spc. rewrite (length_app acc [d]). cbn [length].
  destruct (bool_decide (_ <= length acc + 1)%nat); [| reflexivity].
  destruct k as [| k'].
  - rewrite bool_decide_eq_false_2 by lia.
    apply (lock_scanning_acc _ done acc 0).
    + intros Hnil. rewrite Hnil in Hlen. cbn in Hlen. lia.
    + destruct done; discriminate.
  - rewrite bool_decide_eq_true_2 by lia.
    rewrite length_app. cbn [length]. rewrite Nat.add_1_r.
    rewrite <- app_assoc. reflexivity.
Qed.

Lemma getParam_scanning done acc k :
  Autotuner.getParam (Autotuner.scanning base done acc k)
  = nth (length done) (Autotuner.candidates base) 0.
Proof. reflexivity. Qed.

Lemma lock_scanning smp done acc k first rest :
  zip (Autotuner.candidates base) (Autotuner.mean <$> smp) = first :: rest ->
  Autotuner.state (Autotuner.lock smp (Autotuner.scanning base done acc k)) = Autotuner.Locked /\
  Autotuner.getParam (Autotuner.lock smp (Autotuner.scanning base done acc k))
    = fst (Autotuner.arg_min first rest).
Proof.
  intros Hz. unfold Autotuner.lock, Autotuner.scanning.
  cbn [Autotuner.candidates Autotuner.set_search]. rewrite Hz. split; reflexivity.
Qed.

(** Filling the candidate under probe. *)
Lemma fill_candidate done k :
  length (Autotuner.candidates base) = (length done + 1 + k)%nat ->
  forall ds acc,
    ds <> [] -> (length acc + length ds)%nat = spc ->
    Autotuner.run ds (Autotuner.scanning base done acc k)
    = inr (replicate (length ds) (nth (length done) (Autotuner.candidates base) 0),
           match k with
           | S k' => Autotuner.scanning base (done ++ [acc ++ ds]) [] k'
           | O => Autotuner.lock (done ++ [acc ++ ds]) (Autotuner.scanning base done [] 0)
           end).
Proof.
  intros Hlen. induction ds as [| d ds IH]; intros acc Hne Hfull; [congruence |].
  cbn [Autotuner.run]. rewrite bracket_scanning, getParam_scanning.
  rewrite (record_sample_scanning _ _ _ _ Hlen).
  cbn [length] in Hfull. destruct ds as [| d' ds].
  - rewrite bool_decide_eq_true_2 by (unfold spc in Hfull; cbn in Hfull; lia).
    cbn [Autotuner.run replicate length]. destruct k; reflexivity.
  - rewrite bool_decide_eq_false_2 by (unfold spc in Hfull; cbn in Hfull; lia).
    rewrite (IH (acc ++ [d])); [| discriminate | rewrite length_app; cbn in *; lia].
    rewrite <- app_assoc. reflexivity.
Qed.

(** Probing the remaining candidates, one chunk of durations each, ends
    in a lock over all the samples. *)
Lemma scan_rest chunks : forall done,
  chunks <> [] ->
  Forall (fun c => length c = spc) chunks ->
  (0 < spc)%nat ->
  length (Autotuner.candidates base) = (length done + length chunks)%nat ->
  exists a first rest,
    Autotuner.run (concat chunks) (Autotuner.scanning base done [] (length chunks - 1))
      = inr (concat (replicate spc <$> drop (length done) (Autotuner.candidates base)), a) /\
    zip (Autotuner.candidates base) (Autotuner.mean <$> (done ++ chunks)) = first :: rest /\
    Autotuner.state a = Autotuner.Locked /\
    Autotuner.getParam a = fst (Autotuner.arg_min first rest).
Proof.
  induction chunks as [| c chunks IH]; intros done Hne Hall Hpos Hlen; [congruence |].
  apply Forall_cons in Hall as [Hc Hall]. cbn [length] in Hlen.
  assert (Hc0 : c <> []) by (intros ->; cbn in Hc; lia).
  destruct (lookup_lt_is_Some_2 (Autotuner.candidates base) (length done)) as [c0 Hc0'];
    [lia |].
  rewrite (drop_S _ _ _ Hc0'). cbn [fmap list_fmap concat].
  assert (Hnth : nth (length done) (Autotuner.candidates base) 0 = c0).
  { rewrite nth_lookup, Hc0'. reflexivity. }
  destruct chunks as [| c' chunks]; cbn [length] in Hlen.
  - cbn [concat length Nat.sub]. rewrite app_nil_r.
    destruct (zip (Autotuner.candidates base) (Autotuner.mean <$> (done ++ [c])))
      as [| first rest] eqn:Hz.
    { exfalso. apply (f_equal length) in Hz.
      rewrite length_zip_with, length_fmap, length_app in Hz. cbn in Hz, Hlen. lia. }
    destruct (lock_scanning (done ++ [c]) done [] 0 first rest Hz) as [Hst Hpar].
    eexists _, first, rest.
    rewrite (fill_candidate done 0 ltac:(cbn in Hlen |- *; lia) c [] Hc0 Hc).
    rewrite Hnth, Hc, drop_ge by lia. cbn [fmap list_fmap concat]. rewrite app_nil_r.
    cbn [app]. split; [reflexivity |]. split; [reflexivity |]. split; assumption.
  - destruct (IH (done ++ [c])) as (a & first & rest & Hrun & Hz & Hst & Hpar);
      [discriminate | assumption | assumption | rewrite length_app; cbn in *; lia |].
    exists a, first, rest.
    rewrite <- app_assoc in Hz. cbn [app] in Hz.
    split; [| split; [exact Hz | split; assumption]].
    cbn [concat].
    eapply run_app.
    + cbn [length Nat.sub]. rewrite ?Nat.sub_0_r.
      rewrite (fill_candidate done (S (length chunks)) ltac:(cbn in Hlen |- *; lia) c [] Hc0 Hc).
      rewrite Hnth, Hc. cbn [app]. reflexivity.
    + rewrite length_app in Hrun. cbn [length Nat.sub] in Hrun.
      rewrite ?Nat.sub_0_r, Nat.add_1_r in Hrun. exact Hrun.
Qed.

End Scan.

Lemma chunks_of_scan nsamples n : forall ds,
  length ds = (n * nsamples)%nat ->
  concat (Autotuner.chunk nsamples ds <$> seq 0 n) = ds /\
  Forall (fun c => length c = nsamples) (Autotuner.chunk nsamples ds <$> seq 0 n).
Proof.
  induction n as [| n IH]; intros ds Hlen.
  - destruct ds; [split; [reflexivity | constructor] | discriminate].
  - cbn [seq fmap list_fmap concat]. rewrite <- fmap_S_seq, <- list_fmap_compose.
    assert (Hshift : (Autotuner.chunk nsamples ds ∘ S <$> seq 0 n)
                     = (Autotuner.chunk nsamples (drop nsamples ds) <$> seq 0 n)).
    { apply list_fmap_ext. intros _ j _. unfold Autotuner.chunk, compose.
      rewrite drop_drop. reflexivity. }
    rewrite Hshift.
    destruct (IH (drop nsamples ds)) as [Hcat Hall].
    { rewrite length_drop. cbn in Hlen. lia. }
    split.
    + rewrite Hcat. unfold Autotuner.chunk. cbn [Nat.mul]. rewrite drop_0. apply take_drop.
    + constructor; [| exact Hall].
      unfold Autotuner.chunk. cbn [Nat.mul]. rewrite drop_0, length_take. cbn in Hlen. lia.
Qed.

(** C4 — a tuner built over a non-empty candidate list, after exactly
    [nsamples * |candidates|] timed launches ([nsamples] positive), has
    probed every candidate [nsamples] times in list order, is [Locked],
    and [getParam] answers a candidate whose mean recorded duration is
    minimal, the smaller key winning a tie.  With candidates 10, 20, 30,
    two samples each and durations 5,5,3,3,9,9 the probes are
    10,10,20,20,30,30, the means are 5, 3 and 9, and the answer after the
    sixth launch is 20. *)
Theorem scan_locks_on_min_mean :
  (forall cands nsamples period nm durations,
     cands <> [] -> (0 < nsamples)%nat ->
     length durations = (nsamples * length cands)%nat ->
     exists a0 a,
       Autotuner.construct cands nsamples period nm = inr a0 /\
       Autotuner.run durations a0 = inr (concat (replicate nsamples <$> cands), a) /\
       Autotuner.state a = Autotuner.Locked /\
       exists i,
         cands !! i = Some (Autotuner.getParam a) /\
         forall j c, cands !! j = Some c ->
           (Autotuner.mean (Autotuner.chunk nsamples durations i)
            <= Autotuner.mean (Autotuner.chunk nsamples durations j))%Q /\
           ((Autotuner.mean (Autotuner.chunk nsamples durations i)
             == Autotuner.mean (Autotuner.chunk nsamples durations j))%Q ->
            Autotuner.getParam a <= c)) /\
  (forall period nm,
     exists a0 a,
       Autotuner.construct [10; 20; 30] 2 period nm = inr a0 /\
       Autotuner.run [5; 5; 3; 3; 9; 9] a0 = inr ([10; 10; 20; 20; 30; 30], a) /\
       Autotuner.state a = Autotuner.Locked /\
       Autotuner.getParam a = 20 /\
       Qeq (Autotuner.mean (Autotuner.chunk 2 [5; 5; 3; 3; 9; 9] 0)) (inject_Z 5) /\
       Qeq (Autotuner.mean (Autotuner.chunk 2 [5; 5; 3; 3; 9; 9] 1)) (inject_Z 3) /\
       Qeq (Autotuner.mean (Autotuner.chunk 2 [5; 5; 3; 3; 9; 9] 2)) (inject_Z 9)).
Proof.
  split.
  - intros cands nsamples period nm durations Hne Hpos Hlen.
    destruct (Autotuner.construct cands nsamples period nm) as [e | a0] eqn:Hc.
    { destruct cands; [congruence | discriminate Hc]. }
    destruct (construct_fields _ _ _ _ _ Hc)
      as (Hcands & Hspc & _ & Hen & _ & _ & _ & Hidle).
    assert (Ha0 : a0 = Autotuner.scanning a0 [] [] (length cands - 1)).
    { unfold Autotuner.construct in Hc. destruct cands as [| c cands]; [congruence |].
      injection Hc as <-. cbn. rewrite Nat.sub_0_r. reflexivity. }
    rewrite Nat.mul_comm in Hlen.
    destruct (chunks_of_scan nsamples (length cands) durations Hlen) as [Hcat Hall].
    set (chunks := Autotuner.chunk nsamples durations <$> seq 0 (length cands)) in *.
    assert (Hnchunks : length chunks = length cands).
    { unfold chunks. now rewrite length_fmap, length_seq. }
    destruct (scan_rest a0 Hen Hidle chunks []) as (a & first & rest & Hrun & Hz & Hst & Hpar).
    + intros Hnil. rewrite Hnil in Hnchunks. destruct cands; [congruence | discriminate].
    + rewrite Hspc. exact Hall.
    + rewrite Hspc. exact Hpos.
    + rewrite Hcands, Hnchunks. reflexivity.
    + rewrite Hcat, Hnchunks, <- Ha0, Hcands, Hspc in Hrun. cbn [length drop app] in Hrun, Hz.
      rewrite Hcands in Hz.
      exists a0, a. split; [reflexivity |]. split; [exact Hrun |]. split; [exact Hst |].
      destruct (arg_min_spec rest first) as [Hin Hmin]. rewrite <- Hz in Hin, Hmin.
      apply list_elem_of_In, list_elem_of_lookup in Hin as [i Hi].
      apply lookup_zip_with_Some in Hi as (c & m & Hbest & Hci & Hmi).
      rewrite list_lookup_fmap in Hmi. unfold chunks in Hmi.
      rewrite list_lookup_fmap in Hmi.
      assert (Hi : (i < length cands)%nat) by (eapply lookup_lt_Some; eauto).
      rewrite lookup_seq_lt in Hmi by exact Hi. cbn in Hmi. injection Hmi as Hmi.
      exists i. rewrite Hpar, Hbest. cbn [fst]. split; [exact Hci |].
      intros j c' Hj.
      assert (Hjlt : (j < length cands)%nat) by (eapply lookup_lt_Some; eauto).
      assert (Hin' : In (c', Autotuner.mean (Autotuner.chunk nsamples durations j))
                        (zip cands (Autotuner.mean <$> chunks))).
      { apply list_elem_of_In, list_elem_of_lookup. exists j.
        apply lookup_zip_with_Some. eexists _, _. split; [reflexivity |]. split; [exact Hj |].
        unfold chunks. rewrite !list_lookup_fmap, lookup_seq_lt by exact Hjlt. reflexivity. }
      specialize (Hmin _ Hin'). rewrite Hbest in Hmin.
      unfold Autotuner.no_worse in Hmin. cbn [fst snd] in Hmin. rewrite <- Hmi in Hmin.
      destruct Hmin as [Hlt | [Heq Hle]].
      * split; [now apply Qlt_le_weak |].
        intros Heq. rewrite Heq in Hlt. now apply Qlt_irrefl in Hlt.
      * split; [rewrite Heq; apply Qle_refl | intros _; exact Hle].
  - intros period nm. eexists _, _.
    split; [reflexivity |]. split; [vm_compute; reflexivity |].
    split; [reflexivity |]. split; [reflexivity |].
    split; [| split]; reflexivity.
Qed.

Lemma scan_locks_on_min_mean_witness :
  exists a0 a,
    Autotuner.construct [320001; 320002; 640001] 2 100000 "pair_dpd" = inr a0 /\
    Autotuner.run [4; 6; 5; 5; 9; 2] a0
      = inr (concat (replicate 2 <$> [320001; 320002; 640001]), a) /\
    Autotuner.state a = Autotuner.Locked /\
    exists i,
      [320001; 320002; 640001] !! i = Some (Autotuner.getParam a) /\
      forall j c, [320001; 320002; 640001] !! j = Some c ->
        Qle (Autotuner.mean (Autotuner.chunk 2 [4; 6; 5; 5; 9; 2] i))
            (Autotuner.mean (Autotuner.chunk 2 [4; 6; 5; 5; 9; 2] j)) /\
        (Qeq (Autotuner.mean (Autotuner.chunk 2 [4; 6; 5; 5; 9; 2] i))
             (Autotuner.mean (Autotuner.chunk 2 [4; 6; 5; 5; 9; 2] j)) ->
         Autotuner.getParam a <= c).
Proof.
  apply (proj1 scan_locks_on_min_mean [320001; 320002; 640001] 2%nat 100000 "pair_dpd"
           [4; 6; 5; 5; 9; 2]).
  - discriminate.
  - lia.
  - reflexivity.
Defined.

(** ** Loops and the candidate domains *)

Lemma for_loop_visits {A} cond step (body : Z -> A -> option A) x xs :
  visits cond step x xs ->
  forall fuel acc, (length xs <= fuel)%nat ->
    for_loop fuel cond step body x acc = for_each body xs acc.
Proof.
  induction 1 as [x Hc | x xs Hc _ IH]; intros fuel acc Hfuel.
  - destruct fuel; cbn; rewrite Hc; reflexivity.
  - destruct fuel as [| fuel]; [cbn in Hfuel; lia |].
    cbn. rewrite Hc. destruct (body x acc); [| reflexivity].
    apply IH. cbn in Hfuel. lia.
Qed.

Lemma for_each_collect {A B} (body : B -> list A -> option (list A)) (f : B -> list A) l :
  (forall y, In y l -> forall acc, body y acc = Some (acc ++ f y)) ->
  forall acc, for_each body l acc = Some (acc ++ concat (f <$> l)).
Proof.
  induction l as [| y l IH]; intros Hbody acc; cbn.
  - now rewrite app_nil_r.
  - rewrite (Hbody y (or_introl eq_refl)).
    rewrite IH by (intros; apply Hbody; now right).
    now rewrite <- app_assoc.
Qed.

Lemma in_concat_fmap {A B} (f : B -> list A) (l : list B) (a : A) :
  In a (concat (f <$> l)) <-> exists y, In y l /\ In a (f y).
Proof.
  rewrite in_concat. split.
  - intros (ys & Hys & Ha). apply list_elem_of_In, list_elem_of_fmap in Hys as (y & -> & Hy).
    exists y. split; [now apply list_elem_of_In | exact Ha].
  - intros (y & Hy & Ha). exists (f y). split; [| exact Ha].
    apply list_elem_of_In, list_elem_of_fmap. exists y. split; [reflexivity |].
    now apply list_elem_of_In.
Qed.

Lemma wrap32_small z : 0 <= z < 2 ^ 32 -> wrap32 z = z.
Proof. intros H. unfold wrap32, UINT_MOD. now apply Z.mod_small. Qed.

(** The counter of [for (x = 1; x <= limit; x *= 2)]. *)
Lemma doubling_visits limit : forall (m e : nat),
  (e + m <= 31)%nat ->
  (m = 0%nat -> limit < 2 ^ Z.of_nat e) ->
  (m <> 0%nat -> 2 ^ Z.of_nat (e + m - 1) <= limit < 2 ^ Z.of_nat (e + m)) ->
  visits (fun x => x <=? limit) (fun x => wrap32 (x * 2)) (2 ^ Z.of_nat e)
         ((fun i => 2 ^ Z.of_nat i) <$> seq e m).
Proof.
  induction m as [| m IH]; intros e Hem H0 HS.
  - apply visits_stop. apply Z.leb_gt. auto.
  - cbn [seq fmap list_fmap].
    assert (Hle : 2 ^ Z.of_nat e <= limit).
    { destruct HS as [HS _]; [discriminate |].
      eapply Z.le_trans; [| exact HS]. apply Z.pow_le_mono_r; lia. }
    apply visits_step; [now apply Z.leb_le |].
    assert (Hnext : wrap32 (2 ^ Z.of_nat e * 2) = 2 ^ Z.of_nat (S e)).
    { rewrite Nat2Z.inj_succ, Z.pow_succ_r by lia. rewrite Z.mul_comm.
      apply wrap32_small. split; [apply Z.mul_nonneg_nonneg; [lia | apply Z.pow_nonneg; lia] |].
      change (2 ^ 32) with (2 * 2 ^ 31). apply Z.mul_lt_mono_pos_l; [lia |].
      apply Z.pow_lt_mono_r; lia. }
    rewrite Hnext. apply IH.
    + lia.
    + intros ->. destruct HS as [_ HS]; [discriminate |].
      replace (e + 1)%nat with (S e) in HS by lia. exact HS.
    + intros Hm. destruct HS as [HS1 HS2]; [discriminate |].
      replace (S e + m - 1)%nat with (e + S m - 1)%nat by lia.
      replace (S e + m)%nat with (e + S m)%nat by lia. auto.
Qed.

Lemma doubling_loop limit :
  limit < 2 ^ 31 ->
  visits (fun x => x <=? limit) (fun x => wrap32 (x * 2)) 1 (pow2_upto limit).
Proof.
  intros Hlim. unfold pow2_upto, pow2_count.
  apply (doubling_visits limit _ 0%nat).
  - destruct (Z.ltb_spec limit 1) as [H | H]; [lia |].
    assert (Z.log2 limit < 31) by (apply Z.log2_lt_pow2; lia).
    pose proof (Z.log2_nonneg limit). lia.
  - destruct (Z.ltb_spec limit 1) as [H | H]; [cbn; lia | discriminate].
  - destruct (Z.ltb_spec limit 1) as [H | H]; [congruence |]. intros _.
    replace (Z.of_nat (0 + S (Z.to_nat (Z.log2 limit)) - 1)) with (Z.log2 limit)
      by (pose proof (Z.log2_nonneg limit); lia).
    replace (Z.of_nat (0 + S (Z.to_nat (Z.log2 limit)))) with (Z.succ (Z.log2 limit))
      by (pose proof (Z.log2_nonneg limit); lia).
    apply Z.log2_spec. lia.
Qed.

Lemma in_pow2_upto limit x :
  In x (pow2_upto limit) <-> is_pow2 x /\ x <= limit.
Proof.
  unfold pow2_upto, pow2_count, is_pow2.
  rewrite <- list_elem_of_In, list_elem_of_fmap. setoid_rewrite elem_of_seq.
  split.
  - intros (i & -> & _ & Hi). split; [eauto |].
    destruct (Z.ltb_spec limit 1) as [H | H]; [cbn in Hi; lia |].
    eapply Z.le_trans; [| apply Z.log2_spec; lia].
    apply Z.pow_le_mono_r; [lia |]. pose proof (Z.log2_nonneg limit). lia.
  - intros [[e ->] Hle]. exists e. split; [reflexivity |]. split; [lia |].
    assert (0 < 2 ^ Z.of_nat e) by (apply Z.pow_pos_nonneg; lia).
    destruct (Z.ltb_spec limit 1) as [H' | H']; [lia |].
    assert (Z.of_nat e <= Z.log2 limit) by (apply Z.log2_le_pow2; lia).
    lia.
Qed.

Lemma in_getTppListPow2 warp s :
  In s (DPD.getTppListPow2 warp) <-> is_pow2 s /\ s <= warp /\ s < 2 ^ 32.
Proof.
  unfold DPD.getTppListPow2, is_pow2.
  rewrite <- list_elem_of_In, list_elem_of_filter, list_elem_of_fmap.
  setoid_rewrite elem_of_seq. split.
  - intros (Hle & e & -> & _ & He). split; [eauto |]. split; [exact Hle |].
    apply Z.pow_lt_mono_r; lia.
  - intros ([e ->] & Hle & Hlt). split; [exact Hle |]. exists e. split; [reflexivity |].
    split; [lia |]. apply Z.pow_lt_mono_r_iff in Hlt; lia.
Qed.

(** The counter of [for (x = stride; x <= 1024; x += stride)]. *)
Lemma stride_visits stride limit :
  0 < stride -> limit + stride < 2 ^ 32 -> forall (m k : nat),
  (1 <= k)%nat ->
  (m = 0%nat -> limit < Z.of_nat k * stride) ->
  (m <> 0%nat ->
     Z.of_nat (k + m - 1) * stride <= limit < Z.of_nat (k + m) * stride) ->
  visits (fun x => x <=? limit) (fun x => wrap32 (x + stride)) (Z.of_nat k * stride)
         ((fun i => Z.of_nat i * stride) <$> seq k m).
Proof.
  intros Hs Hfit. induction m as [| m IH]; intros k Hk H0 HS.
  - apply visits_stop. apply Z.leb_gt. auto.
  - cbn [seq fmap list_fmap].
    destruct HS as [HS1 HS2]; [discriminate |].
    assert (Hle : Z.of_nat k * stride <= limit) by nia.
    apply visits_step; [now apply Z.leb_le |].
    assert (Hnext : wrap32 (Z.of_nat k * stride + stride) = Z.of_nat (S k) * stride).
    { rewrite wrap32_small by nia. lia. }
    rewrite Hnext. apply IH.
    + lia.
    + intros ->. replace (k + 1)%nat with (S k) in HS2 by lia. exact HS2.
    + intros Hm.
      replace (S k + m - 1)%nat with (k + S m - 1)%nat by lia.
      replace (S k + m)%nat with (k + S m)%nat by lia. auto.
Qed.

Lemma stride_loop stride limit :
  0 < stride -> 0 <= limit -> limit + stride < 2 ^ 32 ->
  visits (fun x => x <=? limit) (fun x => wrap32 (x + stride)) stride
         (multiples_upto stride limit).
Proof.
  intros Hs Hl Hfit. unfold multiples_upto.
  pose proof (Z.div_pos limit stride Hl Hs) as Hq.
  pose proof (Z.mul_div_le limit stride Hs) as Hlo.
  pose proof (Z.mul_succ_div_gt limit stride Hs) as Hhi.
  pose proof (stride_visits stride limit Hs Hfit (Z.to_nat (limit / stride)) 1) as Hv.
  replace (Z.of_nat 1 * stride) with stride in Hv by lia.
  apply Hv.
  - lia.
  - intros Hm. assert (limit / stride = 0) by lia. nia.
  - intros Hm.
    replace (Z.of_nat (1 + Z.to_nat (limit / stride) - 1)) with (limit / stride) by lia.
    replace (Z.of_nat (1 + Z.to_nat (limit / stride))) with (Z.succ (limit / stride)) by lia.
    nia.
Qed.

Lemma in_multiples_upto stride limit x :
  0 < stride -> 0 <= limit ->
  In x (multiples_upto stride limit) <-> 0 < x <= limit /\ (stride | x).
Proof.
  intros Hs Hl. unfold multiples_upto.
  rewrite <- list_elem_of_In, list_elem_of_fmap. setoid_rewrite elem_of_seq.
  pose proof (Z.div_pos limit stride Hl Hs) as Hq.
  pose proof (Z.mul_div_le limit stride Hs) as Hlo.
  split.
  - intros (i & -> & Hi1 & Hi2). split; [nia |]. now exists (Z.of_nat i).
  - intros ([Hx1 Hx2] & q & ->). exists (Z.to_nat q).
    assert (0 < q) by nia.
    assert (q <= limit / stride) by (apply Z.div_le_lower_bound; lia).
    split; [lia |]. lia.
Qed.

Lemma concat_singletons {A B} (g : B -> A) (l : list B) :
  concat ((fun y => [g y]) <$> l) = g <$> l.
Proof. induction l as [| y l IH]; cbn; [reflexivity | now rewrite IH]. Qed.

(** The vector filled by the constructor of [PotentialPairDPDThermoGPU]. *)
Lemma DPD_valid_params warp :
  0 < warp ->
  DPD.valid_params warp
  = Some (concat ((fun block_size => DPD.encode block_size <$> DPD.getTppListPow2 warp)
                    <$> multiples_upto warp 1024)).
Proof.
  intros Hw. unfold DPD.valid_params.
  assert (Hv : visits (fun x => x <=? 1024) (fun x => wrap32 (x + warp)) warp
                      (multiples_upto warp 1024)).
  { destruct (Z_le_gt_dec warp 1024) as [Hle | Hgt].
    - apply stride_loop; lia.
    - unfold multiples_upto. rewrite Z.div_small by lia. cbn.
      apply visits_stop. apply Z.leb_gt. lia. }
  rewrite (for_loop_visits _ _ _ _ _ Hv).
  - rewrite (for_each_collect _
      (fun block_size => DPD.encode block_size <$> DPD.getTppListPow2 warp)); [reflexivity |].
    intros block_size _ acc.
    rewrite (for_each_collect _ (fun s => [DPD.encode block_size s])) by reflexivity.
    now rewrite concat_singletons.
  - unfold multiples_upto. rewrite length_fmap, length_seq.
    assert (1024 / warp <= 1024) by (apply Z.div_le_upper_bound; nia).
    lia.
Qed.

Lemma DPD_encode_exact block_size s :
  0 <= block_size <= 1024 -> 0 <= s < 10000 ->
  DPD.encode block_size s = block_size * 10000 + s.
Proof.
  intros Hb Hs. unfold DPD.encode.
  rewrite (wrap32_small (block_size * 10000)) by lia.
  apply wrap32_small. lia.
Qed.

Lemma is_pow2_pos n : is_pow2 n -> 0 < n.
Proof. intros [e ->]. apply Z.pow_pos_nonneg; lia. Qed.

Lemma in_DPD_valid_params warp params key :
  0 < warp ->
  DPD.valid_params warp = Some params ->
  In key params <->
  exists block_size tpp,
    key = block_size * 10000 + tpp /\
    0 < block_size <= 1024 /\ (warp | block_size) /\
    is_pow2 tpp /\ tpp <= warp.
Proof.
  intros Hw Hp. rewrite (DPD_valid_params warp Hw) in Hp. injection Hp as <-.
  rewrite in_concat_fmap. split.
  - intros (bs & Hbs & Hk).
    apply in_multiples_upto in Hbs as [Hbs Hdiv]; [| lia | lia].
    apply list_elem_of_In, list_elem_of_fmap in Hk as (s & -> & Hs).
    apply list_elem_of_In, in_getTppListPow2 in Hs as (Hpow & Hle & _).
    assert (warp <= bs) by (apply Z.divide_pos_le; [lia | exact Hdiv]).
    pose proof (is_pow2_pos _ Hpow).
    exists bs, s. rewrite DPD_encode_exact by lia. auto.
  - intros (bs & s & -> & Hbs & Hdiv & Hpow & Hle).
    assert (warp <= bs) by (apply Z.divide_pos_le; [lia | exact Hdiv]).
    pose proof (is_pow2_pos _ Hpow).
    exists bs. split; [apply in_multiples_upto; auto; lia |].
    apply list_elem_of_In, list_elem_of_fmap. exists s.
    split; [symmetry; apply DPD_encode_exact; lia |].
    apply list_elem_of_In, in_getTppListPow2. repeat split; [assumption | assumption | lia].
Qed.

(** The keys pushed for one launch bound and one group size. *)
Lemma JIT_eval_loop bound group_size warp acc :
  warp <= 1024 -> 0 < group_size <= 1024 ->
  for_loop 32 (fun eval_threads => eval_threads <=? warp)
    (fun eval_threads => wrap32 (eval_threads * 2))
    (fun eval_threads acc =>
       let divisor := wrap32 (group_size * eval_threads) in
       if divisor =? 0 then None
       else if bound mod divisor =? 0
            then Some (acc ++ [JITUnion.encode bound group_size eval_threads])
            else Some acc)
    1 acc
  = Some (acc ++ concat ((fun eval_threads =>
                            if bound mod (group_size * eval_threads) =? 0
                            then [JITUnion.encode bound group_size eval_threads] else [])
                         <$> pow2_upto warp)).
Proof.
  intros Hw Hg.
  rewrite (for_loop_visits _ _ _ _ _ (doubling_loop warp ltac:(lia))).
  - apply for_each_collect. intros et Het acc'.
    apply in_pow2_upto in Het as [Hpow Hle]. pose proof (is_pow2_pos _ Hpow).
    cbn zeta. rewrite wrap32_small by nia.
    destruct (Z.eqb_spec (group_size * et) 0) as [E | _]; [nia |].
    destruct (_ =? 0); [reflexivity | now rewrite app_nil_r].
  - unfold pow2_upto, pow2_count. rewrite length_fmap, length_seq.
    destruct (Z.ltb_spec warp 1); [lia |].
    assert (Z.log2 warp < 31) by (apply Z.log2_lt_pow2; lia). lia.
Qed.

Lemma JIT_group_loop bound warp acc :
  warp <= 1024 -> bound <= 1024 ->
  for_loop 32 (fun group_size => group_size <=? bound)
    (fun group_size => wrap32 (group_size * 2))
    (fun group_size acc =>
       for_loop 32 (fun eval_threads => eval_threads <=? warp)
         (fun eval_threads => wrap32 (eval_threads * 2))
         (fun eval_threads acc =>
            let divisor := wrap32 (group_size * eval_threads) in
            if divisor =? 0 then None
            else if bound mod divisor =? 0
                 then Some (acc ++ [JITUnion.encode bound group_size eval_threads])
                 else Some acc)
         1 acc)
    1 acc
  = Some (acc ++ concat ((fun group_size =>
             concat ((fun eval_threads =>
                        if bound mod (group_size * eval_threads) =? 0
                        then [JITUnion.encode bound group_size eval_threads] else [])
                     <$> pow2_upto warp))
           <$> pow2_upto bound)).
Proof.
  intros Hw Hb.
  rewrite (for_loop_visits _ _ _ _ _ (doubling_loop bound ltac:(lia))).
  - apply for_each_collect. intros gs Hgs acc'.
    apply in_pow2_upto in Hgs as [Hpow Hle]. pose proof (is_pow2_pos _ Hpow).
    apply JIT_eval_loop; lia.
  - unfold pow2_upto, pow2_count. rewrite length_fmap, length_seq.
    destruct (Z.ltb_spec bound 1); [lia |].
    assert (Z.log2 bound < 31) by (apply Z.log2_lt_pow2; lia). lia.
Qed.

(** The vector filled by the constructor of [PatchEnergyJITUnionGPU]. *)
Lemma JIT_valid_params_patch warp bounds :
  warp <= 1024 -> Forall (fun b => 0 < b <= 1024) bounds ->
  JITUnion.valid_params_patch warp bounds
  = Some (concat ((fun bound =>
            concat ((fun group_size =>
               concat ((fun eval_threads =>
                          if bound mod (group_size * eval_threads) =? 0
                          then [JITUnion.encode bound group_size eval_threads] else [])
                       <$> pow2_upto warp))
             <$> pow2_upto bound))
          <$> bounds)).
Proof.
  intros Hw Hb. unfold JITUnion.valid_params_patch. cbn zeta.
  rewrite (for_each_collect _ (fun bound =>
            concat ((fun group_size =>
               concat ((fun eval_threads =>
                          if bound mod (group_size * eval_threads) =? 0
                          then [JITUnion.encode bound group_size eval_threads] else [])
                       <$> pow2_upto warp))
             <$> pow2_upto bound))); [reflexivity |].
  intros b Hin acc. rewrite Forall_forall in Hb.
  apply list_elem_of_In in Hin. specialize (Hb b Hin).
  apply JIT_group_loop; lia.
Qed.

Lemma JIT_encode_exact bound group_size eval_threads :
  0 <= bound <= 1024 -> 0 <= group_size <= 1024 -> 0 <= eval_threads <= 1024 ->
  JITUnion.encode bound group_size eval_threads
  = bound * 1000000 + group_size * 100 + eval_threads.
Proof.
  intros Hb Hg He. unfold JITUnion.encode.
  rewrite (wrap32_small (bound * 1000000)), (wrap32_small (group_size * 100)) by lia.
  rewrite (wrap32_small (bound * 1000000 + group_size * 100)) by lia.
  apply wrap32_small. lia.
Qed.

Lemma in_JIT_valid_params_patch warp bounds params key :
  warp <= 1024 -> Forall (fun b => 0 < b <= 1024) bounds ->
  JITUnion.valid_params_patch warp bounds = Some params ->
  In key params <->
  exists bound group_size eval_threads,
    key = bound * 1000000 + group_size * 100 + eval_threads /\
    In bound bounds /\
    is_pow2 group_size /\ is_pow2 eval_threads /\ eval_threads <= warp /\
    (group_size * eval_threads | bound).
Proof.
  intros Hw Hb Hp. rewrite (JIT_valid_params_patch warp bounds Hw Hb) in Hp.
  injection Hp as <-. rewrite Forall_forall in Hb.
  rewrite in_concat_fmap. split.
  - intros (b & Hin & Hk). pose proof (Hb b (proj2 (list_elem_of_In _ _) Hin)) as Hbr.
    apply in_concat_fmap in Hk as (gs & Hgs & Hk).
    apply in_concat_fmap in Hk as (et & Het & Hk).
    apply in_pow2_upto in Hgs as [Hgp Hgle], Het as [Hep Hele].
    pose proof (is_pow2_pos _ Hgp). pose proof (is_pow2_pos _ Hep).
    destruct (Z.eqb_spec (b mod (gs * et)) 0) as [Hmod | _]; [| destruct Hk].
    destruct Hk as [<- | []].
    exists b, gs, et. rewrite JIT_encode_exact by lia.
    repeat split; try assumption.
    apply Z.mod_divide; [nia | exact Hmod].
  - intros (b & gs & et & -> & Hin & Hgp & Hep & Hele & Hdiv).
    pose proof (Hb b (proj2 (list_elem_of_In _ _) Hin)) as Hbr.
    pose proof (is_pow2_pos _ Hgp). pose proof (is_pow2_pos _ Hep).
    assert (Hprod : gs * et <= b) by (apply Z.divide_pos_le; [lia | exact Hdiv]).
    assert (gs <= b) by nia.
    exists b. split; [exact Hin |].
    apply in_concat_fmap. exists gs. split; [apply in_pow2_upto; auto |].
    apply in_concat_fmap. exists et. split; [apply in_pow2_upto; auto |].
    apply Z.mod_divide in Hdiv; [| nia]. rewrite Hdiv. cbn.
    left. apply JIT_encode_exact; lia.
Qed.

Lemma construct_nonempty cands nsamples period nm :
  cands <> [] -> exists a, Autotuner.construct cands nsamples period nm = inr a.
Proof. destruct cands; [congruence | intros _; cbn; eauto]. Qed.

(** C5 (amended) — the candidate domain of each tuner is the vector built
    by the constructor, and it is handed to the tuner there.  For a
    positive warp size the keys of the DPD pair tuner are exactly the
    numbers [block_size * 10000 + tpp] with [block_size] a positive
    multiple of the warp size not above 1024 and [tpp] a power of two not
    above the warp size.  For a warp size of at most 1024 and launch
    bounds between 1 and 1024 the keys of the narrow-phase tuner are
    exactly the numbers [bounds * 1000000 + group_size * 100 +
    eval_threads] with [bounds] a reported launch bound, [group_size] and
    [eval_threads] powers of two, [eval_threads] not above the warp size
    and [group_size * eval_threads] dividing [bounds]. *)
Theorem candidate_domains_enumerated_at_construction :
  (forall ec,
     0 < warpSize ec ->
     exists params,
       DPD.valid_params (warpSize ec) = Some params /\
       (forall nl nm obj,
          DPD.construct ec nl nm = Some (inr obj) ->
          Autotuner.candidates (DPD.m_tuner obj) = params) /\
       (isCUDAEnabled ec = true -> warpSize ec <= 1024 ->
        forall nl nm, exists obj, DPD.construct ec nl nm = Some (inr obj)) /\
       (forall key,
          In key params <->
          exists block_size tpp,
            key = block_size * 10000 + tpp /\
            0 < block_size <= 1024 /\ (warpSize ec | block_size) /\
            is_pow2 tpp /\ tpp <= warpSize ec)) /\
  (forall ec bounds,
     warpSize ec <= 1024 -> Forall (fun b => 0 < b <= 1024) bounds ->
     exists params,
       JITUnion.valid_params_patch (warpSize ec) bounds = Some params /\
       (forall names obj,
          JITUnion.construct names ec bounds = Some (inr obj) ->
          Autotuner.candidates (JITUnion.m_tuner_narrow_patch obj) = params) /\
       (0 < warpSize ec -> bounds <> [] ->
        forall names, exists obj, JITUnion.construct names ec bounds = Some (inr obj)) /\
       (forall key,
          In key params <->
          exists bound group_size eval_threads,
            key = bound * 1000000 + group_size * 100 + eval_threads /\
            In bound bounds /\
            is_pow2 group_size /\ is_pow2 eval_threads /\ eval_threads <= warpSize ec /\
            (group_size * eval_threads | bound))).
Proof.
  split.
  - intros ec Hw. eexists. split; [apply (DPD_valid_params _ Hw) |].
    pose proof (in_DPD_valid_params _ _ (warpSize ec * 10000 + 1) Hw (DPD_valid_params _ Hw))
      as Hkey.
    split; [| split].
    + intros nl nm obj (params & Hp & Htn & _)%DPD_construct_inv.
      rewrite (DPD_valid_params _ Hw) in Hp. injection Hp as <-.
      apply construct_fields in Htn. tauto.
    + intros Hcuda Hle nl nm. unfold DPD.construct.
      rewrite Hcuda, (DPD_valid_params _ Hw). cbn [negb].
      edestruct (construct_nonempty) as [a ->]; [| eauto].
      intros Hnil. rewrite Hnil in Hkey. apply Hkey.
      exists (warpSize ec), 1. repeat split; try lia.
      * exists 1. lia.
      * now exists 0%nat.
    + intros key. apply in_DPD_valid_params; [exact Hw | apply DPD_valid_params, Hw].
  - intros ec bounds Hw Hb. eexists.
    split; [apply (JIT_valid_params_patch _ _ Hw Hb) |].
    split; [| split].
    + intros names obj (params & Hp & Htn)%JITUnion_construct_inv.
      rewrite (JIT_valid_params_patch _ _ Hw Hb) in Hp. injection Hp as <-.
      apply construct_fields in Htn. tauto.
    + intros Hpos Hne names. unfold JITUnion.construct.
      rewrite (JIT_valid_params_patch _ _ Hw Hb).
      edestruct (construct_nonempty) as [a ->]; [| eauto].
      destruct bounds as [| b bounds]; [congruence |].
      pose proof (in_JIT_valid_params_patch _ _ _ (b * 1000000 + 1 * 100 + 1) Hw Hb
                    (JIT_valid_params_patch _ _ Hw Hb)) as Hkey.
      intros Hnil. rewrite Hnil in Hkey. apply Hkey.
      exists b, 1, 1. repeat split; try lia.
      * now left.
      * now exists 0%nat.
      * now exists 0%nat.
      * exists b. lia.
    + intros key. apply in_JIT_valid_params_patch; [exact Hw | exact Hb |].
      apply JIT_valid_params_patch; assumption.
Qed.

Lemma candidate_domains_enumerated_at_construction_witness :
  (exists params,
     DPD.valid_params 32 = Some params /\ In (64 * 10000 + 8) params) /\
  (exists params,
     JITUnion.valid_params_patch 32 [256; 512] = Some params /\
     In (512 * 1000000 + 16 * 100 + 4) params).
Proof.
  split.
  - destruct (proj1 candidate_domains_enumerated_at_construction Samples.exec_conf)
      as (params & Hp & _ & _ & Hin); [reflexivity |].
    exists params. split; [exact Hp |].
    apply Hin. exists 64, 8.
    split; [reflexivity |]. split; [lia |]. split; [exists 2; reflexivity |].
    split; [now exists 3%nat | cbn; lia].
  - destruct (proj2 candidate_domains_enumerated_at_construction Samples.exec_conf [256; 512])
      as (params & Hp & _ & _ & Hin).
    + cbn. lia.
    + repeat constructor; lia.
    + exists params. split; [exact Hp |].
      apply Hin. exists 512, 16, 4.
      split; [reflexivity |]. split; [right; left; reflexivity |].
      split; [now exists 4%nat |]. split; [now exists 2%nat |].
      split; [cbn; lia | exists 8; reflexivity].
Defined.

(** C5 as stated fails for the DPD pair tuner: on a device with 32-wide
    warps, block size 32 with the power of two 64 as threads per particle
    meets the description, yet the key 320064 is not in the domain. *)
Lemma dpd_domain_omits_tpp_above_warp :
  exists params,
    DPD.valid_params 32 = Some params /\
    0 < 32 <= 1024 /\ (32 | 32) /\ is_pow2 64 /\
    ~ In (32 * 10000 + 64) params.
Proof.
  eexists. split; [apply DPD_valid_params; lia |].
  split; [lia |]. split; [now exists 1 |]. split; [now exists 6%nat |].
  intros Hin.
  apply (in_DPD_valid_params 32) in Hin; [| lia | apply DPD_valid_params; lia].
  destruct Hin as (bs & tpp & Hk & Hbs & _ & Hpow & Hle).
  apply is_pow2_pos in Hpow. lia.
Qed.

(** C9 — on a device whose warp size is positive and below 10000, the
    split done by [computeForces] inverts the key encoding of the
    constructor: for every block size up to 1024 and every [tpp] up to the
    warp size, the key [block_size * 10000 + tpp] splits into
    [key / 10000 = block_size] and [key % 10000 = tpp]; and every key the
    constructor pushes is such a key, for a positive multiple of the warp
    size and a power of two not above the warp size. *)
Theorem decode_inverts_encode (warp : Z) :
  0 < warp < 10000 ->
  (forall block_size tpp,
     0 <= block_size <= 1024 -> 0 <= tpp <= warp ->
     DPD.encode block_size tpp = block_size * 10000 + tpp /\
     DPD.decode (DPD.encode block_size tpp) = (block_size, tpp)) /\
  exists params,
    DPD.valid_params warp = Some params /\
    forall key, In key params ->
      exists block_size tpp,
        key = DPD.encode block_size tpp /\
        0 < block_size <= 1024 /\ (warp | block_size) /\
        is_pow2 tpp /\ tpp <= warp /\
        DPD.decode key = (block_size, tpp).
Proof.
  intros [Hw Hlt].
  assert (Hinv : forall block_size tpp,
             0 <= block_size <= 1024 -> 0 <= tpp <= warp ->
             DPD.encode block_size tpp = block_size * 10000 + tpp /\
             DPD.decode (DPD.encode block_size tpp) = (block_size, tpp)).
  { intros bs tpp Hbs Htpp. rewrite DPD_encode_exact by lia. split; [reflexivity |].
    unfold DPD.decode. f_equal.
    - symmetry. apply (Z.div_unique _ _ bs tpp); lia.
    - symmetry. apply (Z.mod_unique _ _ bs tpp); lia. }
  split; [exact Hinv |].
  eexists. split; [apply DPD_valid_params, Hw |].
  intros key Hin.
  apply (in_DPD_valid_params warp) in Hin; [| exact Hw | apply DPD_valid_params, Hw].
  destruct Hin as (bs & tpp & -> & Hbs & Hdiv & Hpow & Hle).
  pose proof (is_pow2_pos _ Hpow).
  destruct (Hinv bs tpp ltac:(lia) ltac:(lia)) as [Henc Hdec].
  exists bs, tpp. rewrite <- Henc. repeat split; try assumption; lia.
Qed.

Lemma decode_inverts_encode_witness :
  DPD.decode (DPD.encode 64 8) = (64, 8) /\
  exists params,
    DPD.valid_params 32 = Some params /\
    forall key, In key params ->
      exists block_size tpp,
        key = DPD.encode block_size tpp /\
        0 < block_size <= 1024 /\ (32 | block_size) /\
        is_pow2 tpp /\ tpp <= 32 /\
        DPD.decode key = (block_size, tpp).
Proof.
  destruct (decode_inverts_encode 32 ltac:(lia)) as [Hinv Hkeys].
  split; [| exact Hkeys].
  apply (Hinv 64 8); lia.
Defined.

(** ** Composite-body setters *)

Lemma insert_middle {A} (l : list A) (x e : A) (r : list A) :
  <[length l := e]> (l ++ x :: r) = l ++ e :: r.
Proof. rewrite insert_app_r_alt by lia. now rewrite Nat.sub_diag. Qed.

Lemma copy_in_app {A} (input : list A) : forall pre hsuf dsuf mng rm,
  length hsuf = length input -> length dsuf = length input ->
  JITUnion.copy_in (length pre) input (pre ++ hsuf) (JITUnion.mk_array (pre ++ dsuf) mng rm)
  = (pre ++ input, JITUnion.mk_array (pre ++ input) mng rm).
Proof.
  induction input as [| e input IH]; intros pre hsuf dsuf mng rm Hh Hd.
  - destruct hsuf, dsuf; try discriminate. reflexivity.
  - destruct hsuf as [| h hsuf], dsuf as [| d dsuf]; try discriminate.
    cbn [JITUnion.copy_in]. unfold JITUnion.array_set.
    cbn [JITUnion.data JITUnion.managed JITUnion.read_mostly].
    rewrite !insert_middle.
    replace (S (length pre)) with (length (pre ++ [e])) by (rewrite length_app; cbn; lia).
    replace (pre ++ e :: hsuf) with ((pre ++ [e]) ++ hsuf) by now rewrite <- app_assoc.
    replace (pre ++ e :: dsuf) with ((pre ++ [e]) ++ dsuf) by now rewrite <- app_assoc.
    rewrite IH by (cbn in *; lia).
    now rewrite <- !app_assoc.
Qed.

(** The setters' loop leaves the input in the host vector and in the new
    managed array. *)
Lemma copy_in_all {A} (input old : list A) (d : A) :
  JITUnion.copy_in 0 input (resize (length input) d old)
    (JITUnion.new_array (length input) d true)
  = (input, JITUnion.mk_array input true false).
Proof.
  apply (copy_in_app input [] (resize (length input) d old) (replicate (length input) d)).
  - apply length_resize.
  - apply length_replicate.
Qed.

Lemma index_of_lt nm names : forall i,
  JITUnion.index_of nm names = Some i -> (i < length names)%nat.
Proof.
  induction names as [| n names IH]; intros i H; [discriminate |].
  cbn in H. destruct (String.eqb nm n).
  - injection H as <-. cbn. lia.
  - destruct (JITUnion.index_of nm names) as [j |]; [| discriminate].
    injection H as <-. cbn. specialize (IH j eq_refl). lia.
Qed.

Ltac unfold_setter :=
  unfold JITUnion.setTypeids, JITUnion.setPositions, JITUnion.setOrientations,
         JITUnion.setDiameters, JITUnion.setCharges, JITUnion.buildOBBTree,
         JITUnion.base_buildOBBTree, JITUnion.set_memory_hint, JITUnion.update_params,
         JITUnion.getTypeByName, mbind, M_bind, mret, M_ret, bind, ret, throw, emit,
         get, put, modify.

Section Setters.

Variable self : JITUnion.PatchEnergyJITUnionGPU.
Variable type : string.
Variable type_id : nat.
Hypothesis self_wf : JITUnion.well_formed self.
Hypothesis type_known : JITUnion.index_of type (JITUnion.type_names self) = Some type_id.

Lemma block_exists : exists blk, JITUnion.m_d_union_params self !! type_id = Some blk.
Proof.
  apply lookup_lt_is_Some_2. pose proof (index_of_lt _ _ _ type_known).
  unfold JITUnion.well_formed in self_wf. cbn zeta in self_wf. lia.
Qed.

Lemma type_id_in_range :
  (type_id < length (JITUnion.m_type self))%nat /\
  (type_id < length (JITUnion.m_position self))%nat /\
  (type_id < length (JITUnion.m_orientation self))%nat /\
  (type_id < length (JITUnion.m_diameter self))%nat /\
  (type_id < length (JITUnion.m_charge self))%nat /\
  (type_id < length (JITUnion.m_tree self))%nat.
Proof.
  pose proof (index_of_lt _ _ _ type_known).
  unfold JITUnion.well_formed in self_wf. cbn zeta in self_wf.
  repeat split; lia.
Qed.

Ltac run_setter :=
  unfold_setter; rewrite type_known, copy_in_all; cbn.

Ltac count_events :=
  unfold occurrences; cbn; repeat case_decide; try congruence; try reflexivity.

Ltac stored_tac Hblk :=
  unfold JITUnion.stored_and_hinted; run_setter;
  split; [reflexivity |];
  split; [count_events |];
  split; [apply list_lookup_insert_eq; apply type_id_in_range |];
  rewrite !list_lookup_alter_eq, Hblk; cbn;
  eexists; split; reflexivity.

Lemma setTypeids_stored typeids :
  JITUnion.stored_and_hinted JITUnion.m_type JITUnion.mtype type_id typeids
    (JITUnion.setTypeids type typeids self).
Proof. destruct block_exists as [blk Hblk]. stored_tac Hblk. Qed.

Lemma setPositions_stored position :
  JITUnion.stored_and_hinted JITUnion.m_position JITUnion.mpos type_id position
    (JITUnion.setPositions type position self).
Proof. destruct block_exists as [blk Hblk]. stored_tac Hblk. Qed.

Lemma setOrientations_stored orientation :
  JITUnion.stored_and_hinted JITUnion.m_orientation JITUnion.morientation type_id
    orientation (JITUnion.setOrientations type orientation self).
Proof. destruct block_exists as [blk Hblk]. stored_tac Hblk. Qed.

Lemma setDiameters_stored diameter :
  JITUnion.stored_and_hinted JITUnion.m_diameter JITUnion.mdiameter type_id diameter
    (JITUnion.setDiameters type diameter self).
Proof. destruct block_exists as [blk Hblk]. stored_tac Hblk. Qed.

Lemma setCharges_stored charge :
  JITUnion.stored_and_hinted JITUnion.m_charge JITUnion.mcharge type_id charge
    (JITUnion.setCharges type charge self).
Proof. destruct block_exists as [blk Hblk]. stored_tac Hblk. Qed.







End Setters.

(** C8 — for a known type name, each of [setTypeids], [setPositions],
    [setOrientations], [setDiameters] and [setCharges] returns with the
    matching field of the type's parameter block replaced by a managed
    array that holds exactly the input and carries the read-mostly advice:
    the block field is replaced wholesale and the residency hint is given,
    once, after the write.  The host vector holds the input as well. *)
Theorem setters_store_field_then_hint
    (self : JITUnion.PatchEnergyJITUnionGPU) (type : string) (type_id : nat) :
  JITUnion.well_formed self ->
  JITUnion.index_of type (JITUnion.type_names self) = Some type_id ->
  (forall typeids,
     JITUnion.stored_and_hinted JITUnion.m_type JITUnion.mtype type_id typeids
       (JITUnion.setTypeids type typeids self)) /\
  (forall position,
     JITUnion.stored_and_hinted JITUnion.m_position JITUnion.mpos type_id position
       (JITUnion.setPositions type position self)) /\
  (forall orientation,
     JITUnion.stored_and_hinted JITUnion.m_orientation JITUnion.morientation type_id
       orientation (JITUnion.setOrientations type orientation self)) /\
  (forall diameter,
     JITUnion.stored_and_hinted JITUnion.m_diameter JITUnion.mdiameter type_id diameter
       (JITUnion.setDiameters type diameter self)) /\
  (forall charge,
     JITUnion.stored_and_hinted JITUnion.m_charge JITUnion.mcharge type_id charge
       (JITUnion.setCharges type charge self)).
Proof.
  intros Hwf Htype.
  split; [intros typeids; now apply setTypeids_stored |].
  split; [intros position; now apply setPositions_stored |].
  split; [intros orientation; now apply setOrientations_stored |].
  split; [intros diameter; now apply setDiameters_stored |].
  intros charge; now apply setCharges_stored.
Qed.

Lemma setters_store_field_then_hint_witness :
  JITUnion.stored_and_hinted JITUnion.m_charge JITUnion.mcharge 1
    [Samples.one; Samples.two]
    (JITUnion.setCharges "B" [Samples.one; Samples.two] Samples.union_placed).
Proof.
  apply (setters_store_field_then_hint Samples.union_placed "B" 1).
  - repeat split.
  - reflexivity.
Defined.




(** * Further properties *)

(** ** Scripts of setter calls *)

Ltac step_setter :=
  cbn -[JITUnion.index_of JITUnion.copy_in JITUnion.new_array resize length].

Ltac run_known_setter Hknown :=
  unfold_setter; step_setter; rewrite ?Hknown; step_setter; rewrite !copy_in_all; cbn.

Ltac run_unknown_setter Hunknown :=
  unfold_setter; rewrite Hunknown; cbn.

Lemma perform_unknown_type c self :
  JITUnion.index_of (UnionCalls.type_of c) (JITUnion.type_names self) = None ->
  UnionCalls.perform c self = mkOutcome (inl ConfigurationError) self [].
Proof.
  intros Hnone. destruct c; cbn in Hnone |- *; run_unknown_setter Hnone; reflexivity.
Qed.

Lemma perform_keeps_shape c self :
  JITUnion.well_formed self ->
  JITUnion.well_formed (final (UnionCalls.perform c self)) /\
  JITUnion.type_names (final (UnionCalls.perform c self)) = JITUnion.type_names self /\
  JITUnion.m_tuner_narrow_patch (final (UnionCalls.perform c self))
    = JITUnion.m_tuner_narrow_patch self /\
  JITUnion.m_managed_memory (final (UnionCalls.perform c self))
    = JITUnion.m_managed_memory self.
Proof.
  intros Hwf.
  destruct (JITUnion.index_of (UnionCalls.type_of c) (JITUnion.type_names self))
    as [id |] eqn:Hk.
  - destruct self as [names ty pos ori dia cha tr par tn mm].
    unfold JITUnion.well_formed in *. cbn in Hwf, Hk.
    destruct c; cbn in Hk |- *; run_known_setter Hk;
      rewrite ?length_alter, ?length_insert; tauto.
  - rewrite (perform_unknown_type _ _ Hk). cbn. tauto.
Qed.

Lemma at_type_insert_eq {A} (d x : A) (i : nat) (v : list A) :
  (i < length v)%nat -> JITUnion.at_type d i (<[i:=x]> v) = x.
Proof. intros H. unfold JITUnion.at_type. now rewrite list_lookup_insert_eq. Qed.

Lemma at_type_insert_ne {A} (d x : A) (i j : nat) (v : list A) :
  i <> j -> JITUnion.at_type d j (<[i:=x]> v) = JITUnion.at_type d j v.
Proof. intros H. unfold JITUnion.at_type. now rewrite list_lookup_insert_ne. Qed.

(** A call for a known type leaves every other type as it was. *)
Lemma perform_other_type c self id other :
  JITUnion.index_of (UnionCalls.type_of c) (JITUnion.type_names self) = Some id ->
  other <> id ->
  UnionCalls.per_type other (final (UnionCalls.perform c self))
  = UnionCalls.per_type other self.
Proof.
  intros Hk Hne.
  destruct self as [names ty pos ori dia cha tr par tn mm]. cbn in Hk.
  unfold UnionCalls.per_type, JITUnion.constituents.
  destruct c; cbn in Hk |- *; run_known_setter Hk;
    rewrite ?at_type_insert_ne, ?list_lookup_alter_ne, ?list_lookup_insert_ne by congruence;
    reflexivity.
Qed.

Lemma mirrored_per_type id o1 o2 :
  UnionCalls.per_type id o1 = UnionCalls.per_type id o2 ->
  UnionCalls.mirrored id o1 -> UnionCalls.mirrored id o2.
Proof.
  unfold UnionCalls.mirrored.
  intros H (blk & t & Hblk & Htree & Hrec & Hbuilt).
  pose proof (f_equal (fun p => fst (fst p)) H) as Hc.
  pose proof (f_equal (fun p => snd (fst p)) H) as Ht.
  pose proof (f_equal snd H) as Hp.
  cbn in Hc, Ht, Hp.
  exists blk, t. rewrite <- Hc, <- Ht, <- Hp. auto.
Qed.

Lemma perform_same_type_mirrored c self id :
  JITUnion.well_formed self ->
  JITUnion.index_of (UnionCalls.type_of c) (JITUnion.type_names self) = Some id ->
  UnionCalls.mirrored id self ->
  UnionCalls.mirrored id (final (UnionCalls.perform c self)).
Proof.
  intros Hwf Hk (blk & t & Hblk & Htree & Hrec & Hbuilt).
  pose proof (index_of_lt _ _ _ Hk) as Hlt.
  destruct self as [names ty pos ori dia cha tr par tn mm].
  unfold JITUnion.well_formed in Hwf. cbn in Hwf, Hk, Hblk, Htree, Hlt.
  unfold UnionCalls.block_records, JITUnion.constituents in Hrec. cbn in Hrec.
  injection Hrec as Hty Hpos Hori Hdia Hcha.
  unfold UnionCalls.mirrored, UnionCalls.block_records, JITUnion.constituents.
  destruct c; cbn in Hk |- *; run_known_setter Hk;
    unfold JITUnion.constituents, JITUnion.at_type; cbn;
    rewrite !list_lookup_alter_eq, Hblk, ?list_lookup_insert_eq by lia; cbn;
    eexists _, _; (split; [reflexivity |]); (split; [first [reflexivity | eassumption] |]);
    unfold JITUnion.at_type in *; cbn;
    rewrite ?list_lookup_alter_eq, ?Hblk, ?list_lookup_insert_eq by lia; cbn;
    (split; [congruence | first [reflexivity | assumption]]).
Qed.

Lemma construct_shape names ec bounds obj :
  JITUnion.construct names ec bounds = Some (inr obj) ->
  JITUnion.well_formed obj /\
  JITUnion.type_names obj = names /\
  forall id, (id < length names)%nat ->
    UnionCalls.mirrored id obj /\
    JITUnion.constituents id obj = JITUnion.no_constituents.
Proof.
  unfold JITUnion.construct.
  destruct (JITUnion.valid_params_patch _ _) as [params |]; [| discriminate].
  destruct (Autotuner.construct _ _ _ _) as [e | tn]; [discriminate |].
  intros [= <-]. split; [| split; [reflexivity |]].
  - unfold JITUnion.well_formed. cbn. rewrite !length_replicate. tauto.
  - intros id Hid.
    unfold UnionCalls.mirrored, UnionCalls.block_records, JITUnion.constituents,
      JITUnion.at_type.
    cbn. rewrite !lookup_replicate_2 by exact Hid. cbn.
    split; [| reflexivity].
    eexists _, _. repeat split.
Qed.

(** *** Lists that Python hands over *)

Lemma values_inr {A} (input : UnionPy.PyList A) : forall vs,
  UnionPy.values input = Some vs -> input = inr <$> vs.
Proof.
  induction input as [| [what | v] input IH]; intros vs Hv; cbn in Hv.
  - injection Hv as <-. reflexivity.
  - discriminate Hv.
  - destruct (UnionPy.values input) as [vs' |]; [| discriminate Hv].
    injection Hv as <-. cbn. f_equal. now apply IH.
Qed.

Lemma cast_in_values {A} (vs : list A) : forall i host fresh,
  UnionPy.cast_in i (inr <$> vs) host fresh = (JITUnion.copy_in i vs host fresh, None).
Proof.
  induction vs as [| v vs IH]; intros i host fresh; [reflexivity |].
  cbn [fmap list_fmap UnionPy.cast_in JITUnion.copy_in]. apply IH.
Qed.

Lemma cast_in_thrown {A} (input : UnionPy.PyList A) : forall i host fresh,
  UnionPy.values input = None ->
  exists h f what,
    UnionPy.cast_in i input host fresh = (h, f, Some what) /\ length h = length host.
Proof.
  induction input as [| [what | v] input IH]; intros i host fresh Hv; cbn in Hv.
  - discriminate Hv.
  - exists host, fresh, what. split; reflexivity.
  - destruct (UnionPy.values input) as [vs' |] eqn:E; [discriminate Hv |].
    destruct (IH (S i) (<[i:=v]> host) (JITUnion.array_set i v fresh) eq_refl)
      as (h & f & what & Hc & Hl).
    exists h, f, what. split; [exact Hc |]. now rewrite Hl, length_insert.
Qed.

Ltac unfold_py_setter :=
  unfold UnionPy.setTypeids, UnionPy.setPositions, UnionPy.setOrientations,
         UnionPy.setDiameters, UnionPy.setCharges;
  unfold_setter.

(** A call whose elements all convert is the call on the converted values. *)
Lemma perform_converted c c' self :
  UnionPy.converted c = Some c' ->
  UnionPy.perform c self = UnionCalls.perform c' self.
Proof.
  intros H.
  destruct c; cbn [UnionPy.converted] in H;
    (match type of H with
     | context [UnionPy.values ?l] => destruct (UnionPy.values l) as [vs |] eqn:Hv
     end; [| discriminate H]);
    cbn in H; injection H as <-; apply values_inr in Hv; subst;
    cbn [UnionPy.perform UnionCalls.perform];
    unfold_py_setter;
    (destruct (JITUnion.index_of _ _); [| reflexivity]);
    step_setter; rewrite length_fmap, cast_in_values;
    destruct (JITUnion.copy_in _ _ _ _); reflexivity.
Qed.

Ltac step_py_setter :=
  cbn -[JITUnion.index_of JITUnion.copy_in UnionPy.cast_in JITUnion.new_array resize length].

Lemma perform_py_unknown_type c self :
  JITUnion.index_of (UnionPy.type_of c) (JITUnion.type_names self) = None ->
  UnionPy.perform c self = mkOutcome (inl ConfigurationError) self [].
Proof.
  intros Hnone. destruct c; cbn in Hnone |- *; unfold_py_setter; rewrite Hnone; reflexivity.
Qed.

(** A call for a known type with an element that does not convert: the
    cast's exception leaves the setter after the host vector of the type
    was resized and written; nothing else has happened. *)
Lemma perform_cast_failure c self id :
  UnionPy.converted c = None ->
  JITUnion.index_of (UnionPy.type_of c) (JITUnion.type_names self) = Some id ->
  exists what,
    result (UnionPy.perform c self) = inl (runtime_error what) /\
    events (UnionPy.perform c self) = [] /\
    JITUnion.m_d_union_params (final (UnionPy.perform c self))
      = JITUnion.m_d_union_params self /\
    JITUnion.m_tree (final (UnionPy.perform c self)) = JITUnion.m_tree self /\
    JITUnion.type_names (final (UnionPy.perform c self)) = JITUnion.type_names self /\
    JITUnion.m_tuner_narrow_patch (final (UnionPy.perform c self))
      = JITUnion.m_tuner_narrow_patch self /\
    (JITUnion.well_formed self -> JITUnion.well_formed (final (UnionPy.perform c self))) /\
    (forall other, other <> id ->
       JITUnion.constituents other (final (UnionPy.perform c self))
       = JITUnion.constituents other self) /\
    (JITUnion.well_formed self ->
     UnionPy.host_length c id (final (UnionPy.perform c self)) = UnionPy.input_length c).
Proof.
  intros H Hk. pose proof (index_of_lt _ _ _ Hk) as Hlt.
  destruct self as [names ty pos ori dia cha tr par tn mm]. cbn in Hk, Hlt.
  destruct c; cbn [UnionPy.converted] in H; cbn [UnionPy.type_of] in Hk;
    (match type of H with
     | context [UnionPy.values ?l] => destruct (UnionPy.values l) as [vs |] eqn:Hv
     end; [discriminate H |]);
    cbn [UnionPy.perform]; unfold_py_setter; step_py_setter; rewrite Hk; step_py_setter;
    match goal with
    | |- context [UnionPy.cast_in ?i ?l ?h ?f] =>
        destruct (cast_in_thrown l i h f Hv) as (h' & f' & what & Hc & Hl); rewrite Hc
    end;
    exists what; cbn;
    (split; [reflexivity |]); (split; [reflexivity |]); (split; [reflexivity |]);
    (split; [reflexivity |]); (split; [reflexivity |]); (split; [reflexivity |]);
    (split; [unfold JITUnion.well_formed; cbn; rewrite ?length_insert; tauto |]);
    (split;
     [ intros other Hne; unfold JITUnion.constituents; cbn;
       rewrite ?at_type_insert_ne by congruence; reflexivity
     | unfold JITUnion.well_formed; cbn; intros Hwf;
       rewrite at_type_insert_eq by lia; rewrite Hl; apply length_resize ]).
Qed.

Lemma perform_py_keeps_shape c self :
  JITUnion.well_formed self ->
  JITUnion.well_formed (final (UnionPy.perform c self)) /\
  JITUnion.type_names (final (UnionPy.perform c self)) = JITUnion.type_names self /\
  JITUnion.m_tuner_narrow_patch (final (UnionPy.perform c self))
    = JITUnion.m_tuner_narrow_patch self.
Proof.
  intros Hwf.
  destruct (UnionPy.converted c) as [c' |] eqn:Hconv.
  - rewrite (perform_converted _ _ _ Hconv).
    destruct (perform_keeps_shape c' self Hwf) as (H1 & H2 & H3 & _). auto.
  - destruct (JITUnion.index_of (UnionPy.type_of c) (JITUnion.type_names self))
      as [id |] eqn:Hk.
    + destruct (perform_cast_failure c self id Hconv Hk)
        as (what & _ & _ & _ & _ & Hnames & Htn & Hwf' & _ & _). auto.
    + rewrite (perform_py_unknown_type _ _ Hk). cbn. auto.
Qed.

Lemma converted_type_of c c' :
  UnionPy.converted c = Some c' -> UnionCalls.type_of c' = UnionPy.type_of c.
Proof.
  destruct c; cbn;
    (match goal with
     | |- context [UnionPy.values ?l] => destruct (UnionPy.values l)
     end; [| discriminate]);
    intros [= <-]; reflexivity.
Qed.

(** X1 — an object that left the constructor stays in shape under any
    script of setter calls as Python makes them, whether a call returns,
    fails on the type name or fails in a cast: every per-type vector
    keeps one entry per particle type, and the type registry and the
    tuner are not touched.  If moreover every list element of the script
    converts (calls may still name unknown types), then for every type the
    parameter block holds the same constituent records as the host
    vectors and a tree built over the same records as the host tree. *)
Theorem setter_scripts_keep_host_and_block_in_step
    (names : list string) (ec : ExecutionConfiguration) (bounds : list Z)
    (obj : JITUnion.PatchEnergyJITUnionGPU) (cs : list UnionPy.Call) :
  JITUnion.construct names ec bounds = Some (inr obj) ->
  JITUnion.well_formed (UnionPy.perform_all cs obj) /\
  JITUnion.type_names (UnionPy.perform_all cs obj) = names /\
  JITUnion.m_tuner_narrow_patch (UnionPy.perform_all cs obj)
    = JITUnion.m_tuner_narrow_patch obj /\
  (Forall (fun c => is_Some (UnionPy.converted c)) cs ->
   forall id, (id < length names)%nat ->
     UnionCalls.mirrored id (UnionPy.perform_all cs obj)).
Proof.
  intros Hc. destruct (construct_shape _ _ _ _ Hc) as (Hwf & Hnames & Hmir).
  assert (Hm : forall id, (id < length names)%nat -> UnionCalls.mirrored id obj)
    by (intros id Hid; apply Hmir, Hid).
  clear Hc Hmir. revert obj Hwf Hnames Hm.
  induction cs as [| c cs IH]; intros obj Hwf Hnames Hm; cbn [UnionPy.perform_all].
  - auto.
  - destruct (perform_py_keeps_shape c obj Hwf) as (Hwf' & Hnames' & Htn').
    rewrite <- Htn'.
    destruct (UnionPy.converted c) as [c' |] eqn:Hconv.
    + assert (Hm' : forall id, (id < length names)%nat ->
                      UnionCalls.mirrored id (final (UnionPy.perform c obj))).
      { intros id Hid. rewrite (perform_converted _ _ _ Hconv).
        destruct (JITUnion.index_of (UnionCalls.type_of c') (JITUnion.type_names obj))
          as [tid |] eqn:Hk.
        - destruct (decide (id = tid)) as [-> | Hne].
          + apply perform_same_type_mirrored; auto.
          + eapply mirrored_per_type; [| apply Hm, Hid].
            symmetry. eapply perform_other_type; eauto.
        - rewrite (perform_unknown_type _ _ Hk). cbn. apply Hm, Hid. }
      destruct (IH _ Hwf' ltac:(congruence) Hm') as (H1 & H2 & H3 & H4).
      split; [exact H1 |]. split; [exact H2 |]. split; [exact H3 |].
      intros Hall. apply H4. now apply Forall_cons in Hall as [_ Hall].
    + (* mirroring is only claimed for scripts that convert *)
      assert (Hshape : JITUnion.well_formed (UnionPy.perform_all cs (final (UnionPy.perform c obj)))
                /\ JITUnion.type_names (UnionPy.perform_all cs (final (UnionPy.perform c obj)))
                   = names
                /\ JITUnion.m_tuner_narrow_patch
                     (UnionPy.perform_all cs (final (UnionPy.perform c obj)))
                   = JITUnion.m_tuner_narrow_patch (final (UnionPy.perform c obj))).
      { clear IH Hm. assert (Hn : JITUnion.type_names (final (UnionPy.perform c obj)) = names)
          by congruence.
        revert Hwf' Hn. generalize (final (UnionPy.perform c obj)). clear.
        induction cs as [| c cs IH]; intros o Hwf Hn; cbn [UnionPy.perform_all]; [auto |].
        destruct (perform_py_keeps_shape c o Hwf) as (Hwf' & Hnames' & Htn').
        rewrite <- Htn'. apply IH; [exact Hwf' | congruence]. }
      destruct Hshape as (H1 & H2 & H3).
      split; [exact H1 |]. split; [exact H2 |]. split; [exact H3 |].
      intros Hall. apply Forall_cons in Hall as [[c' Hsome] _]. congruence.
Qed.

Lemma index_of_lookup nm names : forall i,
  JITUnion.index_of nm names = Some i -> names !! i = Some nm.
Proof.
  induction names as [| n names IH]; intros i H; [discriminate |].
  cbn in H. destruct (String.eqb_spec nm n) as [-> | Hne].
  - injection H as <-. reflexivity.
  - destruct (JITUnion.index_of nm names) as [j |]; [| discriminate].
    injection H as <-. cbn. apply IH. reflexivity.
Qed.

Lemma hint_block_idem p : JITUnion.hint_block (JITUnion.hint_block p) = JITUnion.hint_block p.
Proof. reflexivity. Qed.

Ltac same_block :=
  apply list_alter_ext; [| reflexivity]; intros [? ? ? ? ? ?] _; reflexivity.

Ltac explicit_object :=
  unfold JITUnion.set_m_type, JITUnion.set_m_position, JITUnion.set_m_orientation,
         JITUnion.set_m_diameter, JITUnion.set_m_charge, JITUnion.set_m_tree,
         JITUnion.set_m_d_union_params, JITUnion.constituents, JITUnion.at_type;
  cbn.


Lemma perform_commutes c1 c2 self :
  JITUnion.well_formed self ->
  UnionCalls.type_of c1 = UnionCalls.type_of c2 ->
  UnionCalls.field_of c1 <> UnionCalls.field_of c2 ->
  UnionCalls.field_of c1 <> UnionCalls.Positions ->
  UnionCalls.field_of c2 <> UnionCalls.Positions ->
  final (UnionCalls.perform c2 (final (UnionCalls.perform c1 self)))
  = final (UnionCalls.perform c1 (final (UnionCalls.perform c2 self))).
Proof.
  intros Hwf Hsame Hf Hp1 Hp2.
  destruct (JITUnion.index_of (UnionCalls.type_of c1) (JITUnion.type_names self))
    as [id |] eqn:Hk.
  - destruct self as [names ty pos ori dia cha tr par tn mm]. cbn in Hk.
    destruct c1, c2; cbn in Hf, Hp1, Hp2, Hsame, Hk |- *; try congruence; subst;
      run_known_setter Hk; explicit_object; run_known_setter Hk; explicit_object.
    all: rewrite ?list_alter_alter_eq.
    all: f_equal; try same_block.
  - assert (Hk2 : JITUnion.index_of (UnionCalls.type_of c2) (JITUnion.type_names self) = None)
      by congruence.
    rewrite (perform_unknown_type c1 self Hk), (perform_unknown_type c2 self Hk2). cbn.
    now rewrite (perform_unknown_type c1 self Hk), (perform_unknown_type c2 self Hk2).
Qed.

(** X2 — a setter called with a type name that the registry does not know
    leaves by the exception of the name lookup before doing anything: the
    object is exactly as before, no residency hint is given and no tree is
    built. *)
Theorem setters_reject_unknown_type
    (c : UnionCalls.Call) (self : JITUnion.PatchEnergyJITUnionGPU) :
  JITUnion.index_of (UnionCalls.type_of c) (JITUnion.type_names self) = None ->
  result (UnionCalls.perform c self) = inl ConfigurationError /\
  final (UnionCalls.perform c self) = self /\
  events (UnionCalls.perform c self) = [].
Proof.
  intros Hnone. rewrite (perform_unknown_type c self Hnone). auto.
Qed.

Lemma setters_reject_unknown_type_witness :
  result (JITUnion.setDiameters "C" [Samples.one] Samples.union_placed)
    = inl ConfigurationError /\
  final (JITUnion.setDiameters "C" [Samples.one] Samples.union_placed)
    = Samples.union_placed /\
  events (JITUnion.setDiameters "C" [Samples.one] Samples.union_placed) = [].
Proof.
  apply (setters_reject_unknown_type
           (UnionCalls.CallDiameters "C" [Samples.one]) Samples.union_placed).
  reflexivity.
Defined.

(** X3 — a setter call for one particle type leaves every other type
    alone: the host vectors, the host tree and the parameter block of any
    other type id are what they were before the call. *)
Theorem setters_leave_other_types_alone
    (c : UnionCalls.Call) (self : JITUnion.PatchEnergyJITUnionGPU) (id other : nat) :
  JITUnion.index_of (UnionCalls.type_of c) (JITUnion.type_names self) = Some id ->
  other <> id ->
  JITUnion.constituents other (final (UnionCalls.perform c self))
    = JITUnion.constituents other self /\
  JITUnion.m_tree (final (UnionCalls.perform c self)) !! other
    = JITUnion.m_tree self !! other /\
  JITUnion.m_d_union_params (final (UnionCalls.perform c self)) !! other
    = JITUnion.m_d_union_params self !! other.
Proof.
  intros Hk Hne.
  pose proof (perform_other_type c self id other Hk Hne) as H.
  unfold UnionCalls.per_type in H.
  pose proof (f_equal (fun p => fst (fst p)) H) as Hc.
  pose proof (f_equal (fun p => snd (fst p)) H) as Ht.
  pose proof (f_equal snd H) as Hp.
  cbn in Hc, Ht, Hp. auto.
Qed.

Lemma setters_leave_other_types_alone_witness :
  JITUnion.constituents 1
      (final (JITUnion.setPositions "A" Samples.two_positions Samples.union_placed))
    = JITUnion.constituents 1 Samples.union_placed /\
  JITUnion.m_tree
      (final (JITUnion.setPositions "A" Samples.two_positions Samples.union_placed)) !! 1%nat
    = JITUnion.m_tree Samples.union_placed !! 1%nat /\
  JITUnion.m_d_union_params
      (final (JITUnion.setPositions "A" Samples.two_positions Samples.union_placed)) !! 1%nat
    = JITUnion.m_d_union_params Samples.union_placed !! 1%nat.
Proof.
  apply (setters_leave_other_types_alone
           (UnionCalls.CallPositions "A" Samples.two_positions) Samples.union_placed 0 1).
  - reflexivity.
  - discriminate.
Defined.



(** X5 — [setTypeids], [setOrientations], [setDiameters] and [setCharges]
    of one type can be called in any order: two different ones leave the
    same object whichever comes first. *)
Theorem setters_without_rebuild_commute
    (c1 c2 : UnionCalls.Call) (self : JITUnion.PatchEnergyJITUnionGPU) :
  JITUnion.well_formed self ->
  UnionCalls.type_of c1 = UnionCalls.type_of c2 ->
  UnionCalls.field_of c1 <> UnionCalls.field_of c2 ->
  UnionCalls.field_of c1 <> UnionCalls.Positions ->
  UnionCalls.field_of c2 <> UnionCalls.Positions ->
  final (UnionCalls.perform c2 (final (UnionCalls.perform c1 self)))
  = final (UnionCalls.perform c1 (final (UnionCalls.perform c2 self))).
Proof. apply perform_commutes. Qed.

Lemma setters_without_rebuild_commute_witness :
  final (JITUnion.setCharges "B" [Samples.two]
           (final (JITUnion.setDiameters "B" [Samples.one] Samples.union_placed)))
  = final (JITUnion.setDiameters "B" [Samples.one]
             (final (JITUnion.setCharges "B" [Samples.two] Samples.union_placed))).
Proof.
  apply (setters_without_rebuild_commute
           (UnionCalls.CallDiameters "B" [Samples.one])
           (UnionCalls.CallCharges "B" [Samples.two]) Samples.union_placed).
  - repeat split.
  - reflexivity.
  - discriminate.
  - discriminate.
  - discriminate.
Defined.

Lemma setter_scripts_keep_host_and_block_in_step_witness :
  exists obj,
    JITUnion.construct ["A"; "B"] Samples.exec_conf [256; 512] = Some (inr obj) /\
    JITUnion.well_formed
      (UnionPy.perform_all
         [UnionPy.CallPositions "B" (inr <$> Samples.two_positions);
          UnionPy.CallCharges "B" [inr Samples.one; inl "must be real number, not str"];
          UnionPy.CallCharges "C" [inr Samples.one]] obj) /\
    UnionCalls.mirrored 1
      (UnionPy.perform_all
         [UnionPy.CallPositions "B" (inr <$> Samples.two_positions);
          UnionPy.CallCharges "C" [inr Samples.one];
          UnionPy.CallOrientations "B" (inr <$> Samples.two_orientations)] obj).
Proof.
  destruct (JITUnion.construct ["A"; "B"] Samples.exec_conf [256; 512])
    as [[e | obj] |] eqn:E; [vm_compute in E; discriminate E | | vm_compute in E; discriminate E].
  exists obj. split; [reflexivity |]. split.
  - apply (setter_scripts_keep_host_and_block_in_step ["A"; "B"] Samples.exec_conf [256; 512]
             obj _ E).
  - apply (setter_scripts_keep_host_and_block_in_step ["A"; "B"] Samples.exec_conf [256; 512]
             obj _ E).
    + repeat (constructor; [eexists; reflexivity |]). constructor.
    + cbn. lia.
Defined.

(** X22 — a setter that meets a list element which does not convert
    leaves by the exception of the cast, from inside its loop: the host
    vector of the type has been resized to the length of the list, but
    the parameter block was not replaced, no hint was given and no tree
    was built; the other types are as before. *)
Theorem setter_cast_failure_leaves_block_behind
    (c : UnionPy.Call) (self : JITUnion.PatchEnergyJITUnionGPU) (id : nat) :
  JITUnion.well_formed self ->
  UnionPy.converted c = None ->
  JITUnion.index_of (UnionPy.type_of c) (JITUnion.type_names self) = Some id ->
  (exists what, result (UnionPy.perform c self) = inl (runtime_error what)) /\
  events (UnionPy.perform c self) = [] /\
  UnionPy.host_length c id (final (UnionPy.perform c self)) = UnionPy.input_length c /\
  JITUnion.m_d_union_params (final (UnionPy.perform c self))
    = JITUnion.m_d_union_params self /\
  JITUnion.m_tree (final (UnionPy.perform c self)) = JITUnion.m_tree self /\
  JITUnion.well_formed (final (UnionPy.perform c self)) /\
  (forall other, other <> id ->
     JITUnion.constituents other (final (UnionPy.perform c self))
     = JITUnion.constituents other self).
Proof.
  intros Hwf Hconv Hk.
  destruct (perform_cast_failure c self id Hconv Hk)
    as (what & Hres & Hev & Hpar & Htree & _ & _ & Hwf' & Hother & Hlen).
  split; [exists what; exact Hres |]. split; [exact Hev |].
  split; [exact (Hlen Hwf) |]. split; [exact Hpar |]. split; [exact Htree |].
  split; [exact (Hwf' Hwf) | exact Hother].
Qed.

Lemma setter_cast_failure_leaves_block_behind_witness :
  UnionPy.host_length
    (UnionPy.CallDiameters "B"
       [inr Samples.one; inl "must be real number, not str"; inr Samples.two])
    1
    (final (UnionPy.setDiameters "B"
              [inr Samples.one; inl "must be real number, not str"; inr Samples.two]
              Samples.union_placed))
  = 3%nat /\
  JITUnion.m_d_union_params
    (final (UnionPy.setDiameters "B"
              [inr Samples.one; inl "must be real number, not str"; inr Samples.two]
              Samples.union_placed))
  = JITUnion.m_d_union_params Samples.union_placed.
Proof.
  assert (Hwf : JITUnion.well_formed Samples.union_placed) by repeat split.
  destruct (setter_cast_failure_leaves_block_behind
              (UnionPy.CallDiameters "B"
                 [inr Samples.one; inl "must be real number, not str"; inr Samples.two])
              Samples.union_placed 1 Hwf eq_refl eq_refl)
    as (_ & _ & Hlen & Hpar & _).
  split; [exact Hlen | exact Hpar].
Defined.

Lemma NoDup_concat_fmap {A B} (f : B -> list A) (l : list B) :
  NoDup l ->
  (forall y, In y l -> NoDup (f y)) ->
  (forall y1 y2 a, In y1 l -> In y2 l -> In a (f y1) -> In a (f y2) -> y1 = y2) ->
  NoDup (concat (f <$> l)).
Proof.
  induction 1 as [| y l Hy Hl IH]; intros Hf Hdisj; cbn; [constructor |].
  apply NoDup_app. split; [apply Hf; now left |]. split.
  - intros a Ha Hin%list_elem_of_In%in_concat_fmap.
    destruct Hin as (y' & Hy' & Ha').
    assert (y = y') by (eapply (Hdisj y y' a); [now left | now right | | exact Ha'];
                        now apply list_elem_of_In).
    subst y'. apply Hy. now apply list_elem_of_In.
  - apply IH.
    + intros y' Hy'. apply Hf. now right.
    + intros y1 y2 a H1 H2. apply Hdisj; now right.
Qed.

Lemma length_concat_const {A B} (f : B -> list A) (l : list B) (n : nat) :
  (forall y, length (f y) = n) ->
  length (concat (f <$> l)) = (length l * n)%nat.
Proof.
  intros Hf. induction l as [| y l IH]; [reflexivity |].
  cbn [fmap list_fmap concat length]. rewrite length_app, Hf.
  change (list_fmap B (list A) f l) with (f <$> l). rewrite IH. reflexivity.
Qed.

Lemma NoDup_multiples_upto stride limit : 0 < stride -> NoDup (multiples_upto stride limit).
Proof.
  intros Hs. unfold multiples_upto.
  apply NoDup_fmap_2; [| apply NoDup_seq].
  intros i j H. nia.
Qed.

Lemma NoDup_getTppListPow2 warp : NoDup (DPD.getTppListPow2 warp).
Proof.
  unfold DPD.getTppListPow2. apply NoDup_filter.
  apply NoDup_fmap_2; [| apply NoDup_seq].
  intros i j H. apply Z.pow_inj_r in H; lia.
Qed.

Lemma DPD_decode_exact block_size s :
  0 <= block_size <= 1024 -> 0 <= s < 10000 ->
  DPD.decode (block_size * 10000 + s) = (block_size, s).
Proof.
  intros Hb Hs. unfold DPD.decode. f_equal.
  - symmetry. apply (Z.div_unique _ _ block_size s); lia.
  - symmetry. apply (Z.mod_unique _ _ block_size s); lia.
Qed.

(** X6 — for every positive warp size the constructor's loops end, and the
    vector they fill holds no key twice; it has one key for each multiple
    of the warp size up to 1024 and each threads-per-particle value. *)
Theorem valid_params_has_no_duplicate_key (warp : Z) :
  0 < warp ->
  exists params,
    DPD.valid_params warp = Some params /\
    NoDup params /\
    length params
    = (Z.to_nat (1024 / warp) * length (DPD.getTppListPow2 warp))%nat.
Proof.
  intros Hw. eexists. split; [apply DPD_valid_params, Hw |]. split.
  - apply NoDup_concat_fmap.
    + apply NoDup_multiples_upto, Hw.
    + intros bs Hbs. apply in_multiples_upto in Hbs as [Hbs Hdiv]; [| lia | lia].
      assert (warp <= bs) by (apply Z.divide_pos_le; [lia | exact Hdiv]).
      apply NoDup_fmap_2_strong; [| apply NoDup_getTppListPow2].
      intros s1 s2 H1%list_elem_of_In%in_getTppListPow2 H2%list_elem_of_In%in_getTppListPow2 He.
      destruct H1 as (Hp1%is_pow2_pos & Hl1 & _), H2 as (Hp2%is_pow2_pos & Hl2 & _).
      rewrite !DPD_encode_exact in He by lia. lia.
    + intros b1 b2 key Hb1 Hb2 Hk1 Hk2.
      apply in_multiples_upto in Hb1 as [Hb1 Hd1], Hb2 as [Hb2 Hd2]; try lia.
      assert (warp <= b1) by (apply Z.divide_pos_le; [lia | exact Hd1]).
      assert (warp <= b2) by (apply Z.divide_pos_le; [lia | exact Hd2]).
      apply list_elem_of_In, list_elem_of_fmap in Hk1 as (s1 & -> & Hs1).
      apply list_elem_of_In, list_elem_of_fmap in Hk2 as (s2 & He & Hs2).
      apply list_elem_of_In, in_getTppListPow2 in Hs1 as (Hp1%is_pow2_pos & Hl1 & _).
      apply list_elem_of_In, in_getTppListPow2 in Hs2 as (Hp2%is_pow2_pos & Hl2 & _).
      rewrite !DPD_encode_exact in He by lia. lia.
  - rewrite (length_concat_const _ _ (length (DPD.getTppListPow2 warp)))
      by (intros; apply length_fmap).
    unfold multiples_upto. now rewrite length_fmap, length_seq.
Qed.

Lemma valid_params_has_no_duplicate_key_witness :
  exists params,
    DPD.valid_params 32 = Some params /\ NoDup params /\
    length params = (Z.to_nat (1024 / 32) * length (DPD.getTppListPow2 32))%nat.
Proof. apply (valid_params_has_no_duplicate_key 32). lia. Defined.

(** X7 — what the constructor does, by execution configuration: without a
    GPU it throws before looking at the warp size; with a GPU and a warp
    size of 0 its block-size loop never ends; with a warp size above 1024
    the loop body never runs and the tuner is refused its empty candidate
    list; for a warp size from 1 to 1024 it returns an object in automatic
    mode ([m_param = 0]) whose tuner is scanning, outside a bracket. *)
Theorem DPD_constructor_outcomes
    (ec : ExecutionConfiguration) (nl : DPD.NeighborList) (nm : string) :
  0 <= warpSize ec ->
  (isCUDAEnabled ec = false ->
     DPD.construct ec nl nm
     = Some (inl (runtime_error "Error initializing PotentialPairDPDThermoGPU"))) /\
  (isCUDAEnabled ec = true -> warpSize ec = 0 -> DPD.construct ec nl nm = None) /\
  (isCUDAEnabled ec = true -> 1024 < warpSize ec ->
     DPD.construct ec nl nm = Some (inl ConfigurationError)) /\
  (isCUDAEnabled ec = true -> 0 < warpSize ec <= 1024 ->
     exists obj,
       DPD.construct ec nl nm = Some (inr obj) /\
       DPD.m_param obj = 0 /\ DPD.m_exec_conf obj = ec /\ DPD.m_nlist obj = nl /\
       Autotuner.state (DPD.m_tuner obj) = Autotuner.Scanning /\
       Autotuner.in_bracket (DPD.m_tuner obj) = false).
Proof.
  intros Hw. unfold DPD.construct. repeat split.
  - intros ->. reflexivity.
  - intros -> ->. cbn [negb]. vm_compute. reflexivity.
  - intros -> Hbig. cbn [negb]. rewrite DPD_valid_params by lia.
    unfold multiples_upto. rewrite Z.div_small by lia. reflexivity.
  - intros -> [Hpos Hle]. cbn [negb]. rewrite DPD_valid_params by lia.
    pose proof (in_DPD_valid_params _ _ (warpSize ec * 10000 + 1) Hpos
                  (DPD_valid_params _ Hpos)) as Hkey.
    destruct (construct_nonempty
                (concat ((fun block_size => DPD.encode block_size <$>
                                              DPD.getTppListPow2 (warpSize ec))
                           <$> multiples_upto (warpSize ec) 1024))
                5 100000 ("pair_" +:+ nm)) as [a Ha].
    { intros Hnil. rewrite Hnil in Hkey. apply Hkey.
      exists (warpSize ec), 1. repeat split; try lia.
      - exists 1. lia.
      - now exists 0%nat. }
    rewrite Ha. exists (DPD.mk ec nl a 0). split; [reflexivity |].
    apply construct_fields in Ha. cbn. tauto.
Qed.

Lemma DPD_constructor_outcomes_witness :
  DPD.construct {| isCUDAEnabled := false; isCUDAErrorCheckingEnabled := false; warpSize := 0 |}
    Samples.nlist_full "DPD"
  = Some (inl (runtime_error "Error initializing PotentialPairDPDThermoGPU")) /\
  DPD.construct {| isCUDAEnabled := true; isCUDAErrorCheckingEnabled := false; warpSize := 2048 |}
    Samples.nlist_full "DPD"
  = Some (inl ConfigurationError) /\
  exists obj,
    DPD.construct Samples.exec_conf Samples.nlist_full "DPD" = Some (inr obj) /\
    DPD.m_param obj = 0 /\ DPD.m_exec_conf obj = Samples.exec_conf /\
    DPD.m_nlist obj = Samples.nlist_full /\
    Autotuner.state (DPD.m_tuner obj) = Autotuner.Scanning /\
    Autotuner.in_bracket (DPD.m_tuner obj) = false.
Proof.
  split; [| split].
  - apply (DPD_constructor_outcomes
             {| isCUDAEnabled := false; isCUDAErrorCheckingEnabled := false; warpSize := 0 |});
      [cbn; lia | reflexivity].
  - apply (DPD_constructor_outcomes
             {| isCUDAEnabled := true; isCUDAErrorCheckingEnabled := false; warpSize := 2048 |});
      [cbn; lia | reflexivity | reflexivity].
  - apply (DPD_constructor_outcomes Samples.exec_conf); [cbn; lia | reflexivity | cbn; lia].
Defined.

(** ** Further properties of computeForces *)

(** What every call leaves alone, whichever way it ends. *)
Lemma computeForces_frame timestep dev self :
  DPD.m_param (final (DPD.computeForces timestep dev self)) = DPD.m_param self /\
  DPD.m_exec_conf (final (DPD.computeForces timestep dev self)) = DPD.m_exec_conf self /\
  DPD.m_nlist (final (DPD.computeForces timestep dev self)) = DPD.m_nlist self /\
  (DPD.m_param self <> 0 -> final (DPD.computeForces timestep dev self) = self).
Proof.
  destruct (decide (DPD.getStorageMode (DPD.m_nlist self) = DPD.half)) as [Hhalf | Hmode].
  { rewrite (computeForces_half _ _ _ Hhalf). cbn. auto. }
  destruct (decide (DPD.m_param self = 0)) as [Hp | Hp].
  - rewrite (computeForces_auto _ _ _ Hmode Hp).
    destruct (Autotuner.begin _) as [e | tn]; [cbn; auto |].
    unfold DPD.after_launch. cbn [DPD.m_exec_conf DPD.set_tuner].
    destruct (Autotuner.end_ (DPD.elapsed dev) tn),
             (isCUDAErrorCheckingEnabled _), (DPD.launch_fails dev);
      cbn; intuition congruence.
  - rewrite (computeForces_manual _ _ _ Hmode Hp).
    unfold DPD.after_launch.
    destruct (isCUDAErrorCheckingEnabled _), (DPD.launch_fails dev); cbn; auto.
Qed.

(** X8 — the calls that one [computeForces] makes come in a fixed
    order, whatever the state of the object and whatever the device
    reports.  The neighbour list is asked to compute first.  Then the
    call either reports the half neighbour list and stops, or, in
    automatic mode, calls [begin] (and stops there if [begin] refuses)
    and [getParam]; with a manual parameter it calls the tuner not at
    all.  Then comes exactly one kernel launch, after it the device
    check exactly when error checking is enabled, and last [end], which
    is only missing when the check threw. *)
Theorem computeForces_orders_its_calls
    (timestep : Z) (dev : DPD.Device) (self : DPD.PotentialPairDPDThermoGPU) :
  events (DPD.computeForces timestep dev self)
    = [EvNlistCompute timestep;
       EvMsgError "PotentialPairDPDThermoGPU cannot handle a half neighborlist"] \/
  events (DPD.computeForces timestep dev self) = [EvNlistCompute timestep; EvTunerBegin] \/
  exists setup block_size threads_per_particle closing,
    events (DPD.computeForces timestep dev self)
      = [EvNlistCompute timestep] ++ setup
        ++ [EvKernelLaunch block_size threads_per_particle]
        ++ DPD.post_launch_check self ++ closing /\
    (DPD.m_param self <> 0 /\ setup = [] /\ closing = [] \/
     DPD.m_param self = 0 /\ setup = [EvTunerBegin; EvTunerGetParam] /\
     (closing = [EvTunerEnd] \/
      closing = [] /\
      result (DPD.computeForces timestep dev self) = inl DeviceExecutionError)).
Proof.
  destruct (decide (DPD.getStorageMode (DPD.m_nlist self) = DPD.half)) as [Hhalf | Hmode].
  { rewrite (computeForces_half _ _ _ Hhalf). left. reflexivity. }
  right.
  destruct (decide (DPD.m_param self = 0)) as [Hp | Hp].
  - rewrite (computeForces_auto _ _ _ Hmode Hp).
    destruct (Autotuner.begin _) as [e | tn]; [left; reflexivity |].
    right.
    exists [EvTunerBegin; EvTunerGetParam], (Autotuner.getParam tn / 10000),
           (Autotuner.getParam tn mod 10000).
    unfold DPD.after_launch, DPD.post_launch_check.
    cbn [DPD.m_exec_conf DPD.set_tuner].
    destruct (Autotuner.end_ (DPD.elapsed dev) tn),
             (isCUDAErrorCheckingEnabled _), (DPD.launch_fails dev);
      cbn -[Z.div Z.modulo];
      first [ exists [EvTunerEnd]; split; [reflexivity | right; auto]
            | exists []; split; [reflexivity | right; auto] ].
  - rewrite (computeForces_manual _ _ _ Hmode Hp).
    right. exists [], (DPD.m_param self / 10000), (DPD.m_param self mod 10000), [].
    unfold DPD.after_launch, DPD.post_launch_check.
    destruct (isCUDAErrorCheckingEnabled _), (DPD.launch_fails dev);
      cbn -[Z.div Z.modulo]; (split; [reflexivity | left; auto]).
Qed.

(** X9 — when the post-launch check finds a device error the exception
    leaves [computeForces] before [m_tuner->end()]: in automatic mode
    [begin] and [getParam] have been called once, [end] is not called, and
    the tuner is left as [begin] left it; with a manual parameter the
    tuner is not touched. *)
Theorem computeForces_device_error_skips_end
    (timestep : Z) (dev : DPD.Device) (self : DPD.PotentialPairDPDThermoGPU) :
  DPD.getStorageMode (DPD.m_nlist self) <> DPD.half ->
  isCUDAErrorCheckingEnabled (DPD.m_exec_conf self) = true ->
  DPD.launch_fails dev = true ->
  (DPD.m_param self = 0 ->
   forall tn, Autotuner.begin (DPD.m_tuner self) = inr tn ->
     result (DPD.computeForces timestep dev self) = inl DeviceExecutionError /\
     events (DPD.computeForces timestep dev self)
       = [EvNlistCompute timestep; EvTunerBegin; EvTunerGetParam;
          EvKernelLaunch (Autotuner.getParam tn / 10000) (Autotuner.getParam tn mod 10000);
          EvCheckCudaError] /\
     DPD.m_tuner (final (DPD.computeForces timestep dev self)) = tn) /\
  (DPD.m_param self <> 0 ->
     result (DPD.computeForces timestep dev self) = inl DeviceExecutionError /\
     events (DPD.computeForces timestep dev self)
       = [EvNlistCompute timestep;
          EvKernelLaunch (DPD.m_param self / 10000) (DPD.m_param self mod 10000);
          EvCheckCudaError] /\
     DPD.m_tuner (final (DPD.computeForces timestep dev self)) = DPD.m_tuner self).
Proof.
  intros Hmode Hcheck Hfail. split.
  - intros Hp tn Hbegin.
    rewrite (computeForces_auto _ _ _ Hmode Hp), Hbegin.
    unfold DPD.after_launch. cbn [DPD.m_exec_conf DPD.set_tuner].
    rewrite Hcheck, Hfail. cbn -[Z.div Z.modulo]. auto.
  - intros Hp.
    rewrite (computeForces_manual _ _ _ Hmode Hp).
    unfold DPD.after_launch. rewrite Hcheck, Hfail. cbn -[Z.div Z.modulo]. auto.
Qed.

Lemma computeForces_device_error_skips_end_witness :
  result (DPD.computeForces 3 Samples.device_faulty Samples.dpd_checked)
    = inl DeviceExecutionError /\
  events (DPD.computeForces 3 Samples.device_faulty Samples.dpd_checked)
    = [EvNlistCompute 3; EvTunerBegin; EvTunerGetParam; EvKernelLaunch 32 1;
       EvCheckCudaError] /\
  DPD.m_tuner (final (DPD.computeForces 3 Samples.device_faulty Samples.dpd_checked))
    = Autotuner.set_bracket true Samples.small_tuner.
Proof.
  assert (Hmode : DPD.getStorageMode (DPD.m_nlist Samples.dpd_checked) <> DPD.half)
    by discriminate.
  exact (proj1 (computeForces_device_error_skips_end 3 Samples.device_faulty
                  Samples.dpd_checked Hmode eq_refl eq_refl)
               eq_refl (Autotuner.set_bracket true Samples.small_tuner) eq_refl).
Defined.

(** X10 — [setTuningParam] stores its argument unchecked, and
    [computeForces] splits whatever is stored: after [setTuningParam(p)]
    with [0 < p < 10000] (a bare threads-per-particle value, as the
    setter's comment describes its argument) the kernel is launched with
    block size 0 and [p] threads per particle, and the tuner is not asked. *)
Theorem setTuningParam_below_10000_gives_block_size_0
    (param timestep : Z) (dev : DPD.Device) (self : DPD.PotentialPairDPDThermoGPU) :
  DPD.getStorageMode (DPD.m_nlist self) <> DPD.half ->
  0 < param < 10000 ->
  exists rest,
    events (DPD.computeForces timestep dev (DPD.setTuningParam param self))
      = [EvNlistCompute timestep; EvKernelLaunch 0 param] ++ rest /\
    (forall ev, In ev rest -> ev = EvCheckCudaError) /\
    final (DPD.computeForces timestep dev (DPD.setTuningParam param self))
      = DPD.setTuningParam param self.
Proof.
  intros Hmode Hp.
  assert (Hm : DPD.m_param (DPD.setTuningParam param self) <> 0) by (cbn; lia).
  rewrite (computeForces_manual timestep dev (DPD.setTuningParam param self) Hmode Hm).
  cbn [DPD.setTuningParam DPD.m_param].
  rewrite Z.div_small, Z.mod_small by lia.
  unfold DPD.after_launch.
  destruct (isCUDAErrorCheckingEnabled _), (DPD.launch_fails dev); cbn.
  - exists [EvCheckCudaError]. repeat split. intros ev [<- | []]. reflexivity.
  - exists [EvCheckCudaError]. repeat split. intros ev [<- | []]. reflexivity.
  - exists []. repeat split. intros ev [].
  - exists []. repeat split. intros ev [].
Qed.

Lemma setTuningParam_below_10000_gives_block_size_0_witness :
  exists rest,
    events (DPD.computeForces 3 Samples.device_ok (DPD.setTuningParam 4 Samples.dpd_full))
      = [EvNlistCompute 3; EvKernelLaunch 0 4] ++ rest /\
    (forall ev, In ev rest -> ev = EvCheckCudaError) /\
    final (DPD.computeForces 3 Samples.device_ok (DPD.setTuningParam 4 Samples.dpd_full))
      = DPD.setTuningParam 4 Samples.dpd_full.
Proof.
  apply (setTuningParam_below_10000_gives_block_size_0 4 3 Samples.device_ok Samples.dpd_full);
    [discriminate | lia].
Defined.

(** ** Runs of computeForces in automatic mode *)

Lemma getParam_in a :
  DPDRun.tuner_sound a -> In (Autotuner.getParam a) (Autotuner.candidates a).
Proof.
  intros [Hp Hl]. unfold Autotuner.getParam.
  destruct (Autotuner.state a); [apply nth_In; exact Hp | exact Hl].
Qed.

Lemma begin_sound a tn :
  Autotuner.begin a = inr tn ->
  Autotuner.candidates tn = Autotuner.candidates a /\
  (DPDRun.tuner_sound a -> DPDRun.tuner_sound tn).
Proof.
  unfold Autotuner.begin. destruct (Autotuner.in_bracket a); [discriminate |].
  intros [= <-]. split; [reflexivity |]. intros H. exact H.
Qed.

Lemma lock_sound smp a :
  DPDRun.tuner_sound a ->
  Autotuner.candidates (Autotuner.lock smp a) = Autotuner.candidates a /\
  DPDRun.tuner_sound (Autotuner.lock smp a).
Proof.
  intros Hs. unfold Autotuner.lock.
  destruct (zip _ _) as [| first rest] eqn:E; [auto |].
  split; [reflexivity |]. split; [apply Hs |]. cbn.
  destruct (arg_min_spec rest first) as [Hin _].
  rewrite <- E in Hin. apply list_elem_of_In in Hin.
  destruct (Autotuner.arg_min first rest) as [key m]. cbn.
  apply list_elem_of_In. eapply elem_of_zip_l. exact Hin.
Qed.

Lemma record_sample_sound d a :
  DPDRun.tuner_sound a ->
  Autotuner.candidates (Autotuner.record_sample d a) = Autotuner.candidates a /\
  DPDRun.tuner_sound (Autotuner.record_sample d a).
Proof.
  intros Hs. unfold Autotuner.record_sample.
  repeat case_bool_decide.
  - split; [reflexivity |]. split; [assumption | apply Hs].
  - apply lock_sound. exact Hs.
  - split; [reflexivity |]. exact Hs.
Qed.

Lemma count_step_sound a :
  DPDRun.tuner_sound a ->
  Autotuner.candidates (Autotuner.count_step a) = Autotuner.candidates a /\
  DPDRun.tuner_sound (Autotuner.count_step a).
Proof.
  intros Hs. unfold Autotuner.count_step, Autotuner.rescan.
  destruct (_ <=? _).
  - split; [reflexivity |]. destruct Hs as [Hp Hl]. split; [cbn; lia | exact Hl].
  - split; [reflexivity |]. exact Hs.
Qed.

Lemma end_sound d a tn :
  Autotuner.end_ d a = inr tn ->
  DPDRun.tuner_sound a ->
  Autotuner.candidates tn = Autotuner.candidates a /\ DPDRun.tuner_sound tn.
Proof.
  unfold Autotuner.end_. destruct (Autotuner.in_bracket a); [| discriminate].
  intros Hend Hs.
  assert (Hs' : DPDRun.tuner_sound (Autotuner.set_bracket false a)) by exact Hs.
  destruct (Autotuner.enabled _); [destruct (Autotuner.state _) |];
    injection Hend as <-.
  - apply (record_sample_sound d _ Hs').
  - apply (count_step_sound _ Hs').
  - split; [reflexivity | exact Hs'].
Qed.

(** One call in automatic mode: the tuner stays sound over the same
    candidates, and a kernel is launched only with a decoded candidate. *)
Lemma computeForces_sound timestep dev self :
  DPD.m_param self = 0 ->
  DPDRun.tuner_sound (DPD.m_tuner self) ->
  (Autotuner.candidates (DPD.m_tuner (final (DPD.computeForces timestep dev self)))
     = Autotuner.candidates (DPD.m_tuner self) /\
   DPDRun.tuner_sound (DPD.m_tuner (final (DPD.computeForces timestep dev self)))) /\
  forall block_size tpp,
    In (EvKernelLaunch block_size tpp) (events (DPD.computeForces timestep dev self)) ->
    exists key, In key (Autotuner.candidates (DPD.m_tuner self)) /\
                DPD.decode key = (block_size, tpp).
Proof.
  intros Hp Hs.
  destruct (decide (DPD.getStorageMode (DPD.m_nlist self) = DPD.half)) as [Hhalf | Hmode].
  { rewrite (computeForces_half _ _ _ Hhalf). cbn. split; [auto |].
    intros bs tpp [H | [H | []]]; discriminate H. }
  rewrite (computeForces_auto _ _ _ Hmode Hp).
  destruct (Autotuner.begin (DPD.m_tuner self)) as [e | tn] eqn:Hbegin.
  { cbn. split; [auto |]. intros bs tpp [H | [H | []]]; discriminate H. }
  destruct (begin_sound _ _ Hbegin) as [Hc Hs'']. pose proof (Hs'' Hs) as Hs'.
  pose proof (getParam_in _ Hs') as Hin. rewrite Hc in Hin.
  assert (Hlaunch : forall bs tpp,
             EvKernelLaunch (Autotuner.getParam tn / 10000) (Autotuner.getParam tn mod 10000)
             = EvKernelLaunch bs tpp ->
             exists key, In key (Autotuner.candidates (DPD.m_tuner self)) /\
                         DPD.decode key = (bs, tpp)).
  { intros bs tpp [= <- <-]. exists (Autotuner.getParam tn). auto. }
  unfold DPD.after_launch. cbn [DPD.m_exec_conf DPD.set_tuner].
  destruct (Autotuner.end_ (DPD.elapsed dev) tn) as [e | tn'] eqn:Hend.
  - destruct (isCUDAErrorCheckingEnabled _), (DPD.launch_fails dev);
      cbn -[Z.div Z.modulo]; (split; [rewrite Hc; auto |]);
      intros bs tpp Hev;
      repeat (destruct Hev as [Hev | Hev]; [try discriminate Hev; eauto |]);
      destruct Hev.
  - destruct (end_sound _ _ _ Hend Hs') as [Hc' Hsound'].
    destruct (isCUDAErrorCheckingEnabled _), (DPD.launch_fails dev);
      cbn -[Z.div Z.modulo]; (split; [rewrite ?Hc', Hc; auto |]);
      intros bs tpp Hev;
      repeat (destruct Hev as [Hev | Hev]; [try discriminate Hev; eauto |]);
      destruct Hev.
Qed.

Lemma run_steps_sound steps : forall self,
  DPD.m_param self = 0 ->
  DPDRun.tuner_sound (DPD.m_tuner self) ->
  forall block_size tpp,
    In (EvKernelLaunch block_size tpp) (fst (DPDRun.run_steps steps self)) ->
    exists key, In key (Autotuner.candidates (DPD.m_tuner self)) /\
                DPD.decode key = (block_size, tpp).
Proof.
  induction steps as [| [timestep dev] rest IH]; intros self Hp Hs bs tpp Hin.
  - destruct Hin.
  - cbn [DPDRun.run_steps] in Hin.
    destruct (computeForces_sound timestep dev self Hp Hs) as [[Hc Hs'] Hlaunch].
    pose proof (computeForces_frame timestep dev self) as (Hp' & _).
    rewrite Hp in Hp'.
    specialize (IH (final (DPD.computeForces timestep dev self)) Hp' Hs' bs tpp).
    destruct (DPDRun.run_steps rest _) as [evs self'].
    cbn [fst] in *. apply in_app_or in Hin as [Hin | Hin].
    + apply Hlaunch. exact Hin.
    + rewrite <- Hc. apply IH. exact Hin.
Qed.

Lemma construct_sound ec nl nm obj :
  0 < warpSize ec ->
  DPD.construct ec nl nm = Some (inr obj) ->
  DPD.m_param obj = 0 /\ DPDRun.tuner_sound (DPD.m_tuner obj) /\
  DPD.valid_params (warpSize ec) = Some (Autotuner.candidates (DPD.m_tuner obj)).
Proof.
  intros Hw Hc. apply DPD_construct_inv in Hc as (params & Hv & Ht & Hp).
  unfold Autotuner.construct in Ht. destruct params as [| c cs]; [discriminate |].
  injection Ht as Ht. rewrite <- Ht.
  split; [exact Hp |]. split; [| exact Hv].
  split.
  - change (0 < S (length cs))%nat. lia.
  - left. reflexivity.
Qed.

(** X11 — an object that left the constructor and is kept in automatic
    mode launches its kernel, in any run of [computeForces] calls and
    whatever the device reports, only with a block size that is a
    positive multiple of the warp size up to 1024 and a
    threads-per-particle value that is a power of two up to the warp
    size: the split in [computeForces] undoes the constructor's key. *)
Theorem automatic_launches_stay_in_domain
    (ec : ExecutionConfiguration) (nl : DPD.NeighborList) (nm : string)
    (obj : DPD.PotentialPairDPDThermoGPU) (steps : list (Z * DPD.Device)) :
  0 < warpSize ec ->
  DPD.construct ec nl nm = Some (inr obj) ->
  forall block_size tpp,
    In (EvKernelLaunch block_size tpp) (fst (DPDRun.run_steps steps obj)) ->
    0 < block_size <= 1024 /\ (warpSize ec | block_size) /\
    is_pow2 tpp /\ tpp <= warpSize ec.
Proof.
  intros Hw Hc bs tpp Hin.
  destruct (construct_sound _ _ _ _ Hw Hc) as (Hp & Hs & Hv).
  destruct (run_steps_sound steps obj Hp Hs bs tpp Hin) as (key & Hkey & Hdec).
  apply (in_DPD_valid_params _ _ key Hw Hv) in Hkey
    as (bs' & tpp' & -> & Hbs & Hdiv & Hpow & Hle).
  assert (warpSize ec <= bs') by (apply Z.divide_pos_le; [lia | exact Hdiv]).
  pose proof (is_pow2_pos _ Hpow).
  rewrite DPD_decode_exact in Hdec by lia.
  injection Hdec as <- <-. auto.
Qed.


Lemma automatic_launches_stay_in_domain_witness :
  0 < 512 <= 1024 /\ (512 | 512) /\ is_pow2 2 /\ 2 <= 512.
Proof.
  pose (ec := {| isCUDAEnabled := true; isCUDAErrorCheckingEnabled := true;
                 warpSize := 512 |}).
  destruct (DPD.construct ec Samples.nlist_full "dpd") as [[e | obj] |] eqn:Hc;
    [exfalso; vm_compute in Hc; discriminate Hc | | exfalso; vm_compute in Hc; discriminate Hc].
  apply (automatic_launches_stay_in_domain ec Samples.nlist_full "dpd" obj
           (repeat (0, Samples.device_ok) 5 ++ [(5, Samples.device_faulty)])
           ltac:(cbn; lia) Hc).
  vm_compute in Hc. injection Hc as <-. vm_compute.
  repeat (try (left; reflexivity); right).
Defined.

Lemma construct_settings ec nl nm obj :
  DPD.construct ec nl nm = Some (inr obj) ->
  DPD.m_param obj = 0 /\ DPD.m_exec_conf obj = ec /\ DPD.m_nlist obj = nl /\
  Autotuner.in_bracket (DPD.m_tuner obj) = false.
Proof.
  unfold DPD.construct.
  destruct (negb _); [discriminate |].
  destruct (DPD.valid_params _) as [params |]; [| discriminate].
  destruct (Autotuner.construct _ _ _ _) as [e | tn] eqn:E; [discriminate |].
  intros [= <-]. apply construct_fields in E.
  change (0 = 0 /\ ec = ec /\ nl = nl /\ Autotuner.in_bracket tn = false). tauto.
Qed.

(** One call in automatic mode on an idle tuner, with no device error to
    be found: one launch, and the tuner is idle again. *)
Lemma computeForces_idle_step timestep dev self :
  DPD.getStorageMode (DPD.m_nlist self) <> DPD.half ->
  DPD.m_param self = 0 ->
  Autotuner.in_bracket (DPD.m_tuner self) = false ->
  isCUDAErrorCheckingEnabled (DPD.m_exec_conf self) && DPD.launch_fails dev = false ->
  length (List.filter DPD.is_launch (events (DPD.computeForces timestep dev self))) = 1%nat /\
  Autotuner.in_bracket (DPD.m_tuner (final (DPD.computeForces timestep dev self))) = false.
Proof.
  intros Hmode Hp Hidle Hok.
  rewrite (computeForces_auto _ _ _ Hmode Hp), (begin_idle _ Hidle).
  destruct (end_in_bracket (DPD.elapsed dev) (Autotuner.set_bracket true (DPD.m_tuner self))
              eq_refl) as [tn' Hend].
  pose proof (end_closes_bracket _ _ _ Hend) as Hclosed.
  unfold DPD.after_launch. cbn [DPD.m_exec_conf DPD.set_tuner].
  destruct (isCUDAErrorCheckingEnabled _); cbn [andb] in Hok;
    rewrite ?Hok, Hend; cbn -[Z.div Z.modulo]; auto.
Qed.

Lemma run_steps_idle steps : forall self,
  DPD.getStorageMode (DPD.m_nlist self) <> DPD.half ->
  DPD.m_param self = 0 ->
  Autotuner.in_bracket (DPD.m_tuner self) = false ->
  Forall (fun step => isCUDAErrorCheckingEnabled (DPD.m_exec_conf self)
                      && DPD.launch_fails (snd step) = false) steps ->
  length (List.filter DPD.is_launch (fst (DPDRun.run_steps steps self))) = length steps.
Proof.
  induction steps as [| [timestep dev] rest IH]; intros self Hmode Hp Hidle Hok.
  - reflexivity.
  - apply Forall_cons in Hok as [Hok Hrest]. cbn [snd] in Hok.
    destruct (computeForces_idle_step timestep dev self Hmode Hp Hidle Hok) as [Hone Hidle'].
    pose proof (computeForces_frame timestep dev self) as (Hp' & Hec & Hnl & _).
    specialize (IH (final (DPD.computeForces timestep dev self))).
    rewrite Hp', Hec, Hnl in IH. specialize (IH Hmode Hp Hidle' Hrest).
    cbn [DPDRun.run_steps].
    destruct (DPDRun.run_steps rest _) as [evs self'].
    cbn [fst] in *. rewrite List.filter_app, length_app, Hone, IH. reflexivity.
Qed.

Lemma run_steps_half steps : forall self,
  DPD.getStorageMode (DPD.m_nlist self) = DPD.half ->
  List.filter DPD.is_launch (fst (DPDRun.run_steps steps self)) = [] /\
  snd (DPDRun.run_steps steps self) = self.
Proof.
  induction steps as [| [timestep dev] rest IH]; intros self Hhalf.
  - split; reflexivity.
  - cbn [DPDRun.run_steps]. rewrite (computeForces_half _ _ _ Hhalf).
    cbn [final events]. destruct (IH self Hhalf) as [Hnone Hsame].
    destruct (DPDRun.run_steps rest self) as [evs self'].
    cbn [fst snd] in *. split; [| exact Hsame].
    rewrite List.filter_app, Hnone. reflexivity.
Qed.

(** X12 — runs of [computeForces] on an object that left the constructor
    and is kept in automatic mode.  With a half neighbour list no call
    ever launches a kernel and the object never changes.  With a full
    neighbour list, as long as no post-launch check finds a device error,
    every call launches exactly one kernel: each call closes the bracket
    it opened, so the next call can open its own. *)
Theorem runs_launch_once_per_call_or_never
    (ec : ExecutionConfiguration) (nl : DPD.NeighborList) (nm : string)
    (obj : DPD.PotentialPairDPDThermoGPU) (steps : list (Z * DPD.Device)) :
  DPD.construct ec nl nm = Some (inr obj) ->
  (DPD.getStorageMode nl = DPD.half ->
     List.filter DPD.is_launch (fst (DPDRun.run_steps steps obj)) = [] /\
     snd (DPDRun.run_steps steps obj) = obj) /\
  (DPD.getStorageMode nl = DPD.full ->
   Forall (fun step => isCUDAErrorCheckingEnabled ec && DPD.launch_fails (snd step) = false)
          steps ->
     length (List.filter DPD.is_launch (fst (DPDRun.run_steps steps obj))) = length steps).
Proof.
  intros Hc. destruct (construct_settings _ _ _ _ Hc) as (Hp & Hec & Hnl & Hidle).
  split.
  - intros Hhalf. apply run_steps_half. now rewrite Hnl.
  - intros Hfull Hok. apply run_steps_idle; auto.
    + rewrite Hnl, Hfull. discriminate.
    + now rewrite Hec.
Qed.

Lemma runs_launch_once_per_call_or_never_witness :
  exists obj,
    DPD.construct Samples.exec_conf Samples.nlist_full "dpd" = Some (inr obj) /\
    length (List.filter DPD.is_launch
              (fst (DPDRun.run_steps [(0, Samples.device_ok); (1, Samples.device_faulty)] obj)))
    = 2%nat.
Proof.
  destruct (DPD.construct Samples.exec_conf Samples.nlist_full "dpd") as [[e | obj] |] eqn:Hc;
    [exfalso; vm_compute in Hc; discriminate Hc | | exfalso; vm_compute in Hc; discriminate Hc].
  exists obj. split; [reflexivity |].
  apply (runs_launch_once_per_call_or_never Samples.exec_conf Samples.nlist_full "dpd" obj
           [(0, Samples.device_ok); (1, Samples.device_faulty)] Hc).
  - reflexivity.
  - repeat constructor.
Defined.

(** ** SystemDefinition: construction and snapshots *)

Lemma setNDimensions_attached n sd pd :
  SysDefLife.m_particle_data sd = Some pd ->
  exists o,
    SysDefLife.setNDimensions n sd = Some o /\
    SysDefLife.m_particle_data (final o) = Some pd /\
    SysDefLife.m_n_dimensions (final o)
      = (if SysDefLife.supported n then n else SysDefLife.m_n_dimensions sd) /\
    (result o = inr tt <-> SysDefLife.supported n = true).
Proof.
  intros Hpd. unfold SysDefLife.setNDimensions, SysDefLife.supported.
  destruct ((n =? 2) || (n =? 3)); cbn [negb]; rewrite ?Hpd.
  - eexists. split; [reflexivity |]. cbn. rewrite ?Hpd. tauto.
  - eexists. split; [reflexivity |]. cbn. rewrite ?Hpd.
    repeat split; discriminate.
Qed.

Lemma last_cons_default {A} (l : list A) : forall x d d',
  List.last (x :: l) d = List.last (x :: l) d'.
Proof.
  induction l as [| y l IH]; intros x d d'; [reflexivity |].
  change (List.last (y :: l) d = List.last (y :: l) d'). apply IH.
Qed.

Lemma setNDimensions_all_attached ns : forall sd pd,
  SysDefLife.m_particle_data sd = Some pd ->
  exists sd',
    SysDefLife.setNDimensions_all ns sd = Some sd' /\
    SysDefLife.m_particle_data sd' = Some pd /\
    SysDefLife.m_n_dimensions sd'
      = List.last (List.filter SysDefLife.supported ns) (SysDefLife.m_n_dimensions sd).
Proof.
  induction ns as [| n ns IH]; intros sd pd Hpd.
  - exists sd. auto.
  - destruct (setNDimensions_attached n sd pd Hpd) as (o & Ho & Hpd' & Hdim & _).
    destruct (IH (final o) pd Hpd') as (sd' & Hrun & Hpd'' & Hdim').
    exists sd'. cbn [SysDefLife.setNDimensions_all List.filter]. rewrite Ho.
    split; [exact Hrun |]. split; [exact Hpd'' |].
    rewrite Hdim', Hdim. destruct (SysDefLife.supported n); [| reflexivity].
    destruct (List.filter SysDefLife.supported ns) as [| m l]; [reflexivity |].
    change (List.last (n :: m :: l) (SysDefLife.m_n_dimensions sd))
      with (List.last (m :: l) (SysDefLife.m_n_dimensions sd)).
    apply last_cons_default.
Qed.

Lemma last_filter_supported ns d :
  SysDefLife.supported d = true ->
  SysDefLife.supported (List.last (List.filter SysDefLife.supported ns) d) = true.
Proof.
  intros Hd. induction ns as [| n ns IH]; [exact Hd |].
  cbn [List.filter]. destruct (SysDefLife.supported n) eqn:Hn; [| exact IH].
  destruct (List.filter SysDefLife.supported ns) as [| m l] eqn:E; [exact Hn |].
  change (List.last (n :: m :: l) d) with (List.last (m :: l) d). exact IH.
Qed.

(** X13 — the snapshot constructor calls [setNDimensions] before it
    assigns [m_particle_data].  For a snapshot of dimension 2 or 3 it
    returns an object of that dimension, whatever the uninitialised
    member held; for any other dimension the error path of
    [setNDimensions] dereferences the still null [m_particle_data], so
    the constructor has no defined result and the [runtime_error] of
    [setNDimensions] is not what the caller gets. *)
Theorem snapshot_constructor_by_dimension
    (indeterminate : Z) (snapshot : SysDefLife.SnapshotSystemData)
    (exec_conf : ExecutionConfiguration) :
  (SysDefLife.dimensions snapshot = 2 \/ SysDefLife.dimensions snapshot = 3 ->
     SysDefLife.construct_snapshot indeterminate snapshot exec_conf
     = Some (inr (SysDefLife.mk (SysDefLife.dimensions snapshot)
                    (Some {| SysDefLife.getExecConf := exec_conf |})))) /\
  (~ (SysDefLife.dimensions snapshot = 2 \/ SysDefLife.dimensions snapshot = 3) ->
     SysDefLife.construct_snapshot indeterminate snapshot exec_conf = None).
Proof.
  unfold SysDefLife.construct_snapshot, SysDefLife.setNDimensions. split.
  - intros [-> | ->]; reflexivity.
  - intros Hn.
    destruct (Z.eqb_spec (SysDefLife.dimensions snapshot) 2) as [H2 | H2]; [tauto |].
    destruct (Z.eqb_spec (SysDefLife.dimensions snapshot) 3) as [H3 | H3]; [tauto |].
    reflexivity.
Qed.

Lemma snapshot_constructor_by_dimension_witness :
  SysDefLife.construct_snapshot 77 {| SysDefLife.dimensions := 2 |} Samples.exec_conf
  = Some (inr (SysDefLife.mk 2 (Some {| SysDefLife.getExecConf := Samples.exec_conf |}))) /\
  SysDefLife.construct_snapshot 77 {| SysDefLife.dimensions := 4 |} Samples.exec_conf = None.
Proof.
  split.
  - apply (snapshot_constructor_by_dimension 77 {| SysDefLife.dimensions := 2 |}
             Samples.exec_conf).
    left. reflexivity.
  - apply (snapshot_constructor_by_dimension 77 {| SysDefLife.dimensions := 4 |}
             Samples.exec_conf).
    intros [H | H]; discriminate H.
Defined.

(** X14 — an object built by the [N]-particle constructor keeps a
    dimensionality of 2 or 3 under any sequence of [setNDimensions]
    calls: every call has a defined outcome, the particle data stays
    attached, and the stored value is the last accepted argument, or 3 if
    none was accepted. *)
Theorem setNDimensions_keeps_dimension_2_or_3
    (exec_conf : ExecutionConfiguration) (ns : list Z) :
  exists sd,
    SysDefLife.setNDimensions_all ns (SysDefLife.construct_N exec_conf) = Some sd /\
    SysDefLife.m_particle_data sd = Some {| SysDefLife.getExecConf := exec_conf |} /\
    SysDefLife.m_n_dimensions sd = List.last (List.filter SysDefLife.supported ns) 3 /\
    (SysDefLife.m_n_dimensions sd = 2 \/ SysDefLife.m_n_dimensions sd = 3).
Proof.
  destruct (setNDimensions_all_attached ns (SysDefLife.construct_N exec_conf) _ eq_refl)
    as (sd & Hrun & Hpd & Hdim).
  exists sd. split; [exact Hrun |]. split; [exact Hpd |]. split; [exact Hdim |].
  pose proof (last_filter_supported ns 3 eq_refl) as Hs.
  change (SysDefLife.m_n_dimensions (SysDefLife.construct_N exec_conf)) with 3 in Hdim.
  rewrite <- Hdim in Hs. unfold SysDefLife.supported in Hs. lia.
Qed.

(** X15 — [initializeFromSnapshot] assigns the snapshot's dimension
    without the check of [setNDimensions]: on an object with particle data
    it stores a dimension that [setNDimensions] refuses, a snapshot taken
    afterwards carries it, and the snapshot constructor has no defined
    result on that snapshot. *)
Theorem initializeFromSnapshot_skips_dimension_check
    (snapshot : SysDefLife.SnapshotSystemData) (sd : SysDefLife.SystemDefinition)
    (pd : SysDefLife.ParticleData) (indeterminate : Z) (exec_conf : ExecutionConfiguration) :
  SysDefLife.m_particle_data sd = Some pd ->
  ~ (SysDefLife.dimensions snapshot = 2 \/ SysDefLife.dimensions snapshot = 3) ->
  (exists o, SysDefLife.setNDimensions (SysDefLife.dimensions snapshot) sd = Some o /\
             result o = inl (runtime_error "Error setting dimensions") /\ final o = sd) /\
  exists sd',
    SysDefLife.initializeFromSnapshot snapshot sd = Some sd' /\
    SysDefLife.m_n_dimensions sd' = SysDefLife.dimensions snapshot /\
    SysDefLife.takeSnapshot sd' = Some snapshot /\
    (forall snapshot', SysDefLife.takeSnapshot sd' = Some snapshot' ->
       SysDefLife.construct_snapshot indeterminate snapshot' exec_conf = None).
Proof.
  intros Hpd Hn.
  assert (Hbad : negb ((SysDefLife.dimensions snapshot =? 2)
                       || (SysDefLife.dimensions snapshot =? 3)) = true).
  { destruct (Z.eqb_spec (SysDefLife.dimensions snapshot) 2) as [H2 | H2]; [tauto |].
    destruct (Z.eqb_spec (SysDefLife.dimensions snapshot) 3) as [H3 | H3]; [tauto |].
    reflexivity. }
  split.
  - unfold SysDefLife.setNDimensions. rewrite Hbad, Hpd. eexists. split; [reflexivity |].
    split; reflexivity.
  - unfold SysDefLife.initializeFromSnapshot. rewrite Hpd. eexists.
    split; [reflexivity |]. split; [reflexivity |].
    assert (Htake : SysDefLife.takeSnapshot
                      (SysDefLife.mk (SysDefLife.dimensions snapshot) (Some pd))
                    = Some snapshot) by (destruct snapshot; reflexivity).
    split; [exact Htake |].
    intros snapshot' Hs. rewrite Htake in Hs. injection Hs as <-.
    unfold SysDefLife.construct_snapshot, SysDefLife.setNDimensions.
    rewrite Hbad. reflexivity.
Qed.

Lemma initializeFromSnapshot_skips_dimension_check_witness :
  exists sd',
    SysDefLife.initializeFromSnapshot {| SysDefLife.dimensions := 7 |}
      (SysDefLife.construct_N Samples.exec_conf) = Some sd' /\
    SysDefLife.m_n_dimensions sd' = 7 /\
    SysDefLife.takeSnapshot sd' = Some {| SysDefLife.dimensions := 7 |} /\
    (forall snapshot', SysDefLife.takeSnapshot sd' = Some snapshot' ->
       SysDefLife.construct_snapshot 0 snapshot' Samples.exec_conf = None).
Proof.
  apply (initializeFromSnapshot_skips_dimension_check {| SysDefLife.dimensions := 7 |}
           (SysDefLife.construct_N Samples.exec_conf)
           {| SysDefLife.getExecConf := Samples.exec_conf |} 0 Samples.exec_conf).
  - reflexivity.
  - intros [H | H]; discriminate H.
Defined.

(** X21 — on a [SystemDefinition] with particle data, [setNDimensions n]
    returns normally exactly when [n] is 2 or 3, and then the stored
    dimensionality is [n]; for every other [n] it reports the error,
    throws [runtime_error] and leaves the object as it was. *)
Theorem setNDimensions_with_particle_data_accepts_2_or_3
    (n : Z) (sd : SysDefLife.SystemDefinition) (pd : SysDefLife.ParticleData) :
  SysDefLife.m_particle_data sd = Some pd ->
  exists o,
    SysDefLife.setNDimensions n sd = Some o /\
    (result o = inr tt <-> n = 2 \/ n = 3) /\
    (n = 2 \/ n = 3 ->
       final o = SysDefLife.mk n (Some pd) /\ events o = []) /\
    (~ (n = 2 \/ n = 3) ->
       result o = inl (runtime_error "Error setting dimensions") /\
       final o = sd /\
       events o = [EvMsgError "hoomd supports only 2D or 3D simulations"]).
Proof.
  intros Hpd. unfold SysDefLife.setNDimensions. rewrite Hpd.
  destruct (Z.eqb_spec n 2) as [-> | H2].
  { eexists. split; [reflexivity |]. cbn. intuition congruence. }
  destruct (Z.eqb_spec n 3) as [-> | H3].
  { eexists. split; [reflexivity |]. cbn. intuition congruence. }
  eexists. split; [reflexivity |]. cbn.
  split; [| split].
  - split; [discriminate | intros [? | ?]; congruence].
  - intros [? | ?]; congruence.
  - auto.
Qed.

Lemma setNDimensions_with_particle_data_accepts_2_or_3_witness :
  exists o,
    SysDefLife.setNDimensions 2 (SysDefLife.construct_N Samples.exec_conf) = Some o /\
    (result o = inr tt <-> 2 = 2 \/ 2 = 3) /\
    (2 = 2 \/ 2 = 3 ->
       final o = SysDefLife.mk 2 (Some {| SysDefLife.getExecConf := Samples.exec_conf |}) /\
       events o = []) /\
    (~ (2 = 2 \/ 2 = 3) ->
       result o = inl (runtime_error "Error setting dimensions") /\
       final o = SysDefLife.construct_N Samples.exec_conf /\
       events o = [EvMsgError "hoomd supports only 2D or 3D simulations"]).
Proof.
  apply (setNDimensions_with_particle_data_accepts_2_or_3 2
           (SysDefLife.construct_N Samples.exec_conf)
           {| SysDefLife.getExecConf := Samples.exec_conf |}).
  reflexivity.
Defined.

(** ** MOL2DumpWriter: the file name *)

Lemma length_append s1 s2 :
  String.length (s1 +:+ s2) = (String.length s1 + String.length s2)%nat.
Proof.
  induction s1 as [| c s1 IH]; [reflexivity |].
  change (S (String.length (s1 +:+ s2)) = S (String.length s1 + String.length s2)).
  f_equal. exact IH.
Qed.

Lemma length_fill k c : String.length (MOL2.fill k c) = k.
Proof.
  induction k as [| k IH]; [reflexivity |].
  change (S (String.length (MOL2.fill k c)) = S k). f_equal. exact IH.
Qed.

Lemma digit_code d :
  0 <= d < 10 -> Z.of_nat (Ascii.nat_of_ascii (MOL2.digit d)) = 48 + d.
Proof.
  intros Hd. unfold MOL2.digit. rewrite Ascii.nat_ascii_embedding; lia.
Qed.

Lemma length_digits fuel : forall n acc,
  (String.length (MOL2.digits fuel n acc) <= fuel + String.length acc)%nat.
Proof.
  induction fuel as [| fuel IH]; intros n acc; [cbn; lia |].
  cbn [MOL2.digits]. destruct (n <? 10).
  - cbn. lia.
  - etransitivity; [apply IH |]. cbn. lia.
Qed.

Lemma value_digits fuel : forall n acc,
  0 <= n < 10 ^ Z.of_nat fuel ->
  MOL2.value_from 0 (MOL2.digits fuel n acc) = MOL2.value_from n acc.
Proof.
  induction fuel as [| fuel IH]; intros n acc Hn.
  - cbn in *. f_equal. lia.
  - cbn [MOL2.digits]. destruct (Z.ltb_spec n 10) as [Hlt | Hge].
    + cbn [MOL2.value_from]. rewrite digit_code by (apply Z.mod_pos_bound; lia).
      rewrite Z.mod_small by lia. f_equal. lia.
    + rewrite IH.
      * cbn [MOL2.value_from]. rewrite digit_code by (apply Z.mod_pos_bound; lia).
        f_equal. pose proof (Z.div_mod n 10). lia.
      * rewrite Nat2Z.inj_succ, Z.pow_succ_r in Hn by lia.
        split; [apply Z.div_pos; lia | apply Z.div_lt_upper_bound; lia].
Qed.

Lemma all_digits_digits fuel : forall n acc,
  0 <= n -> MOL2.all_digits acc = true -> MOL2.all_digits (MOL2.digits fuel n acc) = true.
Proof.
  induction fuel as [| fuel IH]; intros n acc Hn Hacc; [exact Hacc |].
  assert (Hd : MOL2.all_digits (String (MOL2.digit (n mod 10)) acc) = true).
  { cbn [MOL2.all_digits]. rewrite Hacc, andb_true_r. unfold MOL2.is_digit.
    pose proof (Z.mod_pos_bound n 10). rewrite digit_code by lia.
    apply andb_true_intro. split; apply Z.leb_le; lia. }
  cbn [MOL2.digits]. destruct (n <? 10); [exact Hd |].
  apply IH; [apply Z.div_pos; lia | exact Hd].
Qed.

Lemma value_from_append s1 : forall v s2,
  MOL2.value_from v (s1 +:+ s2) = MOL2.value_from (MOL2.value_from v s1) s2.
Proof.
  induction s1 as [| c s1 IH]; intros v s2; [reflexivity |].
  change (String c s1 +:+ s2) with (String c (s1 +:+ s2)).
  cbn [MOL2.value_from]. apply IH.
Qed.

Lemma value_fill_zero k : MOL2.value_from 0 (MOL2.fill k (MOL2.digit 0)) = 0.
Proof. induction k as [| k IH]; [reflexivity |]. exact IH. Qed.

Lemma all_digits_append s1 s2 :
  MOL2.all_digits s1 = true -> MOL2.all_digits s2 = true ->
  MOL2.all_digits (s1 +:+ s2) = true.
Proof.
  intros H1 H2. induction s1 as [| c s1 IH]; [exact H2 |].
  change (MOL2.is_digit c && MOL2.all_digits s1 = true) in H1.
  change (MOL2.is_digit c && MOL2.all_digits (s1 +:+ s2) = true).
  apply andb_prop in H1 as [Hc H1]. rewrite Hc. exact (IH H1).
Qed.

Lemma all_digits_fill_zero k : MOL2.all_digits (MOL2.fill k (MOL2.digit 0)) = true.
Proof. induction k as [| k IH]; [reflexivity |]. exact IH. Qed.

Lemma full_fname_stamp base timestep :
  MOL2.full_fname base timestep
  = base +:+ "." +:+ MOL2.setw_fill 10 (MOL2.digit 0) (MOL2.show_unsigned timestep) +:+ ".mol2".
Proof. reflexivity. Qed.

(** The padded time step of the file name. *)
Lemma stamp_spec timestep :
  0 <= timestep < 2 ^ 32 ->
  String.length (MOL2.setw_fill 10 (MOL2.digit 0) (MOL2.show_unsigned timestep)) = 10%nat /\
  MOL2.all_digits (MOL2.setw_fill 10 (MOL2.digit 0) (MOL2.show_unsigned timestep)) = true /\
  MOL2.value_from 0 (MOL2.setw_fill 10 (MOL2.digit 0) (MOL2.show_unsigned timestep)) = timestep.
Proof.
  intros Ht. unfold MOL2.setw_fill, MOL2.show_unsigned.
  pose proof (length_digits 10 timestep "") as Hlen. cbn [String.length] in Hlen.
  split; [| split].
  - rewrite length_append, length_fill. lia.
  - apply all_digits_append; [apply all_digits_fill_zero |].
    apply all_digits_digits; [lia | reflexivity].
  - rewrite value_from_append, value_fill_zero. rewrite value_digits; [reflexivity |].
    change (10 ^ Z.of_nat 10) with 10000000000. lia.
Qed.

(** X16 — the file name that [analyze] hands to [writeFile] is the base
    name, a dot, the time step as exactly ten decimal digits (an
    [unsigned int] never needs more, so nothing is ever wider than the
    padding), and [.mol2]; hence its length is that of the base name plus
    16, and two time steps never share a file name. *)
Theorem analyze_file_name_stamps_timestep (base : string) (timestep : Z) :
  0 <= timestep < 2 ^ 32 ->
  (exists stamp,
     MOL2.full_fname base timestep = base +:+ "." +:+ stamp +:+ ".mol2" /\
     String.length stamp = 10%nat /\ MOL2.all_digits stamp = true /\
     MOL2.value_from 0 stamp = timestep) /\
  String.length (MOL2.full_fname base timestep) = (String.length base + 16)%nat /\
  (forall timestep', 0 <= timestep' < 2 ^ 32 ->
     MOL2.full_fname base timestep = MOL2.full_fname base timestep' ->
     timestep = timestep').
Proof.
  intros Ht. destruct (stamp_spec timestep Ht) as (Hlen & Hdig & Hval).
  split; [| split].
  - eexists. split; [apply full_fname_stamp |]. auto.
  - rewrite full_fname_stamp, !length_append, Hlen. cbn [String.length]. lia.
  - intros timestep' Ht' Heq.
    destruct (stamp_spec timestep' Ht') as (_ & _ & Hval').
    rewrite !full_fname_stamp in Heq.
    apply String.app_inj in Heq. apply (String.app_inj ".") in Heq.
    apply (f_equal (MOL2.value_from 0)) in Heq.
    rewrite !value_from_append, Hval, Hval' in Heq.
    cbn [MOL2.value_from] in Heq.
    repeat match type of Heq with
           | context [Z.of_nat (Ascii.nat_of_ascii ?c)] =>
               let v := eval vm_compute in (Z.of_nat (Ascii.nat_of_ascii c)) in
               change (Z.of_nat (Ascii.nat_of_ascii c)) with v in Heq
           end.
    lia.
Qed.

Lemma analyze_file_name_stamps_timestep_witness :
  String.length (MOL2.full_fname "dump" 42) = (String.length "dump" + 16)%nat.
Proof.
  apply (analyze_file_name_stamps_timestep "dump" 42). lia.
Defined.

(** ** MOL2DumpWriter: writeFile *)

Lemma put_line_good line f :
  MOL2.good (MOL2.put_line line f) = true ->
  MOL2.good f = true /\
  MOL2.content (MOL2.put_line line f) = MOL2.content f ++ [line] /\
  MOL2.room f = S (MOL2.room (MOL2.put_line line f)).
Proof.
  unfold MOL2.put_line. destruct (MOL2.good f) eqn:Hg; [| congruence].
  destruct (MOL2.room f); cbn; [discriminate | auto].
Qed.

Lemma put_line_room line f :
  MOL2.good f = true -> (0 < MOL2.room f)%nat ->
  MOL2.put_line line f
  = MOL2.mkStream true (MOL2.content f ++ [line]) (MOL2.room f - 1).
Proof.
  intros Hg Hr. unfold MOL2.put_line. rewrite Hg.
  destruct (MOL2.room f) as [| r]; [lia |]. f_equal. lia.
Qed.

Lemma put_lines_good lines : forall f,
  MOL2.good (MOL2.put_lines lines f) = true ->
  MOL2.good f = true /\
  MOL2.content (MOL2.put_lines lines f) = MOL2.content f ++ lines /\
  MOL2.room f = (MOL2.room (MOL2.put_lines lines f) + length lines)%nat.
Proof.
  induction lines as [| line lines IH]; intros f Hg.
  - cbn in *. rewrite app_nil_r. auto with lia.
  - change (MOL2.put_lines (line :: lines) f)
      with (MOL2.put_lines lines (MOL2.put_line line f)) in *.
    destruct (IH _ Hg) as (Hg' & Hc & Hr).
    destruct (put_line_good _ _ Hg') as (Hg'' & Hc' & Hr').
    split; [exact Hg'' |]. split.
    + rewrite Hc, Hc', <- app_assoc. reflexivity.
    + rewrite Hr', Hr. cbn [length]. lia.
Qed.

Lemma put_lines_room lines : forall f,
  MOL2.good f = true -> (length lines <= MOL2.room f)%nat ->
  MOL2.put_lines lines f
  = MOL2.mkStream true (MOL2.content f ++ lines) (MOL2.room f - length lines).
Proof.
  induction lines as [| line lines IH]; intros f Hg Hr.
  - cbn. rewrite app_nil_r, Nat.sub_0_r. destruct f; cbn in *. now subst.
  - change (MOL2.put_lines (line :: lines) f)
      with (MOL2.put_lines lines (MOL2.put_line line f)).
    cbn [length] in Hr. rewrite put_line_room by (auto; lia).
    rewrite IH by (cbn; auto; lia). cbn. f_equal.
    + rewrite <- app_assoc. reflexivity.
    + lia.
Qed.

(** The atom loop when it runs to its end and leaves a good stream. *)
Lemma atoms_done show pdata js : forall f f',
  MOL2.atoms show pdata js f = Some (inr f') ->
  MOL2.good f' = true ->
  MOL2.good f = true /\
  exists atom_lines,
    MOL2.content f' = MOL2.content f ++ atom_lines /\
    Forall2 (fun j line => MOL2.atom show pdata j = Some (inr line)) js atom_lines.
Proof.
  induction js as [| j js IH]; intros f f' Hrun Hg.
  - injection Hrun as <-. split; [exact Hg |]. exists []. rewrite app_nil_r. auto.
  - cbn [MOL2.atoms] in Hrun.
    destruct (MOL2.atom show pdata j) as [[name | line] |] eqn:Hatom; try discriminate.
    destruct (MOL2.good (MOL2.put_line line f)) eqn:Hg'; [| discriminate].
    cbn [negb] in Hrun.
    destruct (IH _ _ Hrun Hg) as (_ & atom_lines & Hc & Hall).
    destruct (put_line_good _ _ Hg') as (Hgood & Hc' & _).
    split; [exact Hgood |]. exists (line :: atom_lines). split.
    + rewrite Hc, Hc', <- app_assoc. reflexivity.
    + constructor; assumption.
Qed.

(** The atom loop when it throws: the stream it leaves. *)
Lemma atoms_thrown show pdata js : forall f message f',
  MOL2.atoms show pdata js f = Some (inl (message, f')) ->
  exists atom_lines,
    MOL2.content f' = MOL2.content f ++ atom_lines /\
    (length atom_lines < length js)%nat.
Proof.
  induction js as [| j js IH]; intros f message f' Hrun; [discriminate |].
  cbn [MOL2.atoms] in Hrun.
  destruct (MOL2.atom show pdata j) as [[name | line] |] eqn:Hatom; try discriminate.
  - injection Hrun as _ <-. exists []. rewrite app_nil_r. cbn. split; [reflexivity | lia].
  - destruct (MOL2.good (MOL2.put_line line f)) eqn:Hg'; cbn [negb] in Hrun.
    + destruct (IH _ _ _ Hrun) as (atom_lines & Hc & Hlen).
      destruct (put_line_good _ _ Hg') as (_ & Hc' & _).
      exists (line :: atom_lines). split.
      * rewrite Hc, Hc', <- app_assoc. reflexivity.
      * cbn. lia.
    + injection Hrun as _ <-. exists []. rewrite app_nil_r. split.
      * unfold MOL2.put_line in *. destruct (MOL2.good f); [| reflexivity].
        destruct (MOL2.room f); [reflexivity | discriminate Hg'].
      * cbn. lia.
Qed.

(** The atom loop over particles that all give a line, on a stream with
    room for them. *)
Lemma atoms_app show pdata js : forall atom_lines rest f,
  Forall2 (fun j line => MOL2.atom show pdata j = Some (inr line)) js atom_lines ->
  MOL2.good f = true -> (length atom_lines <= MOL2.room f)%nat ->
  MOL2.atoms show pdata (js ++ rest) f
  = MOL2.atoms show pdata rest
      (MOL2.mkStream true (MOL2.content f ++ atom_lines) (MOL2.room f - length atom_lines)).
Proof.
  induction js as [| j js IH]; intros atom_lines rest f Hall Hg Hr.
  - apply Forall2_nil_inv_l in Hall as ->. cbn. rewrite app_nil_r, Nat.sub_0_r.
    destruct f; cbn in *. now subst.
  - apply Forall2_cons_inv_l in Hall as (line & lines & Hatom & Hall & ->).
    cbn [length] in Hr. cbn [app MOL2.atoms]. rewrite Hatom.
    rewrite put_line_room by (auto; lia). cbn [negb MOL2.good].
    rewrite (IH lines rest) by (cbn; auto; lia).
    cbn [MOL2.content MOL2.room length].
    replace ((MOL2.content f ++ [line]) ++ lines) with (MOL2.content f ++ line :: lines)
      by (rewrite <- app_assoc; reflexivity).
    replace (MOL2.room f - 1 - length lines)%nat with (MOL2.room f - S (length lines))%nat
      by lia.
    reflexivity.
Qed.

Lemma counter_split n j :
  0 <= j < n ->
  MOL2.counter n = MOL2.counter j ++ j :: (Z.of_nat <$> seq (S (Z.to_nat j)) (Z.to_nat n - S (Z.to_nat j))).
Proof.
  intros Hj. unfold MOL2.counter.
  replace (Z.to_nat n) with (Z.to_nat j + S (Z.to_nat n - S (Z.to_nat j)))%nat at 1 by lia.
  rewrite seq_app, fmap_app. cbn [seq fmap list_fmap]. f_equal.
  cbn. f_equal. lia.
Qed.

Lemma length_counter n : length (MOL2.counter n) = Z.to_nat n.
Proof. unfold MOL2.counter. now rewrite length_fmap, length_seq. Qed.

Lemma length_bond_lines bond_data :
  (1 <= length (MOL2.bond_lines bond_data))%nat /\
  (match bond_data with
   | Some bonds => MOL2.getNumBonds bonds < 2 ^ 31
   | None => True
   end ->
   MOL2.num_bonds bond_data = Z.of_nat (length (MOL2.bond_lines bond_data))).
Proof.
  unfold MOL2.bond_lines, MOL2.num_bonds, MOL2.getNumBonds, MOL2.to_int.
  destruct bond_data as [bonds |]; [| cbn; auto with lia].
  destruct (Z.ltb_spec 0 (Z.of_nat (length bonds))) as [Hpos | Hzero]; [| cbn; auto with lia].
  rewrite length_fmap, length_zip, length_seq, Nat.min_id.
  split; [lia |]. intros Hsmall.
  destruct (Z.ltb_spec (Z.of_nat (length bonds)) (2 ^ 31)); [reflexivity | lia].
Qed.

(** X17 — how [writeFile] ends.  It throws nothing but
    [runtime_error("Error writting mol2 dump file")], each time after one
    message on [cerr].  When the file cannot be opened nothing is touched:
    the particle data is not acquired.  Past that point the data is
    acquired once, and released only on the way to a normal return: every
    throw after the open check leaves it acquired.  A normal return
    leaves the stream good. *)
Theorem writeFile_releases_only_on_return
    (show_scalar : MOL2.Scalar -> string) (self : MOL2.MOL2DumpWriter)
    (fname : string) (w : MOL2.World) (o : Outcome MOL2.World unit) :
  MOL2.writeFile show_scalar self fname w = Some o ->
  (result o = inr tt /\ events o = [] /\
   MOL2.held (final o) = MOL2.held w /\ MOL2.good (MOL2.file (final o)) = true) \/
  (result o = inl (runtime_error "Error writting mol2 dump file") /\
   length (events o) = 1%nat /\
   ((MOL2.good (MOL2.file w) = false /\ final o = w) \/
    (MOL2.good (MOL2.file w) = true /\ MOL2.held (final o) = S (MOL2.held w)))).
Proof.
  unfold MOL2.writeFile. destruct (MOL2.good (MOL2.file w)) eqn:Hg; cbn [negb].
  - destruct (MOL2.atoms _ _ _ _) as [[[message f'] | f'] |]; [| | discriminate].
    + intros [= <-]. right. cbn. auto.
    + destruct (MOL2.good (MOL2.put_lines _ _)) eqn:Hg'; cbn [negb]; intros [= <-].
      * left. cbn. rewrite Nat.sub_0_r. auto.
      * right. cbn. auto.
  - intros [= <-]. right. cbn. auto.
Qed.

Lemma writeFile_releases_only_on_return_witness :
  exists o,
    MOL2.writeFile MOL2Samples.show_scalar MOL2Samples.writer_long_name "dump.mol2"
      (MOL2Samples.opened 100) = Some o /\
    ((result o = inr tt /\ events o = [] /\
      MOL2.held (final o) = 0%nat /\ MOL2.good (MOL2.file (final o)) = true) \/
     (result o = inl (runtime_error "Error writting mol2 dump file") /\
      length (events o) = 1%nat /\
      ((MOL2.good (MOL2.file (MOL2Samples.opened 100)) = false /\
        final o = MOL2Samples.opened 100) \/
       (MOL2.good (MOL2.file (MOL2Samples.opened 100)) = true /\
        MOL2.held (final o) = 1%nat)))).
Proof.
  eexists. split; [reflexivity |].
  apply (writeFile_releases_only_on_return MOL2Samples.show_scalar
           MOL2Samples.writer_long_name "dump.mol2" (MOL2Samples.opened 100)).
  reflexivity.
Defined.

Lemma bond_lines_dummy_or_all bond_data :
  match bond_data with
  | Some (bond :: bonds) => length (MOL2.bond_lines bond_data) = S (length bonds)
  | _ => MOL2.bond_lines bond_data = ["1 1 2 1"]
  end.
Proof.
  destruct bond_data as [[| bond bonds] |]; [reflexivity | | reflexivity].
  unfold MOL2.bond_lines, MOL2.getNumBonds.
  destruct (Z.ltb_spec 0 (Z.of_nat (length (bond :: bonds)))) as [_ | Hle];
    [| cbn [length] in Hle; lia].
  now rewrite length_fmap, length_zip, length_seq, Nat.min_id.
Qed.

(** X18 — the file that a normal return of [writeFile] leaves: the five
    header lines, one line per particle, the line [@<TRIPOS>BOND], and at
    least one bond line.  The bond count printed in the header is the
    number of bond lines that follow; with no bond data, or with no bond
    in it, that is the one dummy line [1 1 2 1], whatever the number of
    particles. *)
Theorem writeFile_layout_on_return
    (show_scalar : MOL2.Scalar -> string) (self : MOL2.MOL2DumpWriter)
    (fname : string) (w : MOL2.World) (o : Outcome MOL2.World unit) :
  MOL2.writeFile show_scalar self fname w = Some o ->
  result o = inr tt ->
  match MOL2.getBondData self with
  | Some bonds => MOL2.getNumBonds bonds < 2 ^ 31
  | None => True
  end ->
  exists atom_lines bonds_written,
    MOL2.content (MOL2.file (final o))
    = MOL2.content (MOL2.file w)
      ++ ["@<TRIPOS>MOLECULE"; "Generated by HOOMD";
          MOL2.show_unsigned (MOL2.getN (MOL2.m_pdata self)) +:+ " "
            +:+ MOL2.show_int (Z.of_nat (length bonds_written));
          "NO_CHARGES"; "@<TRIPOS>ATOM"]
      ++ atom_lines ++ "@<TRIPOS>BOND" :: bonds_written /\
    length atom_lines = Z.to_nat (MOL2.nparticles (MOL2.arrays (MOL2.m_pdata self))) /\
    Forall2 (fun j line => MOL2.atom show_scalar (MOL2.m_pdata self) j = Some (inr line))
            (MOL2.counter (MOL2.nparticles (MOL2.arrays (MOL2.m_pdata self)))) atom_lines /\
    (1 <= length bonds_written)%nat /\
    match MOL2.getBondData self with
    | Some (bond :: bonds) => length bonds_written = S (length bonds)
    | _ => bonds_written = ["1 1 2 1"]
    end.
Proof.
  unfold MOL2.writeFile. intros Hrun Hres Hsmall.
  destruct (MOL2.good (MOL2.file w)) eqn:Hg; cbn [negb] in Hrun;
    [| injection Hrun as <-; discriminate Hres].
  destruct (MOL2.atoms _ _ _ _) as [[[message f2] | f2] |] eqn:Hatoms;
    [injection Hrun as <-; discriminate Hres | | discriminate].
  destruct (MOL2.good (MOL2.put_lines _ _)) eqn:Hg4; cbn [negb] in Hrun;
    injection Hrun as <-; [| discriminate Hres].
  cbn [final MOL2.file].
  destruct (put_lines_good _ _ Hg4) as (Hg3 & Hc4 & _).
  destruct (put_line_good _ _ Hg3) as (Hg2 & Hc3 & _).
  destruct (atoms_done _ _ _ _ _ Hatoms Hg2) as (Hg1 & atom_lines & Hc2 & Hall).
  destruct (put_lines_good _ _ Hg1) as (_ & Hc1 & _).
  destruct (length_bond_lines (MOL2.getBondData self)) as [Hone Hcount].
  exists atom_lines, (MOL2.bond_lines (MOL2.getBondData self)).
  split; [| split; [| split; [exact Hall | split; [exact Hone |]]]].
  - rewrite Hc4, Hc3, Hc2, Hc1. unfold MOL2.header. rewrite (Hcount Hsmall).
    rewrite <- !app_assoc. reflexivity.
  - apply Forall2_length in Hall. rewrite <- Hall. apply length_counter.
  - apply bond_lines_dummy_or_all.
Qed.

Lemma writeFile_layout_on_return_witness :
  exists o atom_lines bonds_written,
    MOL2.writeFile MOL2Samples.show_scalar MOL2Samples.writer "dump.mol2"
      (MOL2Samples.opened 100) = Some o /\
    MOL2.content (MOL2.file (final o))
    = [] ++ ["@<TRIPOS>MOLECULE"; "Generated by HOOMD";
             MOL2.show_unsigned 2 +:+ " " +:+ MOL2.show_int (Z.of_nat (length bonds_written));
             "NO_CHARGES"; "@<TRIPOS>ATOM"]
         ++ atom_lines ++ "@<TRIPOS>BOND" :: bonds_written /\
    length atom_lines = 2%nat /\
    bonds_written = ["1 1 2 1"].
Proof.
  assert (Hsmall : MOL2.getNumBonds [] < 2 ^ 31) by (vm_compute; reflexivity).
  destruct (writeFile_layout_on_return MOL2Samples.show_scalar MOL2Samples.writer "dump.mol2"
              (MOL2Samples.opened 100) _ eq_refl eq_refl Hsmall)
    as (atom_lines & bonds_written & Hc & Hlen & _ & _ & Hdummy).
  eexists. exists atom_lines, bonds_written.
  split; [reflexivity |]. split; [exact Hc |]. split; [exact Hlen | exact Hdummy].
Defined.

(** X19 — a particle whose type name is longer than 15 characters stops
    [writeFile] in the middle of the file: with the file open and room on
    the medium, the call throws after the header and the lines of the
    particles before that one; the [@<TRIPOS>BOND] section is not
    written and the particle data stays acquired. *)
Theorem writeFile_long_type_name_truncates_file
    (show_scalar : MOL2.Scalar -> string) (self : MOL2.MOL2DumpWriter)
    (fname : string) (w : MOL2.World) (j : Z) (atom_lines : list string)
    (type_name : string) :
  MOL2.good (MOL2.file w) = true ->
  0 <= j < MOL2.nparticles (MOL2.arrays (MOL2.m_pdata self)) ->
  Forall2 (fun k line => MOL2.atom show_scalar (MOL2.m_pdata self) k = Some (inr line))
          (MOL2.counter j) atom_lines ->
  MOL2.atom show_scalar (MOL2.m_pdata self) j = Some (inl type_name) ->
  (5 + length atom_lines <= MOL2.room (MOL2.file w))%nat ->
  (15 < String.length type_name)%nat /\
  MOL2.writeFile show_scalar self fname w
  = Some (mkOutcome (inl (runtime_error "Error writting mol2 dump file"))
            (MOL2.mkWorld
               (MOL2.mkStream true
                  (MOL2.content (MOL2.file w) ++ MOL2.header self ++ atom_lines)
                  (MOL2.room (MOL2.file w) - 5 - length atom_lines))
               (S (MOL2.held w)))
            [EvMsgError ("Error! Type name <" +:+ type_name
                         +:+ "> too long: please limit to 15 characters")]).
Proof.
  intros Hg Hj Hall Hlong Hroom. split.
  - unfold MOL2.atom in Hlong.
    repeat match type of Hlong with
           | context [MOL2.at_index ?l ?i] => destruct (MOL2.at_index l i); cbn in Hlong;
                                               [| discriminate Hlong]
           end.
    match type of Hlong with
    | context [15 <? ?n] => destruct (Z.ltb_spec 15 n) as [Hlt | Hge]
    end; [| discriminate Hlong].
    injection Hlong as <-. lia.
  - unfold MOL2.writeFile. rewrite Hg. cbn [negb].
    rewrite (counter_split _ _ Hj).
    rewrite put_lines_room by (auto; cbn; lia).
    rewrite (atoms_app _ _ _ atom_lines) by (auto; cbn; lia).
    cbn [MOL2.atoms]. rewrite Hlong. cbn [MOL2.content MOL2.room MOL2.header length].
    rewrite <- app_assoc. reflexivity.
Qed.

Lemma writeFile_long_type_name_truncates_file_witness :
  (15 < String.length "a_very_long_type_name")%nat /\
  MOL2.writeFile MOL2Samples.show_scalar MOL2Samples.writer_long_name "dump.mol2"
    (MOL2Samples.opened 100)
  = Some (mkOutcome (inl (runtime_error "Error writting mol2 dump file"))
            (MOL2.mkWorld
               (MOL2.mkStream true
                  ([] ++ MOL2.header MOL2Samples.writer_long_name ++ [])
                  (100 - 5 - 0))
               1)
            [EvMsgError ("Error! Type name <" +:+ "a_very_long_type_name"
                         +:+ "> too long: please limit to 15 characters")]).
Proof.
  apply (writeFile_long_type_name_truncates_file MOL2Samples.show_scalar
           MOL2Samples.writer_long_name "dump.mol2" (MOL2Samples.opened 100) 0 []
           "a_very_long_type_name").
  - reflexivity.
  - cbn. lia.
  - constructor.
  - reflexivity.
  - cbn. lia.
Defined.

(** ** Construction of a PatchEnergyJITUnionGPU *)

(** A loop whose condition holds for more iterations than its fuel. *)
Lemma for_loop_runs_out {A} cond step (body : Z -> A -> option A) : forall fuel x acc,
  (forall k, (k <= fuel)%nat -> cond (Nat.iter k step x) = true) ->
  for_loop fuel cond step body x acc = None.
Proof.
  induction fuel as [| fuel IH]; intros x0 acc Hcond.
  - pose proof (Hcond 0%nat (Nat.le_refl _)) as H0. cbn [Nat.iter nat_rect] in H0.
    cbn [for_loop]. now rewrite H0.
  - pose proof (Hcond 0%nat ltac:(lia)) as H0. cbn [Nat.iter nat_rect] in H0.
    cbn [for_loop]. rewrite H0.
    destruct (body x0 acc) as [acc' |]; [| reflexivity].
    apply IH. intros k Hk. rewrite <- Nat.iter_succ_r. apply Hcond. lia.
Qed.

Lemma for_each_none {A B} (body : B -> A -> option A) (bad : B) l : forall acc,
  In bad l -> (forall acc', body bad acc' = None) -> for_each body l acc = None.
Proof.
  induction l as [| y l IH]; intros acc Hin Hbad; [destruct Hin |].
  cbn [for_each]. destruct Hin as [-> | Hin].
  - now rewrite Hbad.
  - destruct (body y acc); [apply IH; assumption | reflexivity].
Qed.

Lemma concat_fmap_nil {A B} (f : B -> list A) (l : list B) :
  (forall y, f y = []) -> concat (f <$> l) = [].
Proof.
  intros Hf. induction l as [| y l IH]; [reflexivity |].
  cbn. now rewrite Hf, IH.
Qed.

(** X20 — what the constructor's tuning loops make of the warp size and
    the launch bounds reported by the kernel factory.  With launch bounds
    from 1 to 1024: if there is none, or the warp size is 0, no key is
    pushed and the tuner is refused its empty candidate list; with a warp
    size from 1 to 1024 and at least one bound the constructor returns an
    object in managed memory with one parameter block per particle type
    and a scanning tuner.  A launch bound of 2^31 or more lets
    [group_size *= 2] wrap to 0: the constructor divides by zero or its
    group loop never ends, it does not return. *)
Theorem JITUnion_constructor_outcomes
    (names : list string) (ec : ExecutionConfiguration) (bounds : list Z) :
  (Forall (fun bound => 0 < bound <= 1024) bounds ->
   bounds = [] \/ warpSize ec = 0 ->
     JITUnion.construct names ec bounds = Some (inl ConfigurationError)) /\
  (Forall (fun bound => 0 < bound <= 1024) bounds ->
   bounds <> [] -> 0 < warpSize ec <= 1024 ->
     exists obj,
       JITUnion.construct names ec bounds = Some (inr obj) /\
       JITUnion.type_names obj = names /\
       length (JITUnion.m_d_union_params obj) = length names /\
       JITUnion.m_managed_memory obj = true /\
       Autotuner.state (JITUnion.m_tuner_narrow_patch obj) = Autotuner.Scanning) /\
  ((exists bound, In bound bounds /\ 2 ^ 31 <= bound < 2 ^ 32) ->
     JITUnion.construct names ec bounds = None).
Proof.
  split; [| split].
  - intros Hb Hempty. unfold JITUnion.construct.
    destruct Hempty as [-> | Hzero]; [reflexivity |].
    rewrite JIT_valid_params_patch; [| lia | exact Hb]. rewrite Hzero.
    rewrite concat_fmap_nil; [reflexivity |].
    intros bound. apply concat_fmap_nil. intros group_size. reflexivity.
  - intros Hb Hne Hw. unfold JITUnion.construct.
    destruct bounds as [| bound bounds']; [congruence |].
    pose proof (JIT_valid_params_patch (warpSize ec) (bound :: bounds') ltac:(lia) Hb) as Hv.
    pose proof (in_JIT_valid_params_patch (warpSize ec) (bound :: bounds') _
                  (bound * 1000000 + 1 * 100 + 1) (proj2 Hw) Hb Hv) as Hkey.
    rewrite Hv.
    destruct (construct_nonempty
                (concat ((fun bound0 =>
                   concat ((fun group_size =>
                      concat ((fun eval_threads =>
                                 if bound0 mod (group_size * eval_threads) =? 0
                                 then [JITUnion.encode bound0 group_size eval_threads] else [])
                              <$> pow2_upto (warpSize ec)))
                    <$> pow2_upto bound0))
                 <$> bound :: bounds'))
                5 100000 "hpmc_narrow_patch") as [tn Htn].
    { intros Hnil. rewrite Hnil in Hkey. apply Hkey.
      exists bound, 1, 1. split; [reflexivity |]. split; [left; reflexivity |].
      split; [now exists 0%nat |]. split; [now exists 0%nat |].
      split; [lia | apply Z.divide_1_l]. }
    rewrite Htn. eexists. split; [reflexivity |].
    apply construct_fields in Htn as (_ & _ & _ & _ & Hstate & _).
    cbn [JITUnion.type_names JITUnion.m_d_union_params JITUnion.m_managed_memory
         JITUnion.m_tuner_narrow_patch].
    rewrite length_replicate. auto.
  - intros (bound & Hin & Hbig & _). unfold JITUnion.construct.
    replace (JITUnion.valid_params_patch (warpSize ec) bounds) with (@None (list Z));
      [reflexivity |].
    symmetry. unfold JITUnion.valid_params_patch. cbn zeta.
    apply (for_each_none _ bound); [exact Hin |].
    intros acc. apply for_loop_runs_out. intros k Hk. apply Z.leb_le.
    assert (Hk' : In k (seq 0 33)) by (apply in_seq; lia).
    cbn [seq] in Hk'.
    repeat (destruct Hk' as [<- | Hk'];
            [match goal with
             | |- ?l <= _ => let v := eval vm_compute in l in change l with v
             end; lia |]).
    destruct Hk'.
Qed.

Lemma JITUnion_constructor_outcomes_witness :
  JITUnion.construct ["A"; "B"] Samples.exec_conf [] = Some (inl ConfigurationError) /\
  (exists obj,
     JITUnion.construct ["A"; "B"] Samples.exec_conf [256; 512] = Some (inr obj) /\
     JITUnion.type_names obj = ["A"; "B"] /\
     length (JITUnion.m_d_union_params obj) = length ["A"; "B"] /\
     JITUnion.m_managed_memory obj = true /\
     Autotuner.state (JITUnion.m_tuner_narrow_patch obj) = Autotuner.Scanning) /\
  JITUnion.construct ["A"; "B"] Samples.exec_conf [256; 2147483648] = None.
Proof.
  split; [| split].
  - apply (JITUnion_constructor_outcomes ["A"; "B"] Samples.exec_conf []);
      [constructor | left; reflexivity].
  - apply (JITUnion_constructor_outcomes ["A"; "B"] Samples.exec_conf [256; 512]).
    + repeat constructor; lia.
    + discriminate.
    + cbn. lia.
  - apply (JITUnion_constructor_outcomes ["A"; "B"] Samples.exec_conf [256; 2147483648]).
    exists 2147483648. split; [right; left; reflexivity | lia].
Defined.
